(** * Loan application intake: a shallow embedding of the submission route

    The development follows [src/routes/application.routes.js] (the handler of
    [POST /api/applications] and the assignments of the approve and reject
    routes), the Application model with its [pre('save')] hook, the rate band
    of the Loan model and [sendEmail] of [src/utils/sendEmail.js].

    Conventions of the embedding.
    - A JavaScript value is a term of [value]; objects keep their own
      properties in insertion order.
    - A JavaScript number is [NaN], an infinity or a finite rational. The
      arithmetic operations are those of IEEE 754 double precision: the exact
      result rounded to the nearest double, the even one at a tie, with
      overflow to an infinity ([round_double]). The two zeros are one value;
      where the sign of a zero divisor matters the code divides by a
      difference [x - 1], which is the positive zero when it is zero.
    - Built-in functions of the host whose definition is not in the repository
      ([JSON.parse], the string-to-number conversion, [String.prototype.trim],
      ...) are fields of the record [Builtins]; every theorem holds for all of
      them.
    - The collaborators of the route (the loan collection, the application
      collection, the mail transport, the process environment) are fields of
      the record [World]. *)

From Stdlib Require Import ZArith QArith Qround Qpower Qabs List String Ascii Bool Lia Lqa Arith.
From stdpp Require Import base strings gmap.
Import ListNotations.

Local Open Scope string_scope.
Local Open Scope list_scope.

Set Warnings "-register-all".

(** String concatenation unfolds under [cbn] in this file. *)
#[local] Arguments String.append !_ _ / : simpl nomatch.

(** ** Numbers and values *)

Inductive number : Type :=
| NaN
| Infinity (negative : bool)
| Finite (q : Q).

Inductive value : Type :=
| Undefined
| Null
| Bool (b : bool)
| Num (n : number)
| Str (s : string)
| Obj (props : list (string * value))
| Arr (elems : list value).

(** [isNaN(n)] and [Number.isFinite(n)] on a number. *)
Definition isNaN (n : number) : bool :=
  match n with NaN => true | _ => false end.

Definition Number_isFinite (n : number) : bool :=
  match n with Finite _ => true | _ => false end.

(** [n <= 0] and [n > 0]; every comparison with [NaN] is false. *)
Definition le_zero (n : number) : bool :=
  match n with
  | NaN => false
  | Infinity negative => negative
  | Finite q => Qle_bool q 0
  end.

Definition gt_zero (n : number) : bool :=
  match n with
  | NaN => false
  | Infinity negative => negb negative
  | Finite q => negb (Qle_bool q 0)
  end.

(** ToBoolean. *)
Definition truthy_number (n : number) : bool :=
  match n with
  | NaN => false
  | Infinity _ => true
  | Finite q => negb (Qeq_bool q 0)
  end.

Definition truthy (v : value) : bool :=
  match v with
  | Undefined | Null => false
  | Bool b => b
  | Num n => truthy_number n
  | Str s => negb (String.eqb s "")
  | Obj _ | Arr _ => true
  end.

(** [a || b] and [a ?? b]. *)
Definition js_or (a b : value) : value := if truthy a then a else b.

Definition nullish (v : value) : bool :=
  match v with Undefined | Null => true | _ => false end.

Definition js_coalesce (a b : value) : value := if nullish a then b else a.

(** [typeof v === 'string'] and [typeof v === 'object']. *)
Definition typeof_string (v : value) : bool :=
  match v with Str _ => true | _ => false end.

Definition typeof_object (v : value) : bool :=
  match v with Null | Obj _ | Arr _ => true | _ => false end.

(** Own properties of an object literal, in insertion order. *)
Fixpoint own_lookup {A : Type} (k : string) (ps : list (string * A)) : option A :=
  match ps with
  | [] => None
  | (k', v) :: rest => if String.eqb k k' then Some v else own_lookup k rest
  end.

Fixpoint own_store {A : Type} (k : string) (v : A) (ps : list (string * A))
  : list (string * A) :=
  match ps with
  | [] => [(k, v)]
  | (k', v') :: rest =>
      if String.eqb k k' then (k', v) :: rest else (k', v') :: own_store k v rest
  end.

(** The names every object inherits from [Object.prototype]. *)
Definition inherited_names : list string :=
  [ "constructor"; "__proto__"; "hasOwnProperty"; "isPrototypeOf";
    "propertyIsEnumerable"; "toLocaleString"; "toString"; "valueOf";
    "__defineGetter__"; "__defineSetter__"; "__lookupGetter__";
    "__lookupSetter__" ].

Definition inherited (k : string) : bool :=
  existsb (String.eqb k) inherited_names.

(** [v.k] for a property name [k] that no prototype defines (the handler only
    reads such names from request values): an object answers with its own
    property, an array or a primitive with [undefined]. *)
Definition get_prop (v : value) (k : string) : value :=
  match v with
  | Obj ps => match own_lookup k ps with Some x => x | None => Undefined end
  | _ => Undefined
  end.

(** [v?.k]. *)
Definition get_prop_opt (v : value) (k : string) : value :=
  if nullish v then Undefined else get_prop v k.

(** [Object.keys(v).length === 0] for a value with [typeof v === 'object']. *)
Definition no_keys (v : value) : bool :=
  match v with
  | Obj [] | Arr [] => true
  | _ => false
  end.

(** ** Exceptions, messages and the control flow of the route

    The handler body either goes on with a value, returns a response early
    ([return res.status(..).json(..)]) or throws; the [catch] block turns an
    exception into a response. *)

Inductive exn : Type :=
| TypeError (msg : string)
| ValidationError (msg : string) (errors : list (string * string))
| OtherError (msg : string).

(** A message is fixed text, or fixed text followed by an interpolated value
    ([`... Received: ${x}`]). *)
Inductive Message : Type :=
| Text (s : string)
| Received (prefix : string) (v : value).

Inductive outcome (R A : Type) : Type :=
| Next (a : A)
| Reply (r : R)
| Throw (e : exn).

Arguments Next {R A} a.
Arguments Reply {R A} r.
Arguments Throw {R A} e.

#[global] Instance outcome_bind {R : Type} : MBind (outcome R) :=
  fun A B (k : A -> outcome R B) (m : outcome R A) =>
    match m with
    | Next a => k a
    | Reply r => Reply r
    | Throw e => Throw e
    end.

(** [if (c) return r;] *)
Definition reject_if {R : Type} (c : bool) (r : R) : outcome R unit :=
  if c then Reply r else Next tt.

(** ** Built-in functions of the host *)

Record Builtins : Type := {
  (** [JSON.parse(s)]; [None] when it throws a [SyntaxError]. *)
  JSON_parse : string -> option value;
  (** [Number(s)] for a string [s]. *)
  StringToNumber : string -> number;
  (** [Number(o)] for an object or an array; [None] when the conversion to a
      primitive throws. *)
  ObjectToNumber : value -> option number;
  (** [s.trim()]. *)
  String_trim : string -> string;
  (** [Math.pow(b, e)]: the standard leaves its precision to the host. *)
  Math_pow : number -> number -> number;
  (** [a[k]] for an array [a]. *)
  Array_get : list value -> string -> value;
  (** [a[k] = v] for an array [a]: the array afterwards, [None] when the
      assignment throws a [RangeError]. *)
  Array_assign : list value -> string -> value -> option value;
  (** The message of the [TypeError] that [p[k] = v] throws in strict mode
      for a primitive [p]. *)
  primitive_assign_message : value -> string -> string
}.

(** ** Strings *)

(** [s.startsWith(p)]. *)
Fixpoint startsWith (p s : string) : bool :=
  match p, s with
  | EmptyString, _ => true
  | String a p', String b s' => Ascii.eqb a b && startsWith p' s'
  | String _ _, EmptyString => false
  end.

Fixpoint drop_chars (n : nat) (s : string) : string :=
  match n, s with
  | O, _ => s
  | S n', String _ s' => drop_chars n' s'
  | S _, EmptyString => EmptyString
  end.

(** [s.replace(p, r)] for string arguments: the first occurrence of [p]. *)
Fixpoint String_replace (p r s : string) : string :=
  if startsWith p s then r ++ drop_chars (String.length p) s
  else match s with
       | EmptyString => EmptyString
       | String c s' => String c (String_replace p r s')
       end.

(** [String(n)] for a natural number: its decimal digits. *)
Definition digit_char (d : nat) : ascii := ascii_of_nat (48 + d).

Fixpoint digits_fuel (fuel n : nat) (acc : string) : string :=
  match fuel with
  | O => acc
  | S fuel' =>
      let acc' := String (digit_char (n mod 10)) acc in
      if (n <? 10)%nat then acc' else digits_fuel fuel' (n / 10) acc'
  end.

Definition String_of_nat (n : nat) : string := digits_fuel (S n) n "".

Fixpoint repeat_char (c : ascii) (n : nat) : string :=
  match n with
  | O => EmptyString
  | S n' => String c (repeat_char c n')
  end.

(** [s.padStart(n, c)] for a one-character filler. *)
Definition padStart (n : nat) (c : ascii) (s : string) : string :=
  repeat_char c (n - String.length s) ++ s.

(** [xs.join(sep)] on strings. *)
Fixpoint join (sep : string) (xs : list string) : string :=
  match xs with
  | [] => ""
  | [x] => x
  | x :: rest => x ++ sep ++ join sep rest
  end.

(** ** Property order of [Object.keys]

    Own keys that are array indices come first, in ascending numeric order;
    the other keys follow in insertion order. *)

Definition digit_of (c : ascii) : option N :=
  let n := N_of_ascii c in
  if ((48 <=? n) && (n <=? 57))%N then Some (n - 48)%N else None.

Fixpoint digits_value (acc : N) (s : string) : option N :=
  match s with
  | EmptyString => Some acc
  | String c rest =>
      match digit_of c with
      | Some d => digits_value (10 * acc + d)%N rest
      | None => None
      end
  end.

(** The canonical decimal spelling of an integer below [2^32 - 1]. *)
Definition array_index (s : string) : option N :=
  match s with
  | EmptyString => None
  | String c rest =>
      if Ascii.eqb c "0" then (if String.eqb rest "" then Some 0%N else None)
      else match digits_value 0 s with
           | Some n => if (n <? 4294967295)%N then Some n else None
           | None => None
           end
  end.

Definition is_array_index (s : string) : bool :=
  match array_index s with Some _ => true | None => false end.

Fixpoint insert_by_index (e : N * string) (l : list (N * string))
  : list (N * string) :=
  match l with
  | [] => [e]
  | h :: t => if (fst e <? fst h)%N then e :: h :: t
              else h :: insert_by_index e t
  end.

Fixpoint index_entries (ks : list string) : list (N * string) :=
  match ks with
  | [] => []
  | k :: rest =>
      match array_index k with
      | Some n => (n, k) :: index_entries rest
      | None => index_entries rest
      end
  end.

Definition key_order (ks : list string) : list string :=
  map snd (fold_right insert_by_index [] (index_entries ks))
  ++ List.filter (fun k => negb (is_array_index k)) ks.

Definition Object_keys {A : Type} (ps : list (string * A)) : list string :=
  key_order (map fst ps).

(** ** Data model *)

Record File : Type := {
  fieldname : string;
  originalname : string;
  filename : string
}.

(** [files] and [dynamicFiles]: objects whose own properties are arrays of
    uploaded files. *)
Definition FileGroups : Type := list (string * list File).

Module Document.
Inductive Status : Type := Pending | Verified | Rejected.

Record t : Type := {
  type : string;
  name : string;
  url : string;
  status : Status
}.
End Document.

Module InterestRate.
(** [None] stands for an absent ([undefined] or [null]) bound; a stored
    rate is a finite number. *)
Record t : Type := {
  min : option Q;
  max : option Q;
  default : option Q
}.
End InterestRate.

Module Loan.
Record t : Type := {
  id : string;
  type : string;
  interestRate : option InterestRate.t
}.
End Loan.

Module LoanDetails.
Record t : Type := {
  loanAmount : number;
  loanTenure : number;
  interestRate : number;
  emi : number
}.
End LoanDetails.

Module EmploymentInfo.
Record t : Type := {
  employmentType : string;
  monthlyIncome : number;
  companyName : option string;
  designation : option string;
  workExperience : option number;
  businessType : option string;
  businessAge : option number
}.
End EmploymentInfo.

Inductive Status : Type :=
| Draft | Submitted | UnderReview | DocumentsPending | Approved | Rejected.

Definition is_Draft (s : Status) : bool :=
  match s with Draft => true | _ => false end.

Module Application.
Record t : Type := {
  userId : string;
  loanId : string;
  loanType : string;
  personalInfo : value;
  address : value;
  employmentInfo : EmploymentInfo.t;
  loanDetails : LoanDetails.t;
  documents : list Document.t;
  dynamicFields : value;
  status : Status;
  rejectionReason : option string;
  approvedAt : option nat;
  rejectedAt : option nat;
  approvedBy : option string;
  applicationNumber : option string
}.

(** [this.applicationNumber = n] *)
Definition with_applicationNumber (n : option string) (a : t) : t :=
  {| userId := userId a; loanId := loanId a; loanType := loanType a;
     personalInfo := personalInfo a; address := address a;
     employmentInfo := employmentInfo a; loanDetails := loanDetails a;
     documents := documents a; dynamicFields := dynamicFields a;
     status := status a; rejectionReason := rejectionReason a;
     approvedAt := approvedAt a; rejectedAt := rejectedAt a;
     approvedBy := approvedBy a; applicationNumber := n |}.

(** The assignments of the approve route (lines 438-440). *)
Definition approved (now : nat) (admin : string) (a : t) : t :=
  {| userId := userId a; loanId := loanId a; loanType := loanType a;
     personalInfo := personalInfo a; address := address a;
     employmentInfo := employmentInfo a; loanDetails := loanDetails a;
     documents := documents a; dynamicFields := dynamicFields a;
     status := Approved; rejectionReason := rejectionReason a;
     approvedAt := Some now; rejectedAt := rejectedAt a;
     approvedBy := Some admin; applicationNumber := applicationNumber a |}.

(** The assignments of the reject route (lines 497-499). *)
Definition rejected (now : nat) (reason : string) (a : t) : t :=
  {| userId := userId a; loanId := loanId a; loanType := loanType a;
     personalInfo := personalInfo a; address := address a;
     employmentInfo := employmentInfo a; loanDetails := loanDetails a;
     documents := documents a; dynamicFields := dynamicFields a;
     status := Rejected;
     rejectionReason :=
       Some (if String.eqb reason "" then
               "Application did not meet eligibility criteria"
             else reason);
     approvedAt := approvedAt a; rejectedAt := Some now;
     approvedBy := approvedBy a; applicationNumber := applicationNumber a |}.

(** [this.status = s] *)
Definition with_status (s : Status) (a : t) : t :=
  {| userId := userId a; loanId := loanId a; loanType := loanType a;
     personalInfo := personalInfo a; address := address a;
     employmentInfo := employmentInfo a; loanDetails := loanDetails a;
     documents := documents a; dynamicFields := dynamicFields a;
     status := s; rejectionReason := rejectionReason a;
     approvedAt := approvedAt a; rejectedAt := rejectedAt a;
     approvedBy := approvedBy a; applicationNumber := applicationNumber a |}.
End Application.

(** ** The [pre('save')] hook of the Application model *)

(** [!this.applicationNumber]: the number is absent or the empty string. *)
Definition no_number (n : option string) : bool :=
  match n with
  | None => true
  | Some s => String.eqb s ""
  end.

Definition format_number (count : nat) : string :=
  "APP" ++ padStart 6 "0" (String_of_nat (count + 1)).

(** [count] is the answer of [countDocuments()] at the time of the save. *)
Definition pre_save (count : nat) (this : Application.t) : Application.t :=
  if no_number (Application.applicationNumber this)
     && negb (is_Draft (Application.status this))
  then Application.with_applicationNumber (Some (format_number count)) this
  else this.

(** The life of one application document. The routes of approval and of
    rejection assign their fields and save. [PUT /:id] hands the body of the
    request to [findByIdAndUpdate] as it is (lines 398-402), so that an
    update can write any path of the document, the status and the
    application number among them, and runs no [pre('save')] hook: [change]
    is what the update makes of the document. *)
Inductive event : Type :=
| Approve (now : nat) (admin : string)
| Reject (now : nat) (reason : string)
| Update (change : Application.t -> Application.t)
| Save (count : nat).

Definition step (this : Application.t) (e : event) : Application.t :=
  match e with
  | Approve now admin => Application.approved now admin this
  | Reject now reason => Application.rejected now reason this
  | Update change => change this
  | Save count => pre_save count this
  end.

Definition history (events : list event) (this : Application.t) : Application.t :=
  fold_left step events this.

(** ** [sendEmail] *)

Record MailError : Type := {
  err_message : string;
  err_code : option string;
  err_command : option string;
  err_response : option string
}.

Record Mail : Type := {
  mail_from : option string;
  mail_to : value;
  mail_subject : string
}.

Inductive EmailResult : Type :=
| ConfigIncomplete (missing empty : list string) (gmailHint : option string)
| Sent (messageId : string)
| SendFailed (error : string) (code : option string)
             (suggestions : list string)
             (command response host port : option string).

Definition email_success (r : EmailResult) : bool :=
  match r with Sent _ => true | _ => false end.

Definition lower (c : ascii) : ascii :=
  let n := nat_of_ascii c in
  if ((65 <=? n) && (n <=? 90))%nat then ascii_of_nat (n + 32) else c.

Fixpoint lowercase (s : string) : string :=
  match s with
  | EmptyString => EmptyString
  | String c s' => String (lower c) (lowercase s')
  end.

Fixpoint contains (p s : string) : bool :=
  startsWith p s ||
  match s with
  | EmptyString => false
  | String _ s' => contains p s'
  end.

Fixpoint endsWith (p s : string) : bool :=
  String.eqb p s ||
  match s with
  | EmptyString => false
  | String _ s' => endsWith p s'
  end.

Definition classifyError (err : MailError) : list string :=
  (if bool_decide (err_code err = Some "EAUTH")
   then ["Invalid EMAIL_USER or EMAIL_PASS";
         "If Gmail: create 16-char App Password (account > Security)"]
   else [])
  ++ (if bool_decide (err_code err = Some "ECONNECTION")
      then ["Check EMAIL_HOST / EMAIL_PORT reachability";
            "Firewall or network block possible"]
      else [])
  ++ (if contains "self signed certificate" (lowercase (err_message err))
      then ["Provide a valid TLS cert or use a trusted SMTP host"] else [])
  ++ (if contains "etimedout" (lowercase (err_message err))
      then ["Port/security mismatch (try 587 STARTTLS or 465 secure)"] else []).

Definition required_vars : list string :=
  ["EMAIL_HOST"; "EMAIL_PORT"; "EMAIL_USER"; "EMAIL_PASS"].

Section SendEmail.
(** [process.env] and the outcome of [transporter.sendMail]. *)
Variable process_env : gmap string string.
Variable sendMail : Mail -> MailError + string.

(** [!process.env[k]] *)
Definition env_unset (k : string) : bool :=
  match process_env !! k with
  | None => true
  | Some s => String.eqb s ""
  end.

(** [process.env[k] === ''] *)
Definition env_empty (k : string) : bool :=
  match process_env !! k with
  | Some s => String.eqb s ""
  | None => false
  end.

(** [process.env.A || process.env.B] *)
Definition env_or (a b : string) : option string :=
  if env_unset a then process_env !! b else process_env !! a.

(** [ok], [missing], [empty] and [gmailHint]. *)
Definition preflight : bool * list string * list string * option string :=
  let missing := List.filter env_unset required_vars in
  let empty := List.filter env_empty required_vars in
  let host := default "" (process_env !! "EMAIL_HOST") in
  let pass := default "" (process_env !! "EMAIL_PASS") in
  let gmailHint :=
    if endsWith "gmail.com" (lowercase host) && (String.length pass <? 16)%nat
    then Some "Gmail requires a 16-char App Password (not your login password)."
    else None in
  (match missing, empty with [], [] => true | _, _ => false end,
   missing, empty, gmailHint).

(** The three ways out of [sendEmail]; an error of the transport is caught
    and reported in the result. *)
Definition sendEmail (to : value) (subject : string) : EmailResult :=
  let '(ok, missing, empty, gmailHint) := preflight in
  if negb ok then ConfigIncomplete missing empty gmailHint
  else
    match sendMail {| mail_from := env_or "EMAIL_FROM" "EMAIL_USER";
                      mail_to := to; mail_subject := subject |} with
    | inr messageId => Sent messageId
    | inl err =>
        SendFailed (err_message err) (err_code err) (classifyError err)
                   (err_command err) (err_response err)
                   (process_env !! "EMAIL_HOST") (process_env !! "EMAIL_PORT")
    end.
End SendEmail.

(** ** The request, the response and the collaborators *)

Record Request : Type := {
  user_id : string;
  (** [req.files]; [None] when it is not an array. *)
  req_files : option (list File);
  req_body : gmap string value
}.

Record Response : Type := {
  status_code : nat;
  success : bool;
  message : Message;
  data : option Application.t
}.

Definition failure (code : nat) (m : Message) : Response :=
  {| status_code := code; success := false; message := m; data := None |}.

(** One request sees one state of its collaborators. A store that cannot be
    reached is not part of the model: a lookup answers. *)
Record World : Type := {
  (** [mongoose.Types.ObjectId.isValid(v)] *)
  ObjectId_isValid : value -> bool;
  (** [Loan.findById(v)]; [None] for [null]. *)
  Loan_findById : value -> option Loan.t;
  (** [Application.countDocuments()] *)
  countDocuments : nat;
  (** What the store answers to [Application.create]: [Some e] when schema
      validation or the insertion throws [e]. *)
  create_throws : Application.t -> option exn;
  (** [process.env] *)
  process_env : gmap string string;
  (** What [transporter.sendMail] does with a mail: it throws an error or
      answers with a message id. *)
  sendMail : Mail -> MailError + string
}.

(** ** Grouping the uploaded files (lines 17-37) *)

(** The steps of the handler. *)
Definition flow : Type -> Type := outcome Response.

(** [if (!m[k]) m[k] = []; m[k].push(file)] on an object literal [m]: a name
    inherited from [Object.prototype] is truthy and has no [push]. *)
Definition push_file (expr : string) (m : FileGroups) (k : string) (file : File)
  : flow FileGroups :=
  match own_lookup k m with
  | Some arr => Next (own_store k (arr ++ [file]) m)
  | None =>
      if inherited k then Throw (TypeError (expr ++ ".push is not a function"))
      else Next (own_store k [file] m)
  end.

Definition group_file (acc : FileGroups * FileGroups) (file : File)
  : flow (FileGroups * FileGroups) :=
  let '(files, dynamicFiles) := acc in
  if startsWith "dynamicFiles_" (fieldname file) then
    let fieldName := String_replace "dynamicFiles_" "" (fieldname file) in
    dynamicFiles' ← push_file "dynamicFiles[fieldName]" dynamicFiles fieldName file;
    Next (files, dynamicFiles')
  else
    files' ← push_file "files[file.fieldname]" files (fieldname file) file;
    Next (files', dynamicFiles).

Fixpoint group_files (batch : list File) (acc : FileGroups * FileGroups)
  : flow (FileGroups * FileGroups) :=
  match batch with
  | [] => Next acc
  | file :: rest => acc' ← group_file acc file; group_files rest acc'
  end.

Definition organize (fs : option (list File)) : flow (FileGroups * FileGroups) :=
  match fs with
  | Some batch => group_files batch ([], [])
  | None => Next ([], [])
  end.

(** ** Parsing the JSON-encoded fields (lines 41-46) *)

Definition json_fields : list string :=
  ["personalInfo"; "address"; "employmentInfo"; "loanDetails"; "dynamicFields"].

Definition parse_field (js : Builtins) (applicationData : gmap string value)
    (f : string) : gmap string value :=
  match applicationData !! f with
  | Some (Str s) =>
      match JSON_parse js s with
      | Some v => <[f := v]> applicationData
      | None => applicationData
      end
  | _ => applicationData
  end.

Definition parse_fields (js : Builtins) (body : gmap string value)
  : gmap string value :=
  fold_left (parse_field js) json_fields body.

(** [applicationData.k] *)
Definition field (applicationData : gmap string value) (k : string) : value :=
  default Undefined (applicationData !! k).

(** ** Numbers of the loan terms (lines 98-143) *)

(** [Number(v)] *)
Definition ToNumber (js : Builtins) (v : value) : flow number :=
  match v with
  | Undefined => Next NaN
  | Null => Next (Finite 0)
  | Bool b => Next (Finite (if b then 1 else 0))
  | Num n => Next n
  | Str s => Next (StringToNumber js s)
  | Obj _ | Arr _ =>
      match ObjectToNumber js v with
      | Some n => Next n
      | None => Throw (TypeError "Cannot convert object to primitive value")
      end
  end.

(** [raw === undefined || raw === null || raw === ''] *)
Definition not_provided (raw : value) : bool :=
  match raw with
  | Undefined | Null => true
  | Str s => String.eqb s ""
  | _ => false
  end.

(** *** Double precision

    [x * y], [x / y], [x + y] and [x - y] on numbers are the exact result
    rounded to the nearest double. *)

(** The integer nearest to [n / d] for [0 <= n] and [0 < d], the even one at
    a tie. *)
Definition nearest_even (n d : Z) : Z :=
  let q := (n / d)%Z in
  match (2 * (n mod d) ?= d)%Z with
  | Lt => q
  | Gt => (q + 1)%Z
  | Eq => if Z.even q then q else (q + 1)%Z
  end.

(** [floor (log2 (a / d))] for positive [a] and [d]. *)
Definition log2_ratio (a d : Z) : Z :=
  let k := (Z.log2 a - Z.log2 d)%Z in
  if (d * 2 ^ Z.max 0 k <=? a * 2 ^ Z.max 0 (- k))%Z then k else (k - 1)%Z.

(** The double nearest to the rational [x]. With [e] the exponent of the
    last bit of the 53 bits of [x], not below that of the subnormal numbers,
    the result is [m * 2^e] for the integer [m] nearest to [|x| / 2^e]; from
    [2^1024] on it is an infinity. *)
Definition round_double (x : Q) : number :=
  let n := Qnum x in
  let d := Zpos (Qden x) in
  if (n =? 0)%Z then Finite 0
  else
    let a := Z.abs n in
    let e := Z.max (log2_ratio a d - 52) (-1074) in
    if (0 <=? e)%Z then
      let m := nearest_even a (d * 2 ^ e) in
      if (2 ^ 1024 <=? m * 2 ^ e)%Z then Infinity (n <? 0)%Z
      else Finite (inject_Z (Z.sgn n * (m * 2 ^ e)))
    else
      let m := nearest_even (a * 2 ^ (- e)) d in
      Finite (Qred (Z.sgn n * m # Z.to_pos (2 ^ (- e)))).

#[local] Arguments round_double : simpl never.

Definition is_zero (n : number) : bool :=
  match n with
  | Finite q => Qeq_bool q 0
  | _ => false
  end.

(** The sign bit of a number that is not a zero. *)
Definition is_negative (n : number) : bool :=
  match n with
  | NaN => false
  | Infinity negative => negative
  | Finite q => negb (Qle_bool 0 q)
  end.

(** [a * b] *)
Definition js_mul (a b : number) : number :=
  match a, b with
  | NaN, _ | _, NaN => NaN
  | Finite x, Finite y => round_double (x * y)
  | _, _ =>
      if is_zero a || is_zero b then NaN
      else Infinity (xorb (is_negative a) (is_negative b))
  end.

(** [a / b]; a zero divisor here is the positive zero. *)
Definition js_div (a b : number) : number :=
  match a, b with
  | NaN, _ | _, NaN => NaN
  | Infinity _, Infinity _ => NaN
  | Infinity negative, Finite _ => Infinity (xorb negative (is_negative b))
  | Finite _, Infinity _ => Finite 0
  | Finite x, Finite y =>
      if Qeq_bool y 0 then (if Qeq_bool x 0 then NaN else Infinity (is_negative a))
      else round_double (x / y)
  end.

(** [a + b] and [a - b] *)
Definition js_add (a b : number) : number :=
  match a, b with
  | NaN, _ | _, NaN => NaN
  | Infinity negative, Infinity negative' =>
      if Bool.eqb negative negative' then a else NaN
  | Infinity _, Finite _ => a
  | Finite _, Infinity _ => b
  | Finite x, Finite y => round_double (x + y)
  end.

Definition js_sub (a b : number) : number :=
  match a, b with
  | NaN, _ | _, NaN => NaN
  | Infinity negative, Infinity negative' =>
      if Bool.eqb negative negative' then NaN else a
  | Infinity _, Finite _ => a
  | Finite _, Infinity negative => Infinity (negb negative)
  | Finite x, Finite y => round_double (x - y)
  end.

(** [Math.round]: to the nearest integer, halves upwards. *)
Definition Math_round (n : number) : number :=
  match n with
  | Finite q => Finite (inject_Z (Qfloor (q + (1 # 2))%Q))
  | _ => n
  end.

(** [a ?? b] where [None] stands for [undefined] or [null]. *)
Definition coalesce {A : Type} (a b : option A) : option A :=
  match a with
  | Some _ => a
  | None => b
  end.

(** [loan.interestRate?.default ?? loan.interestRate?.min ?? 0] *)
Definition resolve_rate (loan : Loan.t) : Q :=
  default 0%Q
    (coalesce
       (coalesce (r ← Loan.interestRate loan; InterestRate.default r)
                 (r ← Loan.interestRate loan; InterestRate.min r))
       (Some 0%Q)).

(** Lines 137-143: [monthlyRate = annualRate / 100 / 12] and the
    instalment, each operation in double precision. *)
Definition compute_emi (js : Builtins) (loanAmount loanTenure : number)
    (annualRate : Q) : number :=
  let monthlyRate := js_div (js_div (Finite annualRate) (Finite 100)) (Finite 12) in
  if gt_zero monthlyRate then
    Math_round
      (js_div
         (js_mul (js_mul loanAmount monthlyRate)
                 (Math_pow js (js_add (Finite 1) monthlyRate) loanTenure))
         (js_sub (Math_pow js (js_add (Finite 1) monthlyRate) loanTenure)
                 (Finite 1)))
  else Finite 0.

(** ** The documents (lines 145-195) *)

Definition upload_url (file : File) : string := "/uploads/" ++ filename file.

Definition document (type : string) (file : File) : Document.t :=
  {| Document.type := type;
     Document.name := originalname file;
     Document.url := upload_url file;
     Document.status := Document.Pending |}.

(** [pushGroup(arr, type)], [arr] being [undefined] or an array. *)
Definition pushGroup (documents : list Document.t) (arr : option (list File))
    (type : string) : list Document.t :=
  documents ++ map (document type) (default [] arr).

Definition static_documents (files : FileGroups) : list Document.t :=
  let documents := [] in
  let documents := pushGroup documents (own_lookup "idProof" files) "ID" in
  let documents := pushGroup documents (own_lookup "addressProof" files) "Address" in
  let documents := pushGroup documents (own_lookup "incomeProof" files) "Income" in
  let documents :=
    pushGroup documents (own_lookup "bankStatement" files) "Bank Statement" in
  let documents := pushGroup documents (own_lookup "otherDocuments" files) "Other" in
  match own_lookup "selfie" files with
  | Some (selfieFile :: _) => documents ++ [document "Selfie" selfieFile]
  | _ => documents
  end.

(** [{ name: f.originalname, url: `/uploads/${f.filename}` }] *)
Definition file_ref (f : File) : value :=
  Obj [("name", Str (originalname f)); ("url", Str (upload_url f))].

(** [c[k]] for a truthy container [c]; for a primitive the value is not
    needed, the assignment that follows throws. *)
Definition read (js : Builtins) (c : value) (k : string) : value :=
  match c with
  | Obj ps =>
      match own_lookup k ps with
      | Some v => v
      | None => if inherited k then Obj [] else Undefined
      end
  | Arr es => Array_get js es k
  | _ => Undefined
  end.

(** [c[k] = v] in strict mode. Assigning [__proto__] changes the prototype
    and leaves the own properties as they are. *)
Definition assign (js : Builtins) (c : value) (k : string) (v : value)
  : flow value :=
  match c with
  | Obj ps =>
      Next (if String.eqb k "__proto__" then Obj ps else Obj (own_store k v ps))
  | Arr es =>
      match Array_assign js es k v with
      | Some c' => Next c'
      | None => Throw (OtherError "Invalid array length")
      end
  | _ => Throw (TypeError (primitive_assign_message js c k))
  end.

Definition dynamic_group (js : Builtins) (dynamicFiles : FileGroups)
    (acc : list Document.t * value) (fieldName : string)
  : flow (list Document.t * value) :=
  let '(documents, dynamicFields) := acc in
  let fieldFiles := default [] (own_lookup fieldName dynamicFiles) in
  let documents :=
    documents ++ map (document ("Dynamic: " ++ fieldName)) fieldFiles in
  dynamicFields ←
    (if negb (truthy (read js dynamicFields fieldName))
     then assign js dynamicFields fieldName (Arr [])
     else Next dynamicFields);
  dynamicFields ← assign js dynamicFields fieldName (Arr (map file_ref fieldFiles));
  Next (documents, dynamicFields).

Fixpoint dynamic_groups (js : Builtins) (dynamicFiles : FileGroups)
    (keys : list string) (acc : list Document.t * value)
  : flow (list Document.t * value) :=
  match keys with
  | [] => Next acc
  | fieldName :: rest =>
      acc' ← dynamic_group js dynamicFiles acc fieldName;
      dynamic_groups js dynamicFiles rest acc'
  end.

Definition assemble_documents (js : Builtins) (files dynamicFiles : FileGroups)
    (applicationData : gmap string value) : flow (list Document.t * value) :=
  let documents := static_documents files in
  let dynamicFields := js_or (field applicationData "dynamicFields") (Obj []) in
  dynamic_groups js dynamicFiles (Object_keys dynamicFiles)
                 (documents, dynamicFields).

(** ** Validation of the loan reference and the loan terms (lines 53-134) *)

Definition check_terms (js : Builtins) (w : World)
    (applicationData : gmap string value) : flow (Loan.t * number * number) :=
  let loanId :=
    js_or (field applicationData "loanId") (field applicationData "loanProductId") in
  _ ← reject_if (negb (truthy loanId) || negb (ObjectId_isValid w loanId))
        (failure 400 (Text "Valid loanId required"));
  loan ← match Loan_findById w loanId with
          | Some loan => Next loan
          | None => Reply (failure 404 (Text "Loan not found"))
          end;
  let ld := js_or (field applicationData "loanDetails") (Obj []) in
  _ ← reject_if (negb (truthy ld) || negb (typeof_object ld) || no_keys ld)
        (failure 400
           (Text "Loan details are required. Please provide loan amount and tenure."));
  let loanAmountRaw := js_coalesce (get_prop ld "loanAmount") (get_prop ld "principal") in
  let loanTenureRaw :=
    js_coalesce (get_prop ld "loanTenure") (get_prop ld "tenureMonths") in
  _ ← reject_if (not_provided loanAmountRaw)
        (failure 400
           (Text "Loan amount is required. Please enter a valid loan amount."));
  _ ← reject_if (not_provided loanTenureRaw)
        (failure 400
           (Text "Loan tenure is required. Please enter a valid loan tenure in months."));
  loanAmount ← ToNumber js loanAmountRaw;
  loanTenure ← ToNumber js loanTenureRaw;
  _ ← reject_if (isNaN loanAmount || negb (Number_isFinite loanAmount))
        (failure 400
           (Received "Loan amount must be a valid number. Received: " loanAmountRaw));
  _ ← reject_if (isNaN loanTenure || negb (Number_isFinite loanTenure))
        (failure 400
           (Received "Loan tenure must be a valid number. Received: " loanTenureRaw));
  _ ← reject_if (le_zero loanAmount)
        (failure 400
           (Received "Loan amount must be greater than 0. Received: " (Num loanAmount)));
  _ ← reject_if (le_zero loanTenure)
        (failure 400
           (Received "Loan tenure must be greater than 0 months. Received: "
                     (Num loanTenure)));
  Next (loan, loanAmount, loanTenure).

(** ** Validation of the employment information (lines 197-226) *)

(** [v?.trim() || undefined] *)
Definition trimmed (js : Builtins) (expr : string) (v : value)
  : flow (option string) :=
  match v with
  | Undefined | Null => Next None
  | Str s =>
      let t := String_trim js s in
      Next (if String.eqb t "" then None else Some t)
  | _ => Throw (TypeError (expr ++ ".trim is not a function"))
  end.

(** [v ? Number(v) : undefined] *)
Definition number_if_given (js : Builtins) (v : value) : flow (option number) :=
  if truthy v then n ← ToNumber js v; Next (Some n) else Next None.

Definition employment_required : Response :=
  failure 400
    (Text "Employment type is required. Please select your employment type.").

Definition income_required : Response :=
  failure 400
    (Text "Monthly income is required and must be a valid positive number.").

Definition check_employment (js : Builtins) (applicationData : gmap string value)
  : flow EmploymentInfo.t :=
  let employmentInfo := js_or (field applicationData "employmentInfo") (Obj []) in
  let employmentType := get_prop employmentInfo "employmentType" in
  _ ← reject_if (negb (truthy employmentType)) employment_required;
  employmentType ←
    match employmentType with
    | Str s => Next (String_trim js s)
    | _ => Throw (TypeError "employmentInfo.employmentType.trim is not a function")
    end;
  _ ← reject_if (String.eqb employmentType "") employment_required;
  monthlyIncome ← ToNumber js (get_prop employmentInfo "monthlyIncome");
  _ ← reject_if (negb (truthy_number monthlyIncome) || isNaN monthlyIncome
                  || le_zero monthlyIncome)
        income_required;
  companyName ←
    trimmed js "employmentInfo.companyName" (get_prop employmentInfo "companyName");
  designation ←
    trimmed js "employmentInfo.designation" (get_prop employmentInfo "designation");
  workExperience ← number_if_given js (get_prop employmentInfo "workExperience");
  businessType ←
    trimmed js "employmentInfo.businessType" (get_prop employmentInfo "businessType");
  businessAge ← number_if_given js (get_prop employmentInfo "businessAge");
  Next {| EmploymentInfo.employmentType := employmentType;
          EmploymentInfo.monthlyIncome := monthlyIncome;
          EmploymentInfo.companyName := companyName;
          EmploymentInfo.designation := designation;
          EmploymentInfo.workExperience := workExperience;
          EmploymentInfo.businessType := businessType;
          EmploymentInfo.businessAge := businessAge |}.

(** ** Creation, confirmation mail and the responses (lines 228-304) *)

(** [Application.create(doc)]: the store validates and inserts; the
    [pre('save')] hook runs on the way. *)
Definition Application_create (w : World) (doc : Application.t)
  : flow Application.t :=
  match create_throws w doc with
  | Some e => Throw e
  | None => Next (pre_save (countDocuments w) doc)
  end.

Definition intake (js : Builtins) (w : World) (req : Request)
  : flow (Application.t * EmailResult) :=
  '(files, dynamicFiles) ← organize (req_files req);
  let applicationData := parse_fields js (req_body req) in
  '(loan, loanAmount, loanTenure) ← check_terms js w applicationData;
  let annualRate := resolve_rate loan in
  let emi := compute_emi js loanAmount loanTenure annualRate in
  '(documents, dynamicFields) ←
    assemble_documents js files dynamicFiles applicationData;
  finalEmploymentInfo ← check_employment js applicationData;
  application ←
    Application_create w
      {| Application.userId := user_id req;
         Application.loanId := Loan.id loan;
         Application.loanType := Loan.type loan;
         Application.personalInfo := field applicationData "personalInfo";
         Application.address := field applicationData "address";
         Application.employmentInfo := finalEmploymentInfo;
         Application.loanDetails :=
           {| LoanDetails.loanAmount := loanAmount;
              LoanDetails.loanTenure := loanTenure;
              LoanDetails.interestRate := Finite annualRate;
              LoanDetails.emi := emi |};
         Application.documents := documents;
         Application.dynamicFields := dynamicFields;
         Application.status := Submitted;
         Application.rejectionReason := None;
         Application.approvedAt := None;
         Application.rejectedAt := None;
         Application.approvedBy := None;
         Application.applicationNumber := None |};
  let sent :=
    sendEmail (process_env w) (sendMail w)
      (get_prop_opt (field applicationData "personalInfo") "email")
      "Loan Application Submitted" in
  Next (application, sent).

Definition created (application : Application.t) : Response :=
  {| status_code := 201; success := true;
     message := Text "Application submitted successfully";
     data := Some application |}.

(** The [catch] block. *)
Definition on_error (error : exn) : Response :=
  match error with
  | ValidationError _ errors =>
      match own_lookup "loanDetails.loanAmount" errors with
      | Some m => failure 400 (Text ("Loan amount validation failed: " ++ m))
      | None =>
          let errorMessages :=
            join ", " (map (fun key => default "" (own_lookup key errors))
                           (Object_keys errors)) in
          failure 400 (Text ("Validation failed: " ++ errorMessages))
      end
  | TypeError m | OtherError m =>
      failure 500 (Text (if String.eqb m "" then "Server error" else m))
  end.

(** What one request does: the response, and the result of [sendEmail] when
    the handler called it. *)
Definition submit (js : Builtins) (w : World) (req : Request)
  : Response * option EmailResult :=
  match intake js w req with
  | Next (application, sent) => (created application, Some sent)
  | Reply r => (r, None)
  | Throw error => (on_error error, None)
  end.

(** ** A host and collaborators for the examples

    The examples below run the handler on concrete requests. Their host
    agrees with the real built-ins on the strings the examples use. *)

Definition is_space (c : ascii) : bool :=
  let n := nat_of_ascii c in
  ((n =? 32) || (n =? 9) || (n =? 10) || (n =? 11) || (n =? 12) || (n =? 13))%nat.

Fixpoint trim_left (s : string) : string :=
  match s with
  | String c s' => if is_space c then trim_left s' else s
  | EmptyString => EmptyString
  end.

Fixpoint trim_right (s : string) : string :=
  match s with
  | EmptyString => EmptyString
  | String c s' =>
      match trim_right s' with
      | EmptyString => if is_space c then EmptyString else String c EmptyString
      | t => String c t
      end
  end.

Definition example_trim (s : string) : string := trim_right (trim_left s).

(** Decimal digits are a number, the empty string is zero, other strings
    are [NaN]. *)
Definition example_number (s : string) : number :=
  match digits_value 0 s with
  | Some n => Finite (inject_Z (Z.of_N n))
  | None => NaN
  end.

Definition example_parse (s : string) : option value :=
  if String.eqb s "{}" then Some (Obj [])
  else if String.eqb s "null" then Some Null
  else if String.eqb s "[]" then Some (Arr [])
  else None.

Definition is_integer (q : Q) : bool :=
  (Qnum q mod Zpos (Qden q) =? 0)%Z.

(** The power of a finite base to a whole exponent, rounded once; the
    examples raise to the powers 1, 2 and 12. *)
Definition example_pow (b e : number) : number :=
  match b, e with
  | Finite b, Finite e =>
      if is_integer e then round_double (Qpower b (Qnum e / Zpos (Qden e)))
      else NaN
  | _, _ => NaN
  end.

Definition example_host : Builtins :=
  {| JSON_parse := example_parse;
     StringToNumber := example_number;
     ObjectToNumber := fun _ => Some NaN;
     String_trim := example_trim;
     Math_pow := example_pow;
     Array_get := fun _ _ => Undefined;
     Array_assign := fun es _ _ => Some (Arr es);
     primitive_assign_message :=
       fun _ k => ("Cannot create property '" ++ k ++ "'")%string |}.

Definition example_loan : Loan.t :=
  {| Loan.id := "65f0c0ffee0000000000a001";
     Loan.type := "Personal";
     Loan.interestRate :=
       Some {| InterestRate.min := Some 10%Q;
               InterestRate.max := Some 18%Q;
               InterestRate.default := Some 12%Q |} |}.

Definition example_env : gmap string string :=
  <["EMAIL_HOST" := "smtp.example.org"]>
  (<["EMAIL_PORT" := "587"]>
  (<["EMAIL_USER" := "noreply@example.org"]>
  (<["EMAIL_PASS" := "secret"]> ∅))).

(** A store with 41 applications that knows [example_loan]; [mail] is what
    the transport answers. *)
Definition example_world (mail : MailError + string) : World :=
  {| ObjectId_isValid :=
       fun v => match v with
                | Str s => (String.length s =? 24)%nat
                | _ => false
                end;
     Loan_findById :=
       fun v => match v with
                | Str s => if String.eqb s (Loan.id example_loan)
                           then Some example_loan else None
                | _ => None
                end;
     countDocuments := 41;
     create_throws := fun _ => None;
     process_env := example_env;
     sendMail := fun _ => mail |}.

Definition delivered : MailError + string := inr "<1@example.org>".

Definition refused : MailError + string :=
  inl {| err_message := "Invalid login"; err_code := Some "EAUTH";
         err_command := Some "AUTH PLAIN"; err_response := None |}.

Definition example_body (loanDetails employmentInfo : value)
  : gmap string value :=
  <["loanId" := Str (Loan.id example_loan)]>
  (<["personalInfo" :=
       Obj [("fullName", Str "A. Borrower"); ("email", Str "a@example.org");
            ("phone", Str "5550100")]]>
  (<["loanDetails" := loanDetails]>
  (<["employmentInfo" := employmentInfo]> ∅))).

Definition salaried : value :=
  Obj [("employmentType", Str "Salaried"); ("monthlyIncome", Num (Finite 50000))].

Definition example_request (files : list File) (loanDetails employmentInfo : value)
  : Request :=
  {| user_id := "u1"; req_files := Some files;
     req_body := example_body loanDetails employmentInfo |}.

Definition twelve_months : value :=
  Obj [("principal", Num (Finite 100000)); ("tenureMonths", Num (Finite 12))].

(** A draft without a number, and a life in which it is saved as a draft,
    submitted, saved, approved and saved again. *)
Definition example_draft : Application.t :=
  {| Application.userId := "u1";
     Application.loanId := Loan.id example_loan;
     Application.loanType := Loan.type example_loan;
     Application.personalInfo := Undefined;
     Application.address := Undefined;
     Application.employmentInfo :=
       {| EmploymentInfo.employmentType := "Salaried";
          EmploymentInfo.monthlyIncome := Finite 50000;
          EmploymentInfo.companyName := None;
          EmploymentInfo.designation := None;
          EmploymentInfo.workExperience := None;
          EmploymentInfo.businessType := None;
          EmploymentInfo.businessAge := None |};
     Application.loanDetails :=
       {| LoanDetails.loanAmount := Finite 100000;
          LoanDetails.loanTenure := Finite 12;
          LoanDetails.interestRate := Finite 12;
          LoanDetails.emi := Finite 8885 |};
     Application.documents := [];
     Application.dynamicFields := Obj [];
     Application.status := Draft;
     Application.rejectionReason := None;
     Application.approvedAt := None;
     Application.rejectedAt := None;
     Application.approvedBy := None;
     Application.applicationNumber := None |}.

Definition example_life : list event :=
  [Save 3; Update (Application.with_status Submitted); Save 4;
   Approve 20 "admin1"; Save 9].

(** A life in which an admin empties the number of a submitted application
    with the body [{ applicationNumber: '' }] and approves it afterwards. *)
Definition example_reset : list event :=
  [Save 3; Update (Application.with_applicationNumber (Some ""));
   Approve 20 "admin1"; Save 41].

(** An uploaded file: its field, its original name, its stored name. *)
Definition upload (field original stored : string) : File :=
  {| fieldname := field; originalname := original; filename := stored |}.

(** A batch with two selfies and three dynamic groups, the group [2] ahead
    of the group [1]. *)
Definition example_files : list File :=
  [ upload "dynamicFiles_2" "lease.pdf" "1700-lease.pdf";
    upload "selfie" "me.jpg" "1701-me.jpg";
    upload "dynamicFiles_salarySlip" "march.pdf" "1702-march.pdf";
    upload "idProof" "passport.png" "1703-passport.png";
    upload "selfie" "me-again.jpg" "1704-me-again.jpg";
    upload "dynamicFiles_1" "bill.pdf" "1705-bill.pdf";
    upload "dynamicFiles_salarySlip" "april.pdf" "1706-april.pdf" ].

(** Loan details with the amount -5 and the tenure [abc]. *)
Definition minus_five_for_abc : value :=
  Obj [("loanAmount", Num (Finite (-5 # 1))); ("loanTenure", Str "abc")].

(** The same collaborators with another mail configuration and another
    answer of the transport. *)
Definition with_mail (env : gmap string string) (mail : Mail -> MailError + string)
    (w : World) : World :=
  {| ObjectId_isValid := ObjectId_isValid w;
     Loan_findById := Loan_findById w;
     countDocuments := countDocuments w;
     create_throws := create_throws w;
     process_env := env;
     sendMail := mail |}.

(** A selfie and a file under the field name [toString]. *)
Definition selfie_and_toString : list File :=
  [ upload "selfie" "me.jpg" "1701-me.jpg";
    upload "toString" "notes.txt" "1708-notes.txt" ].

(** A file for the dynamic field named [constructor]. *)
Definition constructor_file : File :=
  upload "dynamicFiles_constructor" "deed.pdf" "1707-deed.pdf".

(** ** Statements the handler is compared with *)

(** *** The instalment *)

(** The formula of the claim in exact arithmetic, for a whole number of
    months: [P r (1+r)^n / ((1+r)^n - 1)]. *)
Definition amortized (P r : Q) (n : Z) : Q :=
  (P * r * (1 + r) ^ n / ((1 + r) ^ n - 1))%Q.

(** The integer nearest to [x], the upper one at a tie. *)
Definition round_nearest (x : Q) : Z := Qfloor (x + (1 # 2))%Q.

Definition monthly_rate (R : Q) : Q := (R / 100 / 12)%Q.

(** The same in double precision, operation by operation: the monthly rate
    [R / 100 / 12], and [((P r) (1+r)^n) / ((1+r)^n - 1)] from left to right
    with the power that [power] gives, for a tenure [n] that is whole or
    not. *)
Definition monthly_rate_double (R : Q) : number :=
  js_div (js_div (Finite R) (Finite 100)) (Finite 12).

(** The monthly rate as the Loan model computes it: [R / 12 / 100]. *)
Definition product_rate_double (R : Q) : number :=
  js_div (js_div (Finite R) (Finite 12)) (Finite 100).

Definition amortized_double (power : number -> number -> number)
    (P r n : number) : number :=
  js_div (js_mul (js_mul P r) (power (js_add (Finite 1) r) n))
         (js_sub (power (js_add (Finite 1) r) n) (Finite 1)).

(** A loan of 10050 over 2 months. *)
Definition two_months : value :=
  Obj [("principal", Num (Finite 10050)); ("tenureMonths", Num (Finite 2))].

(** *** The rate of a product *)

Definition product_rate (loan : Loan.t) : Q :=
  match Loan.interestRate loan with
  | Some band =>
      match InterestRate.default band, InterestRate.min band with
      | Some d, _ => d
      | None, Some m => m
      | None, None => 0%Q
      end
  | None => 0%Q
  end.

(** [min <= default <= max] for a product that has the three of them. *)
Definition band_ordered (loan : Loan.t) : Prop :=
  match Loan.interestRate loan with
  | Some {| InterestRate.min := Some lo; InterestRate.max := Some hi;
            InterestRate.default := Some d |} => (lo <= d /\ d <= hi)%Q
  | _ => False
  end.

Definition within_band (loan : Loan.t) (R : Q) : Prop :=
  match Loan.interestRate loan with
  | Some {| InterestRate.min := Some lo; InterestRate.max := Some hi |} =>
      (lo <= R /\ R <= hi)%Q
  | _ => False
  end.

(** *** The application number *)

(** The count that the first save out of [Draft] sees, if there is one. *)
Fixpoint first_save_out_of_draft (this : Application.t) (events : list event)
  : option nat :=
  match events with
  | [] => None
  | Approve now admin :: rest =>
      first_save_out_of_draft (Application.approved now admin this) rest
  | Reject now reason :: rest =>
      first_save_out_of_draft (Application.rejected now reason this) rest
  | Update change :: rest => first_save_out_of_draft (change this) rest
  | Save count :: rest =>
      if is_Draft (Application.status this)
      then first_save_out_of_draft this rest else Some count
  end.

(** An event that does not write the application number: every event but
    an update whose body has the path [applicationNumber]. *)
Definition keeps_number (e : event) : Prop :=
  match e with
  | Update change =>
      forall a : Application.t,
        Application.applicationNumber (change a) = Application.applicationNumber a
  | _ => True
  end.

(** *** The checks of the validator *)

Definition loan_reference (data : gmap string value) : value :=
  js_or (field data "loanId") (field data "loanProductId").

Definition loan_details (data : gmap string value) : value :=
  js_or (field data "loanDetails") (Obj []).

Definition amount_raw (data : gmap string value) : value :=
  js_coalesce (get_prop (loan_details data) "loanAmount")
              (get_prop (loan_details data) "principal").

Definition tenure_raw (data : gmap string value) : value :=
  js_coalesce (get_prop (loan_details data) "loanTenure")
              (get_prop (loan_details data) "tenureMonths").

Definition employment (data : gmap string value) : value :=
  js_or (field data "employmentInfo") (Obj []).

(** [Number(v)], [NaN] standing in when the conversion throws. *)
Definition number_of (js : Builtins) (v : value) : number :=
  match ToNumber js v with
  | Next n => n
  | _ => NaN
  end.

(** The checks in the order of the code. *)
Inductive check : Type :=
| LoanIdValid | LoanFound | DetailsGiven
| AmountGiven | TenureGiven
| AmountNumeric | TenureNumeric
| AmountPositive | TenurePositive
| EmploymentTypeGiven | IncomePositive.

Definition code_order : list check :=
  [ LoanIdValid; LoanFound; DetailsGiven; AmountGiven; TenureGiven;
    AmountNumeric; TenureNumeric; AmountPositive; TenurePositive;
    EmploymentTypeGiven; IncomePositive ].

Definition violates (js : Builtins) (w : World) (data : gmap string value)
    (c : check) : bool :=
  match c with
  | LoanIdValid =>
      negb (truthy (loan_reference data))
      || negb (ObjectId_isValid w (loan_reference data))
  | LoanFound =>
      match Loan_findById w (loan_reference data) with
      | Some _ => false
      | None => true
      end
  | DetailsGiven =>
      negb (typeof_object (loan_details data)) || no_keys (loan_details data)
  | AmountGiven => not_provided (amount_raw data)
  | TenureGiven => not_provided (tenure_raw data)
  | AmountNumeric =>
      isNaN (number_of js (amount_raw data))
      || negb (Number_isFinite (number_of js (amount_raw data)))
  | TenureNumeric =>
      isNaN (number_of js (tenure_raw data))
      || negb (Number_isFinite (number_of js (tenure_raw data)))
  | AmountPositive => le_zero (number_of js (amount_raw data))
  | TenurePositive => le_zero (number_of js (tenure_raw data))
  | EmploymentTypeGiven =>
      negb (truthy (get_prop (employment data) "employmentType"))
      || match get_prop (employment data) "employmentType" with
         | Str s => String.eqb (String_trim js s) ""
         | _ => false
         end
  | IncomePositive =>
      negb (gt_zero (number_of js (get_prop (employment data) "monthlyIncome")))
  end.

Definition answer (js : Builtins) (data : gmap string value) (c : check)
  : Response :=
  match c with
  | LoanIdValid => failure 400 (Text "Valid loanId required")
  | LoanFound => failure 404 (Text "Loan not found")
  | DetailsGiven =>
      failure 400
        (Text "Loan details are required. Please provide loan amount and tenure.")
  | AmountGiven =>
      failure 400 (Text "Loan amount is required. Please enter a valid loan amount.")
  | TenureGiven =>
      failure 400
        (Text "Loan tenure is required. Please enter a valid loan tenure in months.")
  | AmountNumeric =>
      failure 400
        (Received "Loan amount must be a valid number. Received: " (amount_raw data))
  | TenureNumeric =>
      failure 400
        (Received "Loan tenure must be a valid number. Received: " (tenure_raw data))
  | AmountPositive =>
      failure 400
        (Received "Loan amount must be greater than 0. Received: "
                  (Num (number_of js (amount_raw data))))
  | TenurePositive =>
      failure 400
        (Received "Loan tenure must be greater than 0 months. Received: "
                  (Num (number_of js (tenure_raw data))))
  | EmploymentTypeGiven => employment_required
  | IncomePositive => income_required
  end.

(** The six rules as the specification lists them. *)
Inductive rule : Type :=
| LoanReference | LoanDetailsPresent | LoanAmount | LoanTenure
| EmploymentType | MonthlyIncome.

Definition listed_order : list rule :=
  [ LoanReference; LoanDetailsPresent; LoanAmount; LoanTenure;
    EmploymentType; MonthlyIncome ].

(** The rule a check belongs to: its message names that rule's field. *)
Definition rule_of (c : check) : rule :=
  match c with
  | LoanIdValid | LoanFound => LoanReference
  | DetailsGiven => LoanDetailsPresent
  | AmountGiven | AmountNumeric | AmountPositive => LoanAmount
  | TenureGiven | TenureNumeric | TenurePositive => LoanTenure
  | EmploymentTypeGiven => EmploymentType
  | IncomePositive => MonthlyIncome
  end.

Definition rule_eqb (a b : rule) : bool :=
  match a, b with
  | LoanReference, LoanReference | LoanDetailsPresent, LoanDetailsPresent
  | LoanAmount, LoanAmount | LoanTenure, LoanTenure
  | EmploymentType, EmploymentType | MonthlyIncome, MonthlyIncome => true
  | _, _ => false
  end.

(** A rule is violated when one of its checks is. *)
Definition rule_violated (js : Builtins) (w : World) (data : gmap string value)
    (r : rule) : bool :=
  existsb (fun c => rule_eqb (rule_of c) r && violates js w data c) code_order.

Definition first_violated (js : Builtins) (w : World) (data : gmap string value)
  : option rule :=
  find (rule_violated js w data) listed_order.

(** *** The normalizer *)

(** What the normalizer leaves under one of its keys. *)
Definition normalized (js : Builtins) (before : option value) : option value :=
  match before with
  | Some (Str s) =>
      match JSON_parse js s with
      | Some v => Some v
      | None => Some (Str s)
      end
  | other => other
  end.

(** *** The documents of a batch *)

Definition uploaded (req : Request) : list File := default [] (req_files req).

Definition is_dynamic (f : File) : bool :=
  startsWith "dynamicFiles_" (fieldname f).

Definition dynamic_name (f : File) : string :=
  String_replace "dynamicFiles_" "" (fieldname f).

(** The key under which the handler files [f]. *)
Definition slot (f : File) : string :=
  if is_dynamic f then dynamic_name f else fieldname f.

Definition under (name : string) (batch : list File) : list File :=
  List.filter (fun f => String.eqb name (fieldname f)) batch.

Definition dynamic_under (name : string) (batch : list File) : list File :=
  List.filter (fun f => is_dynamic f && String.eqb name (dynamic_name f)) batch.

(** The distinct names of a list, in the order of their first occurrence. *)
Definition first_seen (names : list string) : list string :=
  fold_left
    (fun seen k => if existsb (String.eqb k) seen then seen else seen ++ [k])
    names [].

Definition dynamic_names (batch : list File) : list string :=
  first_seen (map dynamic_name (List.filter is_dynamic batch)).

Definition fixed_slots : list (string * string) :=
  [ ("idProof", "ID"); ("addressProof", "Address"); ("incomeProof", "Income");
    ("bankStatement", "Bank Statement"); ("otherDocuments", "Other") ].

Definition fixed_documents (batch : list File) : list Document.t :=
  flat_map (fun slot => map (document (snd slot)) (under (fst slot) batch))
           fixed_slots.

(** The first file of the batch that came under [selfie]. *)
Definition first_selfie (batch : list File) : option File :=
  find (fun f => String.eqb "selfie" (fieldname f)) batch.

Definition selfie_document (batch : list File) : list Document.t :=
  match first_selfie batch with
  | Some f => [document "Selfie" f]
  | None => []
  end.

Definition dynamic_documents (names : list string) (batch : list File)
  : list Document.t :=
  flat_map
    (fun name => map (document ("Dynamic: " ++ name)) (dynamic_under name batch))
    names.

(** Dynamic groups in the order their names were first met. *)
Definition documents_in_encounter_order (batch : list File) : list Document.t :=
  fixed_documents batch ++ selfie_document batch
  ++ dynamic_documents (dynamic_names batch) batch.

(** Dynamic groups in the order of [Object.keys]. *)
Definition documents_in_key_order (batch : list File) : list Document.t :=
  fixed_documents batch ++ selfie_document batch
  ++ dynamic_documents (key_order (dynamic_names batch)) batch.

Definition is_selfie (d : Document.t) : bool :=
  String.eqb (Document.type d) "Selfie".

(** A list that is not empty. *)
Definition nonempty {A : Type} (l : list A) : option (list A) :=
  match l with
  | [] => None
  | _ => Some l
  end.

(** No file of the batch is filed under a name that objects inherit. *)
Definition plain_names (batch : list File) : bool :=
  forallb (fun f => negb (inherited (slot f))) batch.

(** What the two objects hold once the files [batch] have been grouped. *)
Record grouped (batch : list File) (files dynamicFiles : FileGroups) : Prop := {
  grouped_static :
    forall k : string,
      startsWith "dynamicFiles_" k = false ->
      own_lookup k files = nonempty (under k batch);
  grouped_dynamic :
    forall k : string, own_lookup k dynamicFiles = nonempty (dynamic_under k batch);
  grouped_names : map fst dynamicFiles = dynamic_names batch;
  grouped_plain : plain_names batch = true
}.

(** * The code around the submission route

    The rest of [src/utils/sendEmail.js], the [pre('validate')] hook of the
    Loan model that computes an instalment, and the other routes of
    [src/routes/application.routes.js]. *)

(** ** [sendEmail] with any argument, [verifySMTP] *)

(** What [transporter.sendMail] is given. *)
Record Envelope : Type := {
  envelope_from : option string;
  envelope_to : value;
  envelope_subject : value;
  envelope_html : value;
  envelope_text : value
}.

(** [sendEmail(arg)]: the parameter is taken apart as
    [{ to, subject, html, text }], which throws for [undefined] and [null];
    [message] is the text of that [TypeError]. *)
Definition sendEmail_of (process_env : gmap string string)
    (sendMail : Envelope -> MailError + string) (message : string) (arg : value)
  : exn + EmailResult :=
  if nullish arg then inl (TypeError message)
  else
    let '(ok, missing, empty, gmailHint) := preflight process_env in
    if negb ok then inr (ConfigIncomplete missing empty gmailHint)
    else
      match sendMail {| envelope_from := env_or process_env "EMAIL_FROM" "EMAIL_USER";
                        envelope_to := get_prop arg "to";
                        envelope_subject := get_prop arg "subject";
                        envelope_html := get_prop arg "html";
                        envelope_text := get_prop arg "text" |} with
      | inr messageId => inr (Sent messageId)
      | inl err =>
          inr (SendFailed (err_message err) (err_code err) (classifyError err)
                          (err_command err) (err_response err)
                          (process_env !! "EMAIL_HOST")
                          (process_env !! "EMAIL_PORT"))
      end.

(** The names that [verifySMTP] lists: [[...missing, ...empty]]. *)
Definition listed_names (process_env : gmap string string) : list string :=
  List.filter (env_unset process_env) required_vars
  ++ List.filter (env_empty process_env) required_vars.

Inductive Verification : Type :=
| Verified
| NotVerified (error : string) (code : option string).

(** [verifySMTP()]: the result and the flag [verified] afterwards; [verify]
    is what [transporter.verify()] does. *)
Definition verifySMTP (process_env : gmap string string)
    (verify : option MailError) (verified : bool) : Verification * bool :=
  match listed_names process_env with
  | _ :: _ =>
      (NotVerified ("Missing/empty: " ++ join ", " (listed_names process_env)) None,
       verified)
  | [] =>
      match verify with
      | None => (Verified, true)
      | Some err => (NotVerified (err_message err) (err_code err), verified)
      end
  end.

(** ** The Loan model: [safeNum] and the instalment of a product *)

(** [v === s] for a string literal [s]. *)
Definition is_string (s : string) (v : value) : bool :=
  match v with
  | Str s' => String.eqb s' s
  | _ => false
  end.

(** [safeNum(v)] *)
Definition safeNum (js : Builtins) (v : value) : flow value :=
  if is_string "" v || nullish v || is_string "NaN" v then Next Undefined
  else
    n ← ToNumber js v;
    Next (if Number_isFinite n then Num n else Undefined).

(** [loanDetails] of a Loan document. *)
Record LoanTerms : Type := {
  principal : value;
  annualRate : value;
  tenureMonths : value;
  terms_emi : value
}.

(** The decimal that [x.toFixed(2)] writes: the nearest multiple of 1/100,
    the one further from zero at a tie; from [10^21] on the digits of
    [String(x)]. *)
Definition toFixed2 (x : Q) : Q :=
  let magnitude := Qabs x in
  let fixed :=
    if Qle_bool (inject_Z (10 ^ 21)) magnitude then magnitude
    else (Qfloor (magnitude * 100 + (1 # 2)) # 100)%Q in
  if Qle_bool 0 x then fixed else (- fixed)%Q.

(** [Number(x.toFixed(2))]: the double nearest to that decimal; [Number]
    reads the digits of [String(x)] back as [x]. *)
Definition Number_toFixed2 (x : Q) : number :=
  if Qle_bool (inject_Z (10 ^ 21)) (Qabs x) then Finite x
  else round_double (toFixed2 x).

(** [a > 0] for a value that [safeNum] left. *)
Definition positive_value (v : value) : bool :=
  match v with
  | Num n => gt_zero n
  | _ => false
  end.

(** The instalment of lines 126-130, for truthy numbers, each operation in
    double precision. *)
Definition product_emi (js : Builtins) (ld : LoanTerms) : value :=
  match principal ld, annualRate ld, tenureMonths ld with
  | Num P, Num R, Num n =>
      let r := js_div (js_div R (Finite 12)) (Finite 100) in
      if gt_zero P && gt_zero r && gt_zero n then
        let pow := Math_pow js (js_add (Finite 1) r) n in
        match js_div (js_mul (js_mul P r) pow) (js_sub pow (Finite 1)) with
        | Finite emi => Num (Number_toFixed2 emi)
        | _ => terms_emi ld
        end
      else terms_emi ld
  | _, _, _ => terms_emi ld
  end.

(** The second [pre('validate')] hook of the Loan model (lines 118-137). *)
Definition loan_pre_validate (js : Builtins) (this : LoanTerms) : flow LoanTerms :=
  principal ← safeNum js (principal this);
  annualRate ← safeNum js (annualRate this);
  tenureMonths ← safeNum js (tenureMonths this);
  emi ← safeNum js (terms_emi this);
  let ld := {| principal := principal; annualRate := annualRate;
               tenureMonths := tenureMonths; terms_emi := emi |} in
  if nullish emi && truthy principal && truthy annualRate && truthy tenureMonths
  then Next {| principal := principal; annualRate := annualRate;
               tenureMonths := tenureMonths; terms_emi := product_emi js ld |}
  else Next ld.

(** ** The other routes of the applications *)

Record Actor : Type := {
  actor_id : string;
  actor_role : string
}.

Record Account : Type := {
  account_email : value
}.

(** [res.status(..).json({ success, message, data })] *)
Record Answer : Type := {
  answer_status : nat;
  answer_success : bool;
  answer_message : option string;
  answer_data : option Application.t
}.

(** What the routes find around them. A lookup answers or throws (an id
    that cannot be cast). *)
Record Office : Type := {
  (** [Application.findById(id)] *)
  Application_findById : string -> exn + option Application.t;
  (** The user that [populate('userId')] puts in the place of an id;
      [None] when there is no such user. *)
  User_findById : string -> option Account;
  (** [new Date()] *)
  clock : nat;
  (** [countDocuments()] as the hook of a save sees it. *)
  office_count : nat;
  (** [Some e] when [application.save()] throws [e]. *)
  save_throws : Application.t -> option exn;
  (** [Application.findByIdAndUpdate(id, body, ..)] *)
  Application_findByIdAndUpdate :
    string -> gmap string value -> exn + option Application.t;
  (** What a String path of the schema makes of a value that is not a
      string, or the error of the save when it cannot be cast. *)
  cast_String : value -> exn + string;
  office_env : gmap string string;
  office_sendMail : Envelope -> MailError + string;
  (** The text of the [TypeError] of reading or destructuring the property
      [k] of [null] or [undefined]. *)
  nullish_message : string -> string
}.

Definition is_admin (actor : Actor) : bool := String.eqb (actor_role actor) "admin".

Definition answer_of (status : nat) (success : bool) (message : option string)
    (data : option Application.t) : Answer :=
  {| answer_status := status; answer_success := success;
     answer_message := message; answer_data := data |}.

Definition exn_message (e : exn) : string :=
  match e with
  | TypeError m | ValidationError m _ | OtherError m => m
  end.

(** [res.status(500).json({ success: false, message: error.message || 'Server error' })] *)
Definition server_error (e : exn) : Answer :=
  answer_of 500 false
    (Some (if String.eqb (exn_message e) "" then "Server error" else exn_message e))
    None.

Definition not_found : Answer :=
  answer_of 404 false (Some "Application not found") None.

(** [GET /api/applications/:id] (lines 341-373) *)
Definition view (o : Office) (actor : Actor) (id : string) : Answer :=
  match Application_findById o id with
  | inl e => server_error e
  | inr None => not_found
  | inr (Some application) =>
      if is_admin actor then answer_of 200 true None (Some application)
      else
        match User_findById o (Application.userId application) with
        | None => server_error (TypeError (nullish_message o "_id"))
        | Some _ =>
            if negb (String.eqb (Application.userId application) (actor_id actor))
            then answer_of 403 false (Some "Not authorized to view this application")
                           None
            else answer_of 200 true None (Some application)
        end
  end.

(** [PUT /api/applications/:id] (lines 378-414) *)
Definition update (o : Office) (actor : Actor) (id : string)
    (body : gmap string value) : Answer :=
  match Application_findById o id with
  | inl e => server_error e
  | inr None => not_found
  | inr (Some application) =>
      if negb (is_admin actor)
         && (negb (String.eqb (Application.userId application) (actor_id actor))
             || negb (is_Draft (Application.status application)))
      then answer_of 403 false (Some "Not authorized to update this application")
                     None
      else
        match Application_findByIdAndUpdate o id body with
        | inl e => server_error e
        | inr updatedApplication => answer_of 200 true None updatedApplication
        end
  end.

(** What a request to approve or to reject leaves behind: the response, the
    document as it was saved, the result of [sendEmail] when it returned. *)
Record Handled : Type := {
  answered : Answer;
  saved : option Application.t;
  mailed : option EmailResult
}.

Definition handled (a : Answer) (s : option Application.t) (m : option EmailResult)
  : Handled :=
  {| answered := a; saved := s; mailed := m |}.

(** The end of both routes: [sendEmail(application.userId.email, subject,
    html)] and the response. The mail is built after the save; validation
    has passed, so the loan amount of the template is there. *)
Definition notify (o : Office) (application : Application.t) (message : string)
  : Handled :=
  match User_findById o (Application.userId application) with
  | None =>
      handled (server_error (TypeError (nullish_message o "email")))
              (Some application) None
  | Some account =>
      match sendEmail_of (office_env o) (office_sendMail o)
                         (nullish_message o "to") (account_email account) with
      | inl e => handled (server_error e) (Some application) None
      | inr result =>
          handled (answer_of 200 true (Some message) (Some application))
                  (Some application) (Some result)
      end
  end.

(** [application.save()] *)
Definition save (o : Office) (application : Application.t)
  : exn + Application.t :=
  match save_throws o application with
  | Some e => inl e
  | None => inr (pre_save (office_count o) application)
  end.

(** [POST /api/applications/:id/approve] (lines 419-472) *)
Definition approve (o : Office) (actor : Actor) (id : string) : Handled :=
  if negb (is_admin actor)
  then handled (answer_of 403 false (Some "Not authorized") None) None None
  else
    match Application_findById o id with
    | inl e => handled (server_error e) None None
    | inr None => handled not_found None None
    | inr (Some application) =>
        match save o (Application.approved (clock o) (actor_id actor) application) with
        | inl e => handled (server_error e) None None
        | inr application =>
            notify o application "Application approved successfully"
        end
    end.

Definition default_reason : string :=
  "Application did not meet eligibility criteria".

(** [application.status = 'Rejected'; application.rejectedAt = new Date();
    application.rejectionReason = reason] for a reason that is a string. *)
Definition rejected_as (now : nat) (reason : string) (a : Application.t)
  : Application.t :=
  {| Application.userId := Application.userId a;
     Application.loanId := Application.loanId a;
     Application.loanType := Application.loanType a;
     Application.personalInfo := Application.personalInfo a;
     Application.address := Application.address a;
     Application.employmentInfo := Application.employmentInfo a;
     Application.loanDetails := Application.loanDetails a;
     Application.documents := Application.documents a;
     Application.dynamicFields := Application.dynamicFields a;
     Application.status := Rejected;
     Application.rejectionReason := Some reason;
     Application.approvedAt := Application.approvedAt a;
     Application.rejectedAt := Some now;
     Application.approvedBy := Application.approvedBy a;
     Application.applicationNumber := Application.applicationNumber a |}.

(** The string that the path [rejectionReason] takes for
    [rejectionReason || '...']. *)
Definition reason_text (o : Office) (rejectionReason : value) : exn + string :=
  match js_or rejectionReason (Str default_reason) with
  | Str s => inr s
  | v => cast_String o v
  end.

(** [POST /api/applications/:id/reject] (lines 477-531); a reason that the
    schema cannot cast fails the save. *)
Definition reject (o : Office) (actor : Actor) (id : string)
    (rejectionReason : value) : Handled :=
  if negb (is_admin actor)
  then handled (answer_of 403 false (Some "Not authorized") None) None None
  else
    match Application_findById o id with
    | inl e => handled (server_error e) None None
    | inr None => handled not_found None None
    | inr (Some application) =>
        match reason_text o rejectionReason with
        | inl e => handled (server_error e) None None
        | inr reason =>
            match save o (rejected_as (clock o) reason application) with
            | inl e => handled (server_error e) None None
            | inr application => notify o application "Application rejected"
            end
        end
    end.

(** [validateObjectId(id, field)] (lines 534-539); the second test comes
    after the first. *)
Definition validateObjectId (isValid : value -> bool) (id : value) (field : string)
  : exn + value :=
  if negb (truthy id) then inl (OtherError (field ++ " is required"))
  else if is_string "" id
       then inl (OtherError (field ++ " cannot be empty string"))
       else if negb (isValid id)
            then inl (OtherError (field ++ " is not a valid ObjectId"))
            else inr id.

(** ** Statements about the surrounding code *)

(** What [safeNum] leaves: [undefined] or a finite number. *)
Definition safe (v : value) : Prop :=
  v = Undefined \/ exists q : Q, v = Num (Finite q).

(** A product of 100000 at 12 percent over 12 months that states no
    instalment, with the numbers written as the form sends them. *)
Definition example_terms : LoanTerms :=
  {| principal := Num (Finite 100000); annualRate := Num (Finite 12);
     tenureMonths := Num (Finite 12); terms_emi := Str "" |}.

(** The same product with a stated instalment, and terms that hold no
    number but the instalment. *)
Definition example_terms_with_emi : LoanTerms :=
  {| principal := Num (Finite 100000); annualRate := Num (Finite 12);
     tenureMonths := Num (Finite 12); terms_emi := Num (Finite 9000) |}.

(** A product of 3 at 2 percent over one month. *)
Definition one_month_terms : LoanTerms :=
  {| principal := Num (Finite 3); annualRate := Num (Finite 2);
     tenureMonths := Num (Finite 1); terms_emi := Undefined |}.

Definition untidy_terms : LoanTerms :=
  {| principal := Str "NaN"; annualRate := Null;
     tenureMonths := Num (Infinity false); terms_emi := Num (Finite 250) |}.

(** The mail configuration of the examples with an empty password. *)
Definition example_env_no_pass : gmap string string :=
  <["EMAIL_PASS" := ""]> example_env.

(** Each of the four variables of the mail configuration is set and not
    empty. *)
Definition configured (process_env : gmap string string) : bool :=
  forallb (fun k => match process_env !! k with
                    | Some s => negb (String.eqb s "")
                    | None => false
                    end)
          required_vars.

(** The same office with another transport. *)
Definition with_transport (sendMail : Envelope -> MailError + string) (o : Office)
  : Office :=
  {| Application_findById := Application_findById o;
     User_findById := User_findById o;
     clock := clock o;
     office_count := office_count o;
     save_throws := save_throws o;
     Application_findByIdAndUpdate := Application_findByIdAndUpdate o;
     cast_String := cast_String o;
     office_env := office_env o;
     office_sendMail := sendMail;
     nullish_message := nullish_message o |}.

(** A mail without recipient, subject and body. *)
Definition unaddressed (process_env : gmap string string) : Envelope :=
  {| envelope_from := env_or process_env "EMAIL_FROM" "EMAIL_USER";
     envelope_to := Undefined; envelope_subject := Undefined;
     envelope_html := Undefined; envelope_text := Undefined |}.

(** The address of every account is a string (the path [email] of the User
    model). *)
Definition addressed_by_strings (o : Office) : Prop :=
  forall (u : string) (account : Account),
    User_findById o u = Some account ->
    exists address : string, account_email account = Str address.

(** [example_draft] once submitted, in an office that holds it under the
    id [a1]; its applicant is the user [u1]. *)
Definition example_submitted : Application.t :=
  Application.with_status Submitted example_draft.

Definition example_office (mail : Envelope -> MailError + string) : Office :=
  {| Application_findById :=
       fun id => inr (if String.eqb id "a1" then Some example_submitted else None);
     User_findById :=
       fun u => if String.eqb u "u1"
                then Some {| account_email := Str "a@example.org" |} else None;
     clock := 20;
     office_count := 41;
     save_throws := fun _ => None;
     Application_findByIdAndUpdate := fun _ _ => inr None;
     cast_String := fun _ => inl (OtherError "Cast to string failed");
     office_env := example_env;
     office_sendMail := mail;
     nullish_message :=
       fun k => ("Cannot read properties of null (reading '" ++ k ++ "')")%string |}.

Definition example_admin : Actor := {| actor_id := "admin1"; actor_role := "admin" |}.

Definition example_owner : Actor := {| actor_id := "u1"; actor_role := "user" |}.

(** A transport that delivers the mails that have a recipient. *)
Definition addressed_only (e : Envelope) : MailError + string :=
  match envelope_to e with
  | Str _ => delivered
  | _ => refused
  end.

(** An office that holds the application [a] under every id and whose
    store, for an update, sets the application number that the body gives
    as a string. *)
Definition renumbering (a : Application.t) (o : Office) : Office :=
  {| Application_findById := fun _ => inr (Some a);
     User_findById := User_findById o;
     clock := clock o;
     office_count := office_count o;
     save_throws := save_throws o;
     Application_findByIdAndUpdate :=
       fun _ body =>
         inr (Some match body !! "applicationNumber" with
                   | Some (Str s) => Application.with_applicationNumber (Some s) a
                   | _ => a
                   end);
     cast_String := cast_String o;
     office_env := office_env o;
     office_sendMail := office_sendMail o;
     nullish_message := nullish_message o |}.

(** The same office with the application [a] under every id. *)
Definition holding (a : Application.t) (o : Office) : Office :=
  {| Application_findById := fun _ => inr (Some a);
     User_findById := User_findById o;
     clock := clock o;
     office_count := office_count o;
     save_throws := save_throws o;
     Application_findByIdAndUpdate := Application_findByIdAndUpdate o;
     cast_String := cast_String o;
     office_env := office_env o;
     office_sendMail := office_sendMail o;
     nullish_message := nullish_message o |}.

(** A file under one of the five fixed names, and a file under [selfie]. *)
Definition is_fixed (f : File) : bool :=
  existsb (fun slot => String.eqb (fst slot) (fieldname f)) fixed_slots.

Definition is_selfie_file (f : File) : bool := String.eqb "selfie" (fieldname f).

(** A string, a number or a boolean. *)
Definition is_primitive (v : value) : bool :=
  match v with
  | Str _ | Num _ | Bool _ => true
  | _ => false
  end.

(** The example request with one file for the dynamic field [salarySlip]
    and with [dynamicFields] sent as a text that is not JSON. *)
Definition example_request_with_notes : Request :=
  {| user_id := "u1";
     req_files := Some [upload "dynamicFiles_salarySlip" "march.pdf" "1702-march.pdf"];
     req_body :=
       <["dynamicFields" := Str "see attachment"]>
       (example_body twelve_months salaried) |}.

(** * Properties *)

(** ** The application number *)

Lemma digit_of_digit_char (d : nat) :
  d < 10 -> digit_of (digit_char d) = Some (N.of_nat d).
Proof.
  intros Hd.
  do 10 (destruct d as [|d]; [reflexivity|]).
  lia.
Qed.

Lemma digits_value_digits_fuel (fuel : nat) :
  forall (n : nat) (acc : string),
    n < fuel ->
    exists k : N, forall a : N,
      digits_value a (digits_fuel fuel n acc)
      = digits_value (a * 10 ^ k + N.of_nat n)%N acc.
Proof.
  induction fuel as [|fuel IH]; intros n acc Hn; [lia|].
  cbn [digits_fuel].
  assert (Hmod : n mod 10 < 10) by (apply Nat.mod_upper_bound; lia).
  destruct (Nat.ltb_spec n 10) as [Hlt|Hge].
  - exists 1%N. intros a. cbn [digits_value].
    rewrite Nat.mod_small by lia.
    rewrite digit_of_digit_char by lia.
    f_equal. lia.
  - assert (Hdiv : n / 10 < fuel).
    { assert (n / 10 < n) by (apply Nat.div_lt; lia). lia. }
    destruct (IH (n / 10) (String (digit_char (n mod 10)) acc) Hdiv) as [k Hk].
    exists (k + 1)%N. intros a. rewrite Hk. cbn [digits_value].
    rewrite digit_of_digit_char by assumption.
    f_equal.
    rewrite N.pow_add_r, N.pow_1_r.
    pose proof (Nat.div_mod_eq n 10) as E.
    lia.
Qed.

Lemma digits_value_String_of_nat (n : nat) :
  digits_value 0 (String_of_nat n) = Some (N.of_nat n).
Proof.
  unfold String_of_nat.
  destruct (digits_value_digits_fuel (S n) n "" (Nat.lt_succ_diag_r n)) as [k Hk].
  rewrite Hk. cbn [digits_value]. f_equal; lia.
Qed.

Lemma digits_value_leading_zeros (m : nat) (s : string) :
  digits_value 0 (repeat_char "0" m ++ s) = digits_value 0 s.
Proof.
  induction m as [|m IH]; [reflexivity|].
  cbn [repeat_char String.append digits_value]. exact IH.
Qed.

Lemma length_append (s t : string) :
  String.length (s ++ t) = String.length s + String.length t.
Proof.
  induction s as [|c s IH]; cbn [String.append String.length]; [reflexivity|].
  now rewrite IH.
Qed.

Lemma length_repeat_char (c : ascii) (n : nat) :
  String.length (repeat_char c n) = n.
Proof.
  induction n as [|n IH]; cbn; [reflexivity|]. now rewrite IH.
Qed.

Lemma length_padStart (n : nat) (c : ascii) (s : string) :
  String.length (padStart n c s) = Nat.max n (String.length s).
Proof.
  unfold padStart. rewrite length_append, length_repeat_char. lia.
Qed.

(** The number is [APP] followed by the decimal spelling of [count + 1],
    filled with zeros on the left up to six characters. *)
Lemma format_number_shape (count : nat) :
  exists digits : string,
    format_number count = ("APP" ++ digits)%string
    /\ 6 <= String.length digits
    /\ digits_value 0 digits = Some (N.of_nat (count + 1)).
Proof.
  exists (padStart 6 "0" (String_of_nat (count + 1))).
  split; [reflexivity|]. split.
  - rewrite length_padStart. lia.
  - unfold padStart. rewrite digits_value_leading_zeros.
    apply digits_value_String_of_nat.
Qed.

Lemma format_number_truthy (count : nat) :
  no_number (Some (format_number count)) = false.
Proof. reflexivity. Qed.

Lemma pre_save_keeps (count : nat) (this : Application.t) :
  no_number (Application.applicationNumber this) = false ->
  pre_save count this = this.
Proof. unfold pre_save. now intros ->. Qed.

Lemma history_keeps (events : list event) :
  Forall keeps_number events ->
  forall this : Application.t,
    no_number (Application.applicationNumber this) = false ->
    Application.applicationNumber (history events this)
    = Application.applicationNumber this.
Proof.
  induction 1 as [|e events He _ IH]; intros this Hn; [reflexivity|].
  cbn [history fold_left]. fold (history events (step this e)).
  assert (E : Application.applicationNumber (step this e)
              = Application.applicationNumber this).
  { destruct e; cbn [step]; try reflexivity.
    - apply He.
    - now rewrite pre_save_keeps. }
  rewrite IH; rewrite E; [reflexivity | assumption].
Qed.

Lemma history_assigns (events : list event) :
  Forall keeps_number events ->
  forall this : Application.t,
    Application.applicationNumber this = None ->
    Application.applicationNumber (history events this)
    = option_map format_number (first_save_out_of_draft this events).
Proof.
  induction 1 as [|e events He Hall IH]; intros this Hn; [exact Hn|].
  cbn [history fold_left]. fold (history events (step this e)).
  destruct e as [now admin|now reason|change|count];
    cbn [step first_save_out_of_draft]; try (now rewrite IH).
  - rewrite IH; [reflexivity|]. cbn [keeps_number] in He. now rewrite He.
  - unfold pre_save. rewrite Hn. cbn [no_number andb].
    destruct (is_Draft (Application.status this)); cbn [negb].
    + now rewrite IH.
    + rewrite history_keeps;
        [reflexivity | assumption | apply format_number_truthy].
Qed.

Lemma first_save_prefix (events more : list event) :
  forall (this : Application.t) (count : nat),
    first_save_out_of_draft this events = Some count ->
    first_save_out_of_draft this (events ++ more) = Some count.
Proof.
  induction events as [|e events IH]; intros this count H; [discriminate|].
  destruct e; cbn [first_save_out_of_draft app] in *; auto.
  destruct (is_Draft (Application.status this)); auto.
Qed.

(** As long as no update writes the application number, the claim C2
    holds: a document that has no number gets one at the first save at
    which its status is not Draft, [APP] and the zero-padded count the save
    sees plus one; saves before it assign nothing, and nothing that follows
    changes the number. *)
Lemma application_number_assigned_once
    (events : list event) (this : Application.t) :
  Forall keeps_number events ->
  Application.applicationNumber this = None ->
  Application.applicationNumber (history events this)
  = option_map format_number (first_save_out_of_draft this events)
  /\ (forall (count : nat) (more : list event),
        Forall keeps_number more ->
        first_save_out_of_draft this events = Some count ->
        Application.applicationNumber (history (events ++ more) this)
        = Some (format_number count)
        /\ exists digits : string,
             format_number count = ("APP" ++ digits)%string
             /\ 6 <= String.length digits
             /\ digits_value 0 digits = Some (N.of_nat (count + 1))).
Proof.
  intros Hall Hn. split.
  - now apply history_assigns.
  - intros count more Hmore H. split.
    + rewrite history_assigns; [|now apply Forall_app|assumption].
      now rewrite (first_save_prefix events more _ count H).
    + apply format_number_shape.
Qed.

Lemma example_life_keeps_number : Forall keeps_number example_life.
Proof. repeat constructor. Qed.

Lemma application_number_assigned_once_example :
  Application.applicationNumber example_draft = None
  /\ Application.applicationNumber (history example_life example_draft)
     = Some "APP000005"
  /\ Application.applicationNumber
       (history (example_life ++ [Reject 21 ""; Save 12]) example_draft)
     = Some "APP000005".
Proof.
  split; [reflexivity|].
  destruct (application_number_assigned_once example_life example_draft
              example_life_keeps_number eq_refl)
    as [Hfirst Hlater].
  split; [exact Hfirst|].
  exact (proj1 (Hlater 4 [Reject 21 ""; Save 12] ltac:(repeat constructor)
                  eq_refl)).
Qed.

(** C2, the failing run. A submitted application is saved while the
    collection holds 3 documents and gets the number APP000004. An admin
    sends [PUT /:id] with the body [{ applicationNumber: '' }]: the route
    lets an admin update any application and hands the body to
    [findByIdAndUpdate], the number is the empty string from then on. The
    admin approves the application while the collection holds 41 documents:
    the hook of the save finds no number, the status is not Draft, and it
    assigns APP000042, a second number for the same application. *)
Lemma application_number_reassigned :
  let submitted := pre_save 3 example_submitted in
  let emptied := Application.with_applicationNumber (Some "") submitted in
  let office := example_office addressed_only in
  Application.applicationNumber submitted = Some "APP000004"
  /\ update (renumbering submitted office) example_admin "a1"
            ({[ "applicationNumber" := Str "" ]} : gmap string value)
     = answer_of 200 true None (Some emptied)
  /\ (exists approved : Application.t,
         saved (approve (holding emptied office) example_admin "a1")
         = Some approved
         /\ Application.applicationNumber approved = Some "APP000042")
  /\ Application.applicationNumber (history [Save 3] example_submitted)
     = Some "APP000004"
  /\ Application.applicationNumber (history example_reset example_submitted)
     = Some "APP000042".
Proof.
  cbv zeta. split; [vm_compute; reflexivity|].
  split; [vm_compute; reflexivity|]. split.
  - eexists. split; vm_compute; reflexivity.
  - split; vm_compute; reflexivity.
Qed.

(** ** Control flow *)

Lemma bind_Next {R A B : Type} (m : outcome R A) (k : A -> outcome R B) (b : B) :
  m ≫= k = Next b -> exists a : A, m = Next a /\ k a = Next b.
Proof.
  destruct m as [a|r|e]; cbn; intros H; try discriminate.
  exists a. split; [reflexivity | exact H].
Qed.

Lemma reject_if_Next {R : Type} (c : bool) (r : R) (u : unit) :
  reject_if c r = Next u -> c = false.
Proof. destruct c; cbn; [discriminate | reflexivity]. Qed.

(** Takes a hypothesis [m ≫= k = Next b] apart. *)
Ltac next_step H :=
  let a := fresh "a" in
  let Hm := fresh "Hm" in
  apply bind_Next in H; destruct H as [a [Hm H]].

Lemma pre_save_submitted (count : nat) (doc : Application.t) :
  Application.status doc = Submitted ->
  Application.applicationNumber doc = None ->
  pre_save count doc
  = Application.with_applicationNumber (Some (format_number count)) doc.
Proof. unfold pre_save. now intros -> ->. Qed.

(** What a request that ends with a created application went through. *)
Lemma intake_Next (js : Builtins) (w : World) (req : Request)
    (app : Application.t) (sent : EmailResult) :
  intake js w req = Next (app, sent) ->
  let data := parse_fields js (req_body req) in
  exists files dynamicFiles loan loanAmount loanTenure documents dynamicFields
         employmentInfo,
    organize (req_files req) = Next (files, dynamicFiles)
    /\ check_terms js w data = Next (loan, loanAmount, loanTenure)
    /\ assemble_documents js files dynamicFiles data = Next (documents, dynamicFields)
    /\ check_employment js data = Next employmentInfo
    /\ Application.loanId app = Loan.id loan
    /\ Application.loanType app = Loan.type loan
    /\ Application.employmentInfo app = employmentInfo
    /\ Application.loanDetails app
       = {| LoanDetails.loanAmount := loanAmount;
            LoanDetails.loanTenure := loanTenure;
            LoanDetails.interestRate := Finite (resolve_rate loan);
            LoanDetails.emi :=
              compute_emi js loanAmount loanTenure (resolve_rate loan) |}
    /\ Application.documents app = documents
    /\ Application.dynamicFields app = dynamicFields
    /\ Application.status app = Submitted
    /\ Application.applicationNumber app
       = Some (format_number (countDocuments w))
    /\ sent = sendEmail (process_env w) (sendMail w)
                (get_prop_opt (field data "personalInfo") "email")
                "Loan Application Submitted".
Proof.
  intros H data. unfold intake in H. fold data in H.
  next_step H. destruct a as [files dynamicFiles].
  next_step H. destruct a as [[loan loanAmount] loanTenure].
  next_step H. destruct a as [documents dynamicFields].
  next_step H. rename a into employmentInfo.
  next_step H. rename a into application.
  unfold Application_create in Hm3.
  destruct (create_throws w _); [discriminate|].
  injection Hm3 as <-. injection H as <- <-.
  exists files, dynamicFiles, loan, loanAmount, loanTenure, documents,
         dynamicFields, employmentInfo.
  repeat split; assumption || reflexivity.
Qed.

Lemma check_terms_Next (js : Builtins) (w : World) (data : gmap string value)
    (loan : Loan.t) (loanAmount loanTenure : number) :
  check_terms js w data = Next (loan, loanAmount, loanTenure) ->
  Loan_findById w (loan_reference data) = Some loan
  /\ ToNumber js (amount_raw data) = Next loanAmount
  /\ ToNumber js (tenure_raw data) = Next loanTenure
  /\ Number_isFinite loanAmount = true /\ le_zero loanAmount = false
  /\ Number_isFinite loanTenure = true /\ le_zero loanTenure = false.
Proof.
  intros H. unfold check_terms in H.
  fold (loan_reference data) in H. fold (loan_details data) in H.
  fold (amount_raw data) in H. fold (tenure_raw data) in H.
  next_step H. clear Hm.
  next_step H.
  destruct (Loan_findById w (loan_reference data)) as [loan'|] eqn:Hloan;
    [|discriminate].
  injection Hm as ->.
  next_step H. clear Hm.
  next_step H. clear Hm.
  next_step H. clear Hm.
  next_step H. rename a3 into amount. rename Hm into Hamount.
  next_step H. rename a3 into tenure. rename Hm into Htenure.
  next_step H. apply reject_if_Next in Hm.
  next_step H. apply reject_if_Next in Hm0.
  next_step H. apply reject_if_Next in Hm1.
  next_step H. apply reject_if_Next in Hm2.
  injection H as <- <- <-.
  apply orb_false_iff in Hm as [_ Hfa]. apply negb_false_iff in Hfa.
  apply orb_false_iff in Hm0 as [_ Hft]. apply negb_false_iff in Hft.
  repeat split; assumption.
Qed.

(** ** The instalment *)

Lemma Qeq_bool_false_of_lt (x : Q) : (0 < x)%Q -> Qeq_bool x 0 = false.
Proof.
  intros Hx. destruct (Qeq_bool x 0) eqn:E; [|reflexivity].
  apply Qeq_bool_eq in E. rewrite E in Hx. now apply Qlt_irrefl in Hx.
Qed.

Lemma Qle_bool_false_iff (x : Q) : Qle_bool x 0 = false <-> (0 < x)%Q.
Proof.
  split.
  - intros E. apply Qnot_le_lt. intros Hle.
    apply Qle_bool_iff in Hle. congruence.
  - intros Hx. destruct (Qle_bool x 0) eqn:E; [|reflexivity].
    apply Qle_bool_iff in E. exfalso. now apply (Qlt_not_le 0 x).
Qed.

(** Rounding at work: 1/10 is not a double; between two doubles the even
    one is taken at a tie; [2^1024] overflows; half of the smallest
    subnormal number underflows to zero. *)
Lemma round_double_examples :
  round_double (1 # 10) = Finite (3602879701896397 # 36028797018963968)
  /\ round_double (inject_Z (2 ^ 53 + 1)) = Finite (inject_Z (2 ^ 53))
  /\ round_double (inject_Z (2 ^ 53 + 3)) = Finite (inject_Z (2 ^ 53 + 4))
  /\ round_double (inject_Z (2 ^ 1024)) = Infinity false
  /\ round_double (- inject_Z (2 ^ 1024 - 2 ^ 970)) = Infinity true
  /\ round_double (inject_Z (2 ^ 1024 - 2 ^ 970 - 1))
     = Finite (inject_Z (2 ^ 1024 - 2 ^ 971))
  /\ round_double (1 # 2 ^ 1075) = Finite 0
  /\ round_double (3 # 2 ^ 1075) = Finite (1 # 2 ^ 1073).
Proof. repeat split; vm_compute; reflexivity. Qed.

Lemma nearest_even_bounds (n d : Z) :
  (0 <= n)%Z -> (0 < d)%Z ->
  (n / d <= nearest_even n d <= n / d + 1)%Z.
Proof.
  intros Hn Hd. unfold nearest_even.
  destruct (2 * (n mod d) ?= d)%Z; [destruct (Z.even _)|..]; lia.
Qed.

Lemma nearest_even_nonneg (n d : Z) :
  (0 <= n)%Z -> (0 < d)%Z -> (0 <= nearest_even n d)%Z.
Proof.
  intros Hn Hd. pose proof (nearest_even_bounds n d Hn Hd) as H.
  assert (0 <= n / d)%Z by (apply Z.div_pos; lia). lia.
Qed.

(** Rounding keeps the sign. *)
Lemma round_double_positive (x : Q) :
  gt_zero (round_double x) = true -> (0 < x)%Q.
Proof.
  unfold round_double. destruct x as [n d]. cbn [Qnum Qden].
  destruct (Z.eqb_spec n 0) as [->|Hn]; [discriminate|].
  assert (Hsign : (0 < Z.sgn n * 1)%Z -> (0 < n # d)%Q).
  { intros H. unfold Qlt. cbn. lia. }
  set (e := Z.max _ _).
  destruct (0 <=? e)%Z eqn:He.
  - apply Z.leb_le in He.
    assert (Hm : (0 <= nearest_even (Z.abs n) (Z.pos d * 2 ^ e))%Z).
    { apply nearest_even_nonneg; [lia|]. apply Z.mul_pos_pos; [lia|].
      now apply Z.pow_pos_nonneg. }
    assert (Hp : (0 < 2 ^ e)%Z) by now apply Z.pow_pos_nonneg.
    destruct (2 ^ 1024 <=? _)%Z.
    + cbn [gt_zero]. intros H. apply negb_true_iff in H.
      apply Z.ltb_ge in H. apply Hsign. lia.
    + cbn [gt_zero]. intros H. apply negb_true_iff, Qle_bool_false_iff in H.
      unfold Qlt in H. cbn in H. apply Hsign. nia.
  - assert (Hm : (0 <= nearest_even (Z.abs n * 2 ^ (- e)) (Z.pos d))%Z).
    { apply nearest_even_nonneg; [|lia]. apply Z.mul_nonneg_nonneg; [lia|].
      apply Z.pow_nonneg. lia. }
    cbn [gt_zero]. intros H. apply negb_true_iff, Qle_bool_false_iff in H.
    rewrite Qred_correct in H. unfold Qlt in H. cbn in H. apply Hsign. nia.
Qed.

Lemma log2_ratio_le (a d : Z) (j : Z) :
  (0 < a)%Z -> (0 < d)%Z -> (0 <= j)%Z -> (a <= 2 ^ j * d)%Z ->
  (log2_ratio a d <= j)%Z.
Proof.
  intros Ha Hd Hj H. unfold log2_ratio.
  assert (Hk : (Z.log2 a - Z.log2 d <= j)%Z).
  { pose proof (Z.log2_le_mono a (d * 2 ^ j) ltac:(lia)) as Hl.
    rewrite Z.log2_mul_pow2 in Hl by lia. lia. }
  destruct (_ <=? _)%Z; lia.
Qed.

(** Below [2^70] in magnitude nothing overflows. *)
Lemma round_double_finite (x : Q) :
  (- inject_Z (2 ^ 70) <= x)%Q -> (x <= inject_Z (2 ^ 70))%Q ->
  exists q : Q, round_double x = Finite q.
Proof.
  intros Hlo Hhi. unfold round_double. destruct x as [n d].
  unfold Qle in Hlo, Hhi. cbn [Qnum Qden inject_Z Qopp] in *.
  destruct (Z.eqb_spec n 0) as [->|Hn0]; [eauto|].
  set (e := Z.max _ _).
  destruct (0 <=? e)%Z eqn:He; [|eauto].
  apply Z.leb_le in He.
  destruct (Z.leb_spec (2 ^ 1024)
              (nearest_even (Z.abs n) (Z.pos d * 2 ^ e) * 2 ^ e)) as [Hov|_];
    [|eauto].
  exfalso.
  assert (Hn : (Z.abs n <= 2 ^ 70 * Z.pos d)%Z) by lia.
  assert (He18 : (e <= 18)%Z).
  { pose proof (log2_ratio_le (Z.abs n) (Z.pos d) 70 ltac:(lia) ltac:(lia)
                  ltac:(lia) Hn). subst e. lia. }
  assert (Hp : (0 < 2 ^ e)%Z) by now apply Z.pow_pos_nonneg.
  assert (Hp18 : (2 ^ e <= 2 ^ 18)%Z) by (apply Z.pow_le_mono_r; lia).
  assert (Hd : (0 < Z.pos d * 2 ^ e)%Z) by (apply Z.mul_pos_pos; lia).
  pose proof (nearest_even_bounds (Z.abs n) (Z.pos d * 2 ^ e) ltac:(lia) Hd)
    as [_ Hm].
  assert (Hq : (Z.abs n / (Z.pos d * 2 ^ e) <= 2 ^ 70)%Z).
  { apply Z.div_le_upper_bound; [exact Hd|].
    assert (Z.pos d <= Z.pos d * 2 ^ e)%Z by nia.
    assert (0 <= 2 ^ 70)%Z by (apply Z.pow_nonneg; lia).
    nia. }
  assert (Hb : (nearest_even (Z.abs n) (Z.pos d * 2 ^ e) * 2 ^ e
                <= (2 ^ 70 + 1) * 2 ^ 18)%Z).
  { pose proof (nearest_even_nonneg (Z.abs n) (Z.pos d * 2 ^ e) ltac:(lia) Hd).
    apply Z.mul_le_mono_nonneg; lia. }
  assert (Hc : ((2 ^ 70 + 1) * 2 ^ 18 < 2 ^ 1024)%Z) by reflexivity.
  lia.
Qed.

(** The nearest integer is within a half of its argument. *)
Lemma round_nearest_spec (x : Q) :
  (inject_Z (round_nearest x) - (1 # 2) <= x
   /\ x < inject_Z (round_nearest x) + (1 # 2))%Q.
Proof.
  unfold round_nearest.
  pose proof (Qfloor_le (x + (1 # 2))) as Hlo.
  pose proof (Qlt_floor (x + (1 # 2))) as Hhi.
  set (z := Qfloor (x + (1 # 2))) in *.
  assert (E1 : (inject_Z z - (1 # 2) + (1 # 2) == inject_Z z)%Q) by ring.
  assert (E2 : (inject_Z z + (1 # 2) + (1 # 2) == inject_Z (z + 1))%Q)
    by (rewrite inject_Z_plus; ring).
  split.
  - apply (Qplus_le_l _ _ (1 # 2)). rewrite E1. exact Hlo.
  - apply (Qplus_lt_l _ _ (1 # 2)). rewrite E2. exact Hhi.
Qed.

(** [Math.round] of a finite number is the nearest integer. *)
Lemma Math_round_nearest (n : number) :
  Math_round n
  = match n with
    | Finite q => Finite (inject_Z (round_nearest q))
    | other => other
    end.
Proof. now destruct n. Qed.

(** What the route computes for a finite amount and a finite tenure. *)
Lemma compute_emi_double (js : Builtins) (P t : number) (R : Q) :
  compute_emi js P t R
  = if gt_zero (monthly_rate_double R)
    then match amortized_double (Math_pow js) P (monthly_rate_double R) t with
         | Finite q => Finite (inject_Z (round_nearest q))
         | other => other
         end
    else Finite 0.
Proof.
  unfold compute_emi, amortized_double. fold (monthly_rate_double R).
  destruct (gt_zero (monthly_rate_double R)); [|reflexivity].
  rewrite Math_round_nearest. now destruct (js_div _ _).
Qed.

(** C1 (as amended). The loan details of a created application hold a
    positive amount [P] and a positive tenure [n], whole or not. With [R]
    the stored annual rate and [r] the monthly rate [R / 100 / 12] computed
    in double precision, the stored instalment is, for [r > 0], [Math.round]
    of [P r (1+r)^n / ((1+r)^n - 1)] evaluated in double precision from left
    to right, [(1+r)^n] being what [Math.pow] of the host gives: the integer
    nearest to that quotient when it is finite, the quotient itself when it
    is an infinity or not a number. For an [r] that is not above 0 the
    instalment is 0. *)
Theorem emi_of_created_application
    (js : Builtins) (w : World) (req : Request)
    (app : Application.t) (sent : EmailResult) (P t R : Q) :
  intake js w req = Next (app, sent) ->
  LoanDetails.loanAmount (Application.loanDetails app) = Finite P ->
  LoanDetails.loanTenure (Application.loanDetails app) = Finite t ->
  LoanDetails.interestRate (Application.loanDetails app) = Finite R ->
  (0 < P)%Q /\ (0 < t)%Q
  /\ (gt_zero (monthly_rate_double R) = true ->
      LoanDetails.emi (Application.loanDetails app)
      = match amortized_double (Math_pow js) (Finite P)
                (monthly_rate_double R) (Finite t) with
        | Finite q => Finite (inject_Z (round_nearest q))
        | other => other
        end)
  /\ (gt_zero (monthly_rate_double R) = false ->
      LoanDetails.emi (Application.loanDetails app) = Finite 0).
Proof.
  intros H HP Ht HR.
  destruct (intake_Next js w req app sent H)
    as (files & dyn & loan & a & tn & docs & dynf & emp
        & _ & Hterms & _ & _ & _ & _ & _ & Hld & _).
  rewrite Hld in HP, Ht, HR |- *.
  cbn [LoanDetails.loanAmount LoanDetails.loanTenure LoanDetails.interestRate
       LoanDetails.emi] in HP, Ht, HR |- *.
  subst a tn. injection HR as HR.
  destruct (check_terms_Next js w _ loan _ _ Hterms)
    as (_ & _ & _ & _ & HPpos & _ & Htpos).
  cbn [le_zero] in HPpos, Htpos.
  apply Qle_bool_false_iff in HPpos. apply Qle_bool_false_iff in Htpos.
  rewrite HR, compute_emi_double.
  split; [exact HPpos|]. split; [exact Htpos|].
  split; intros ->; reflexivity.
Qed.

(** A loan of 100000 over 12 months at 12 percent a year: 8885 a month. *)
Lemma emi_of_created_application_witness :
  exists (app : Application.t) (sent : EmailResult),
    intake example_host (example_world delivered)
           (example_request [] twelve_months salaried) = Next (app, sent)
    /\ LoanDetails.loanAmount (Application.loanDetails app) = Finite 100000
    /\ LoanDetails.loanTenure (Application.loanDetails app) = Finite 12
    /\ LoanDetails.interestRate (Application.loanDetails app) = Finite 12
    /\ LoanDetails.emi (Application.loanDetails app) = Finite 8885.
Proof.
  eexists. eexists. split; [vm_compute; reflexivity|].
  do 3 (split; [reflexivity|]).
  lazymatch goal with
  | |- LoanDetails.emi (Application.loanDetails ?a) = _ =>
      assert (H : exists sent,
                 intake example_host (example_world delivered)
                        (example_request [] twelve_months salaried)
                 = Next (a, sent))
        by (eexists; vm_compute; reflexivity)
  end.
  destruct H as [sent H].
  destruct (emi_of_created_application example_host (example_world delivered)
              (example_request [] twelve_months salaried) _ sent 100000 12 12
              H eq_refl eq_refl eq_refl) as (_ & _ & Hemi & _).
  etransitivity; [apply Hemi|]; vm_compute; reflexivity.
Defined.

(** A loan of 10050 over 2 months at 12 percent a year. The formula of the
    claim gives 5100.5, whose nearest integer is 5101; in double precision
    the monthly rate is not 0.01 but the double next to it, the quotient
    comes out just below 5100.5, and the instalment of the created
    application is 5100. *)
Lemma exact_emi_counterexample :
  exists (app : Application.t) (sent : EmailResult),
    intake example_host (example_world delivered)
           (example_request [] two_months salaried) = Next (app, sent)
    /\ LoanDetails.loanAmount (Application.loanDetails app) = Finite 10050
    /\ LoanDetails.loanTenure (Application.loanDetails app) = Finite 2
    /\ LoanDetails.interestRate (Application.loanDetails app) = Finite 12
    /\ LoanDetails.emi (Application.loanDetails app) = Finite 5100
    /\ (amortized 10050 (monthly_rate 12) 2 == 10201 # 2)%Q
    /\ round_nearest (amortized 10050 (monthly_rate 12) 2) = 5101%Z.
Proof.
  eexists. eexists. split; [vm_compute; reflexivity|].
  do 3 (split; [reflexivity|]).
  split; [vm_compute; reflexivity|].
  split; [reflexivity | vm_compute; reflexivity].
Qed.

(** ** The normalizer *)

Lemma parse_field_lookup (js : Builtins) (data : gmap string value)
    (f k : string) :
  parse_field js data f !! k
  = if decide (k = f) then normalized js (data !! f) else data !! k.
Proof.
  unfold parse_field, normalized.
  destruct (decide (k = f)) as [->|Hne].
  - destruct (data !! f) as [[| |b|n|s|ps|es]|] eqn:E; try (now rewrite E).
    destruct (JSON_parse js s); [apply lookup_insert_eq | exact E].
  - destruct (data !! f) as [[| |b|n|s|ps|es]|] eqn:E; try reflexivity.
    destruct (JSON_parse js s); [|reflexivity].
    apply lookup_insert_ne. congruence.
Qed.

Lemma parse_all_lookup (js : Builtins) (fs : list string) :
  NoDup fs ->
  forall (data : gmap string value) (k : string),
    fold_left (parse_field js) fs data !! k
    = if decide (k ∈ fs) then normalized js (data !! k) else data !! k.
Proof.
  induction 1 as [|f fs Hf Hnd IH]; intros data k.
  - cbn. destruct (decide (k ∈ [])) as [Hin|_]; [|reflexivity].
    now apply not_elem_of_nil in Hin.
  - cbn [fold_left]. rewrite IH, !parse_field_lookup.
    destruct (decide (k = f)) as [->|Hne].
    + destruct (decide (f ∈ fs)) as [Hin|_]; [contradiction|].
      destruct (decide (f ∈ f :: fs)) as [_|Hout]; [reflexivity|].
      exfalso. apply Hout. left.
    + destruct (decide (k ∈ fs)) as [Hin|Hout].
      * destruct (decide (k ∈ f :: fs)) as [_|Hout]; [reflexivity|].
        exfalso. apply Hout. now right.
      * destruct (decide (k ∈ f :: fs)) as [Hin|_]; [|reflexivity].
        apply elem_of_cons in Hin as [?|?]; contradiction.
Qed.

Lemma json_fields_NoDup : NoDup json_fields.
Proof. apply (bool_decide_unpack _). vm_compute. exact I. Qed.

Lemma parse_fields_lookup (js : Builtins) (body : gmap string value) (k : string) :
  parse_fields js body !! k
  = if decide (k ∈ json_fields) then normalized js (body !! k) else body !! k.
Proof. apply parse_all_lookup, json_fields_NoDup. Qed.

(** The normalizer leaves every other key of the body alone. *)
Lemma parse_fields_frame (js : Builtins) (body : gmap string value) (k : string) :
  ~ In k json_fields -> parse_fields js body !! k = body !! k.
Proof.
  intros Hk. rewrite parse_fields_lookup.
  destruct (decide (k ∈ json_fields)) as [Hin|_]; [|reflexivity].
  exfalso. apply Hk. now apply list_elem_of_In.
Qed.

(** C8. For each of the keys personalInfo, address, employmentInfo,
    loanDetails and dynamicFields the normalizer, a total function on the
    body, puts the parsed value in the place of a string that parses, keeps
    a string that does not parse, and keeps a value that is not a string
    (or the absence of one). *)
Theorem normalizer_parses_or_keeps
    (js : Builtins) (body : gmap string value) (f : string) :
  In f ["personalInfo"; "address"; "employmentInfo"; "loanDetails";
        "dynamicFields"] ->
  (forall (s : string) (v : value),
      body !! f = Some (Str s) -> JSON_parse js s = Some v ->
      parse_fields js body !! f = Some v)
  /\ (forall s : string,
        body !! f = Some (Str s) -> JSON_parse js s = None ->
        parse_fields js body !! f = Some (Str s))
  /\ ((forall s : string, body !! f <> Some (Str s)) ->
      parse_fields js body !! f = body !! f).
Proof.
  intros Hf.
  assert (Hin : f ∈ json_fields).
  { apply list_elem_of_In. exact Hf. }
  rewrite parse_fields_lookup.
  destruct (decide (f ∈ json_fields)) as [_|Hout]; [|contradiction].
  unfold normalized. repeat split.
  - intros s v -> ->. reflexivity.
  - intros s -> ->. reflexivity.
  - intros Hns. destruct (body !! f) as [[| |b|n|s|ps|es]|]; try reflexivity.
    now destruct (Hns s).
Qed.

(** A body whose five keys are all strings: four parse, one does not. *)
Lemma normalizer_parses_or_keeps_witness :
  let body : gmap string value :=
    <["personalInfo" := Str "{}"]>
    (<["address" := Str "[]"]>
    (<["employmentInfo" := Str "null"]>
    (<["loanDetails" := Str "{}"]>
    (<["dynamicFields" := Str "not json"]>
    (<["loanId" := Str "{}"]> ∅))))) in
  parse_fields example_host body !! "personalInfo" = Some (Obj [])
  /\ parse_fields example_host body !! "address" = Some (Arr [])
  /\ parse_fields example_host body !! "employmentInfo" = Some Null
  /\ parse_fields example_host body !! "loanDetails" = Some (Obj [])
  /\ parse_fields example_host body !! "dynamicFields" = Some (Str "not json").
Proof.
  intros body.
  split.
  { apply (proj1 (normalizer_parses_or_keeps example_host body "personalInfo"
                    ltac:(cbn; tauto)) "{}" (Obj []));
      reflexivity. }
  split.
  { apply (proj1 (normalizer_parses_or_keeps example_host body "address"
                    ltac:(cbn; tauto)) "[]" (Arr []));
      reflexivity. }
  split.
  { apply (proj1 (normalizer_parses_or_keeps example_host body "employmentInfo"
                    ltac:(cbn; tauto)) "null" Null);
      reflexivity. }
  split.
  { apply (proj1 (normalizer_parses_or_keeps example_host body "loanDetails"
                    ltac:(cbn; tauto)) "{}" (Obj []));
      reflexivity. }
  apply (proj1 (proj2 (normalizer_parses_or_keeps example_host body
                         "dynamicFields" ltac:(cbn; tauto))) "not json");
    reflexivity.
Defined.

(** ** The annual rate *)

Lemma resolve_rate_product (loan : Loan.t) :
  resolve_rate loan = product_rate loan.
Proof.
  unfold resolve_rate, product_rate.
  destruct (Loan.interestRate loan) as [[lo hi d]|]; cbn; [|reflexivity].
  destruct d as [d|]; [reflexivity|]. now destruct lo.
Qed.

Lemma product_rate_within_band (loan : Loan.t) :
  band_ordered loan -> within_band loan (product_rate loan).
Proof.
  unfold band_ordered, within_band, product_rate.
  destruct (Loan.interestRate loan) as [[[lo|] [hi|] [d|]]|]; cbn; tauto.
Qed.

(** C9. The rate stored with a created application is the rate of the
    product its loan reference resolves to: the default rate when the
    product has one, else its minimum rate when it has one, else zero; it
    depends on nothing but the product, and lies within the product's band
    when the band is ordered. *)
Theorem rate_of_created_application
    (js : Builtins) (w : World) (req : Request)
    (app : Application.t) (sent : EmailResult) (loan : Loan.t) :
  intake js w req = Next (app, sent) ->
  Loan_findById w (loan_reference (parse_fields js (req_body req))) = Some loan ->
  LoanDetails.interestRate (Application.loanDetails app)
  = Finite (product_rate loan)
  /\ (band_ordered loan -> within_band loan (product_rate loan)).
Proof.
  intros H Hloan.
  destruct (intake_Next js w req app sent H)
    as (files & dyn & loan' & a & tn & docs & dynf & emp
        & _ & Hterms & _ & _ & _ & _ & _ & Hld & _).
  destruct (check_terms_Next js w _ loan' _ _ Hterms) as (Hfound & _).
  rewrite Hloan in Hfound. injection Hfound as <-.
  rewrite Hld. cbn. rewrite resolve_rate_product.
  split; [reflexivity | apply product_rate_within_band].
Qed.

Lemma rate_of_created_application_witness :
  exists (app : Application.t) (sent : EmailResult),
    intake example_host (example_world delivered)
           (example_request [] twelve_months salaried) = Next (app, sent)
    /\ LoanDetails.interestRate (Application.loanDetails app) = Finite 12
    /\ within_band example_loan 12.
Proof.
  eexists. eexists. split; [vm_compute; reflexivity|].
  assert (Hband : band_ordered example_loan).
  { cbn. split; discriminate. }
  destruct (rate_of_created_application example_host (example_world delivered)
              (example_request [] twelve_months salaried) _ _ example_loan
              ltac:(vm_compute; reflexivity) ltac:(vm_compute; reflexivity))
    as [Hrate Hin].
  split; [exact Hrate | exact (Hin Hband)].
Defined.

(** ** Grouping the files *)

Lemma default_nonempty {A : Type} (l : list A) : default [] (nonempty l) = l.
Proof. now destruct l. Qed.

Lemma nonempty_snoc {A : Type} (l : list A) (x : A) :
  nonempty (l ++ [x]) = Some (l ++ [x]).
Proof. now destruct l. Qed.

Lemma own_lookup_store {A : Type} (k k' : string) (v : A) (m : list (string * A)) :
  own_lookup k' (own_store k v m)
  = if String.eqb k' k then Some v else own_lookup k' m.
Proof.
  induction m as [|[k0 v0] m IH]; cbn [own_store own_lookup].
  - reflexivity.
  - destruct (String.eqb_spec k k0) as [->|Hne]; cbn [own_lookup].
    + now destruct (String.eqb k' k0).
    + rewrite IH. destruct (String.eqb_spec k' k0) as [->|Hne'];
        [|reflexivity].
      destruct (String.eqb_spec k0 k) as [->|_]; [contradiction | reflexivity].
Qed.

Lemma own_store_keys {A : Type} (k : string) (v : A) (m : list (string * A)) :
  map fst (own_store k v m)
  = if existsb (String.eqb k) (map fst m) then map fst m else map fst m ++ [k].
Proof.
  induction m as [|[k0 v0] m IH]; cbn [own_store map fst existsb app].
  - reflexivity.
  - destruct (String.eqb k k0); cbn [orb map fst]; [reflexivity|].
    rewrite IH. now destruct (existsb (String.eqb k) (map fst m)).
Qed.

Lemma own_lookup_keys {A : Type} (k : string) (m : list (string * A)) :
  existsb (String.eqb k) (map fst m)
  = match own_lookup k m with Some _ => true | None => false end.
Proof.
  induction m as [|[k0 v0] m IH]; cbn [own_lookup map fst existsb].
  - reflexivity.
  - destruct (String.eqb k k0); [reflexivity | exact IH].
Qed.

Lemma push_file_Next (expr : string) (m m' : FileGroups) (k : string) (f : File) :
  push_file expr m k f = Next m' ->
  inherited k = false \/ (exists arr, own_lookup k m = Some arr).
Proof.
  unfold push_file. destruct (own_lookup k m) as [arr|]; [eauto|].
  destruct (inherited k); [discriminate | auto].
Qed.

Lemma push_file_lookup (expr : string) (m m' : FileGroups) (k k' : string)
    (f : File) :
  push_file expr m k f = Next m' ->
  own_lookup k' m'
  = if String.eqb k' k then Some (default [] (own_lookup k m) ++ [f])
    else own_lookup k' m.
Proof.
  unfold push_file. destruct (own_lookup k m) as [arr|] eqn:E.
  - intros [= <-]. apply own_lookup_store.
  - destruct (inherited k); [discriminate|].
    intros [= <-]. apply own_lookup_store.
Qed.

Lemma push_file_keys (expr : string) (m m' : FileGroups) (k : string) (f : File) :
  push_file expr m k f = Next m' ->
  map fst m'
  = if existsb (String.eqb k) (map fst m) then map fst m else map fst m ++ [k].
Proof.
  unfold push_file. destruct (own_lookup k m) as [arr|] eqn:E.
  - intros [= <-]. apply own_store_keys.
  - destruct (inherited k); [discriminate|].
    intros [= <-]. apply own_store_keys.
Qed.

Lemma first_seen_snoc (names : list string) (k : string) :
  first_seen (names ++ [k])
  = if existsb (String.eqb k) (first_seen names) then first_seen names
    else first_seen names ++ [k].
Proof. unfold first_seen. now rewrite fold_left_app. Qed.

Lemma under_snoc (k : string) (batch : list File) (f : File) :
  under k (batch ++ [f])
  = under k batch ++ (if String.eqb k (fieldname f) then [f] else []).
Proof. unfold under. rewrite List.filter_app. reflexivity. Qed.

Lemma dynamic_under_snoc (k : string) (batch : list File) (f : File) :
  dynamic_under k (batch ++ [f])
  = dynamic_under k batch
    ++ (if is_dynamic f && String.eqb k (dynamic_name f) then [f] else []).
Proof. unfold dynamic_under. rewrite List.filter_app. reflexivity. Qed.

Lemma dynamic_names_snoc (batch : list File) (f : File) :
  dynamic_names (batch ++ [f])
  = if is_dynamic f then
      (if existsb (String.eqb (dynamic_name f)) (dynamic_names batch)
       then dynamic_names batch
       else dynamic_names batch ++ [dynamic_name f])
    else dynamic_names batch.
Proof.
  unfold dynamic_names. rewrite List.filter_app. cbn [List.filter].
  destruct (is_dynamic f); cbn [app].
  - rewrite List.map_app. cbn [map]. apply first_seen_snoc.
  - now rewrite List.app_nil_r.
Qed.

Lemma grouped_nil : grouped [] [] [].
Proof. split; intros; reflexivity. Qed.

Lemma is_dynamic_fieldname (f : File) (k : string) :
  startsWith "dynamicFiles_" k = false -> is_dynamic f = true ->
  String.eqb k (fieldname f) = false.
Proof.
  intros Hk Hf. destruct (String.eqb_spec k (fieldname f)) as [->|]; [|reflexivity].
  unfold is_dynamic in Hf. congruence.
Qed.

Lemma plain_names_snoc (batch : list File) (f : File) :
  plain_names (batch ++ [f]) = plain_names batch && negb (inherited (slot f)).
Proof.
  unfold plain_names. rewrite forallb_app. cbn [forallb].
  now rewrite andb_true_r.
Qed.

(** A name under which a file is already filed is not an inherited one. *)
Lemma filed_not_inherited (batch : list File) (k : string) (l : list File)
    (select : File -> bool) :
  plain_names batch = true ->
  (forall f, select f = true -> slot f = k) ->
  nonempty (List.filter select batch) = Some l ->
  inherited k = false.
Proof.
  intros Hplain Hsel Hl.
  destruct (List.filter select batch) as [|f rest] eqn:E; [discriminate|].
  assert (Hin : In f (List.filter select batch)) by (rewrite E; now left).
  apply filter_In in Hin as [Hin Hf].
  unfold plain_names in Hplain. rewrite forallb_forall in Hplain.
  specialize (Hplain f Hin). rewrite (Hsel f Hf) in Hplain.
  now apply negb_true_iff in Hplain.
Qed.

Lemma group_file_grouped (batch : list File) (f : File)
    (files dynamicFiles files' dynamicFiles' : FileGroups) :
  grouped batch files dynamicFiles ->
  group_file (files, dynamicFiles) f = Next (files', dynamicFiles') ->
  grouped (batch ++ [f]) files' dynamicFiles'.
Proof.
  intros [Hs Hd Hn Hp] H. unfold group_file in H.
  fold (is_dynamic f) in H. fold (dynamic_name f) in H.
  destruct (is_dynamic f) eqn:Hdyn.
  - apply bind_Next in H as [dyn' [Hpush H]]. injection H as <- <-.
    split.
    + intros k Hk. rewrite under_snoc, (is_dynamic_fieldname f k Hk Hdyn).
      rewrite List.app_nil_r. now apply Hs.
    + intros k. rewrite (push_file_lookup _ _ _ _ k _ Hpush).
      rewrite dynamic_under_snoc, Hdyn. cbn [andb].
      destruct (String.eqb_spec k (dynamic_name f)) as [->|Hne].
      * rewrite Hd, default_nonempty. symmetry. apply nonempty_snoc.
      * rewrite List.app_nil_r. apply Hd.
    + rewrite (push_file_keys _ _ _ _ _ Hpush), dynamic_names_snoc, Hdyn, Hn.
      reflexivity.
    + rewrite plain_names_snoc, Hp. cbn [andb]. unfold slot. rewrite Hdyn.
      apply negb_true_iff.
      destruct (push_file_Next _ _ _ _ _ Hpush) as [Hi|[arr Harr]]; [exact Hi|].
      rewrite Hd in Harr.
      refine (filed_not_inherited batch _ arr _ Hp _ Harr).
      intros g Hg. apply andb_true_iff in Hg as [Hg1 Hg2].
      unfold slot. rewrite Hg1. apply String.eqb_eq in Hg2. now symmetry.
  - apply bind_Next in H as [files'' [Hpush H]]. injection H as <- <-.
    assert (Hfield : startsWith "dynamicFiles_" (fieldname f) = false)
      by exact Hdyn.
    split.
    + intros k Hk. rewrite (push_file_lookup _ _ _ _ k _ Hpush), under_snoc.
      destruct (String.eqb_spec k (fieldname f)) as [->|Hne].
      * rewrite (Hs _ Hfield), default_nonempty. symmetry. apply nonempty_snoc.
      * rewrite List.app_nil_r. now apply Hs.
    + intros k. rewrite dynamic_under_snoc, Hdyn. cbn [andb].
      rewrite List.app_nil_r. apply Hd.
    + now rewrite dynamic_names_snoc, Hdyn.
    + rewrite plain_names_snoc, Hp. cbn [andb]. unfold slot. rewrite Hdyn.
      apply negb_true_iff.
      destruct (push_file_Next _ _ _ _ _ Hpush) as [Hi|[arr Harr]]; [exact Hi|].
      rewrite (Hs _ Hfield) in Harr.
      refine (filed_not_inherited batch _ arr _ Hp _ Harr).
      intros g Hg. apply String.eqb_eq in Hg. unfold slot.
      destruct (is_dynamic g) eqn:Hgd; [|now symmetry].
      unfold is_dynamic in Hgd. congruence.
Qed.

Lemma group_files_grouped (rest : list File) :
  forall (done : list File) (files dynamicFiles files' dynamicFiles' : FileGroups),
    grouped done files dynamicFiles ->
    group_files rest (files, dynamicFiles) = Next (files', dynamicFiles') ->
    grouped (done ++ rest) files' dynamicFiles'.
Proof.
  induction rest as [|f rest IH]; intros done files dyn files' dyn' Hg H.
  - cbn in H. injection H as <- <-. now rewrite List.app_nil_r.
  - cbn [group_files] in H. apply bind_Next in H as [[files1 dyn1] [Hstep H]].
    replace (done ++ f :: rest) with ((done ++ [f]) ++ rest)
      by (now rewrite <- List.app_assoc).
    eapply IH; [|exact H]. eapply group_file_grouped; eassumption.
Qed.

Lemma organize_uploaded (req : Request) :
  organize (req_files req) = organize (Some (uploaded req)).
Proof. unfold uploaded. now destruct (req_files req). Qed.

Lemma organize_grouped (req : Request) (files dynamicFiles : FileGroups) :
  organize (req_files req) = Next (files, dynamicFiles) ->
  grouped (uploaded req) files dynamicFiles.
Proof.
  rewrite organize_uploaded. cbn [organize]. intros H.
  exact (group_files_grouped _ [] [] [] _ _ grouped_nil H).
Qed.

(** ** The documents *)

Lemma first_of_filter {A : Type} (p : A -> bool) (l : list A) :
  find p l = match List.filter p l with x :: _ => Some x | [] => None end.
Proof.
  induction l as [|x l IH]; cbn [find List.filter]; [reflexivity|].
  now destruct (p x).
Qed.

Lemma static_documents_grouped (batch : list File) (files dynamicFiles : FileGroups) :
  grouped batch files dynamicFiles ->
  static_documents files = fixed_documents batch ++ selfie_document batch.
Proof.
  intros [Hs _ _ _]. unfold static_documents, pushGroup, fixed_documents,
    selfie_document, first_selfie.
  rewrite !Hs by reflexivity. rewrite !default_nonempty.
  rewrite first_of_filter. fold (under "selfie" batch).
  cbn [flat_map fixed_slots fst snd app].
  destruct (under "selfie" batch) as [|selfieFile others]; cbn [nonempty];
    rewrite ?List.app_nil_r, <- ?List.app_assoc; reflexivity.
Qed.

Lemma dynamic_groups_documents (js : Builtins) (dynamicFiles : FileGroups)
    (keys : list string) :
  forall (documents documents' : list Document.t) (c c' : value),
    dynamic_groups js dynamicFiles keys (documents, c) = Next (documents', c') ->
    documents'
    = documents
      ++ flat_map
           (fun k => map (document ("Dynamic: " ++ k))
                         (default [] (own_lookup k dynamicFiles)))
           keys.
Proof.
  induction keys as [|k keys IH]; intros documents documents' c c' H.
  - cbn in H. injection H as <- <-. now rewrite List.app_nil_r.
  - cbn [dynamic_groups] in H. apply bind_Next in H as [[docs1 c1] [Hstep H]].
    unfold dynamic_group in Hstep.
    apply bind_Next in Hstep as [c0 [_ Hstep]].
    apply bind_Next in Hstep as [c2 [_ Hstep]].
    injection Hstep as <- <-.
    rewrite (IH _ _ _ _ H). cbn [flat_map]. now rewrite <- List.app_assoc.
Qed.

Lemma flat_map_ext_in {A B : Type} (f g : A -> list B) (l : list A) :
  (forall x, f x = g x) -> flat_map f l = flat_map g l.
Proof.
  intros E. induction l as [|x l IH]; cbn [flat_map]; [reflexivity|].
  now rewrite E, IH.
Qed.

(** The documents of a request whose files were grouped and assembled. *)
Lemma documents_assembled (js : Builtins) (req : Request)
    (data : gmap string value) (files dynamicFiles : FileGroups)
    (documents : list Document.t) (dynamicFields : value) :
  organize (req_files req) = Next (files, dynamicFiles) ->
  assemble_documents js files dynamicFiles data = Next (documents, dynamicFields) ->
  documents = documents_in_key_order (uploaded req).
Proof.
  intros Hgroup Hdocs. apply organize_grouped in Hgroup.
  unfold assemble_documents in Hdocs.
  apply dynamic_groups_documents in Hdocs. subst documents.
  rewrite (static_documents_grouped _ _ _ Hgroup).
  unfold documents_in_key_order, dynamic_documents, Object_keys.
  rewrite (grouped_names _ _ _ Hgroup), <- List.app_assoc.
  do 2 f_equal. apply flat_map_ext_in. intros k.
  now rewrite (grouped_dynamic _ _ _ Hgroup), default_nonempty.
Qed.

Lemma created_documents (js : Builtins) (w : World) (req : Request)
    (app : Application.t) (sent : EmailResult) :
  intake js w req = Next (app, sent) ->
  Application.documents app = documents_in_key_order (uploaded req)
  /\ plain_names (uploaded req) = true.
Proof.
  intros H.
  destruct (intake_Next js w req app sent H)
    as (files & dyn & loan & a & tn & docs & dynf & emp
        & Hgroup & _ & Hdocs & _ & _ & _ & _ & _ & Happ & _).
  rewrite Happ. split.
  - eapply documents_assembled; eassumption.
  - exact (grouped_plain _ _ _ (organize_grouped _ _ _ Hgroup)).
Qed.

(** C7 (as amended). The documents that the classifier makes of a batch,
    and so the documents of a created application, are in this order: the
    files under idProof, addressProof, incomeProof, bankStatement and
    otherDocuments (types ID, Address, Income, Bank Statement, Other), the
    selfie document, and the dynamic groups in the order of [Object.keys]:
    names that are array indices first, by ascending number, then the other
    names in the order they were first met. *)
Theorem documents_order (js : Builtins) (req : Request) :
  (forall (data : gmap string value) (files dynamicFiles : FileGroups)
          (documents : list Document.t) (dynamicFields : value),
      organize (req_files req) = Next (files, dynamicFiles) ->
      assemble_documents js files dynamicFiles data
      = Next (documents, dynamicFields) ->
      documents
      = fixed_documents (uploaded req) ++ selfie_document (uploaded req)
        ++ dynamic_documents (key_order (dynamic_names (uploaded req)))
                             (uploaded req))
  /\ (forall (w : World) (app : Application.t) (sent : EmailResult),
         intake js w req = Next (app, sent) ->
         Application.documents app
         = fixed_documents (uploaded req) ++ selfie_document (uploaded req)
           ++ dynamic_documents (key_order (dynamic_names (uploaded req)))
                                (uploaded req)).
Proof.
  split.
  - intros data files dyn docs dynf Hgroup Hdocs.
    exact (documents_assembled js req data files dyn docs dynf Hgroup Hdocs).
  - intros w app sent H. exact (proj1 (created_documents js w req app sent H)).
Qed.

Lemma documents_order_witness :
  exists (app : Application.t) (sent : EmailResult),
    intake example_host (example_world delivered)
           (example_request example_files twelve_months salaried)
    = Next (app, sent)
    /\ map Document.type (Application.documents app)
       = ["ID"; "Selfie"; "Dynamic: 1"; "Dynamic: 2";
          "Dynamic: salarySlip"; "Dynamic: salarySlip"].
Proof.
  eexists. eexists. split; [vm_compute; reflexivity|].
  rewrite (proj2 (documents_order example_host
                    (example_request example_files twelve_months salaried))
             (example_world delivered) _ _ ltac:(vm_compute; reflexivity)).
  vm_compute. reflexivity.
Defined.

(** The group [2] was met before the group [1], yet its document comes
    after: the documents are not in the order in which the names of the
    dynamic groups were first met. *)
Lemma documents_order_counterexample :
  exists (app : Application.t) (sent : EmailResult),
    intake example_host (example_world delivered)
           (example_request example_files twelve_months salaried)
    = Next (app, sent)
    /\ map Document.type (documents_in_encounter_order example_files)
       = ["ID"; "Selfie"; "Dynamic: 2"; "Dynamic: salarySlip";
          "Dynamic: salarySlip"; "Dynamic: 1"]
    /\ map Document.type (Application.documents app)
       = ["ID"; "Selfie"; "Dynamic: 1"; "Dynamic: 2";
          "Dynamic: salarySlip"; "Dynamic: salarySlip"]
    /\ Application.documents app <> documents_in_encounter_order example_files.
Proof.
  eexists. eexists. split; [vm_compute; reflexivity|].
  split; [vm_compute; reflexivity|].
  split; [vm_compute; reflexivity|].
  vm_compute. discriminate.
Qed.

Lemma no_selfie_among (type : string) (l : list File) :
  String.eqb type "Selfie" = false ->
  List.filter is_selfie (map (document type) l) = [].
Proof.
  intros Ht. induction l as [|f l IH]; [reflexivity|].
  cbn [map List.filter]. unfold is_selfie at 1. cbn [Document.type document].
  now rewrite Ht.
Qed.

Lemma no_selfie_among_dynamic (names : list string) (batch : list File) :
  List.filter is_selfie (dynamic_documents names batch) = [].
Proof.
  unfold dynamic_documents.
  induction names as [|k names IH]; [reflexivity|].
  cbn [flat_map]. rewrite List.filter_app, IH, List.app_nil_r.
  now apply no_selfie_among.
Qed.

Lemma selfie_among_documents (batch : list File) :
  List.filter is_selfie (documents_in_key_order batch) = selfie_document batch.
Proof.
  unfold documents_in_key_order. rewrite !List.filter_app.
  rewrite no_selfie_among_dynamic, List.app_nil_r.
  unfold fixed_documents. cbn [flat_map fixed_slots fst snd].
  rewrite !List.filter_app, !no_selfie_among by reflexivity.
  cbn [app]. unfold selfie_document. now destruct (first_selfie batch).
Qed.

(** Where the classifier completes the claim C6 holds. Among the
    documents that the classifier makes of a batch, and so among the
    documents of a created application, there is one of type Selfie when
    the batch has a file under [selfie], and none otherwise: it has the
    original name of the first such file of the batch, the url [/uploads/]
    followed by the stored name of that file, and the status Pending;
    further files under [selfie] leave no document. *)
Lemma selfie_document_single (js : Builtins) (req : Request) :
  (forall (data : gmap string value) (files dynamicFiles : FileGroups)
          (documents : list Document.t) (dynamicFields : value),
      organize (req_files req) = Next (files, dynamicFiles) ->
      assemble_documents js files dynamicFiles data
      = Next (documents, dynamicFields) ->
      List.filter is_selfie documents
      = match find (fun f => String.eqb "selfie" (fieldname f)) (uploaded req) with
        | Some f => [ {| Document.type := "Selfie";
                         Document.name := originalname f;
                         Document.url := "/uploads/" ++ filename f;
                         Document.status := Document.Pending |} ]
        | None => []
        end
      /\ length (List.filter is_selfie documents) <= 1)
  /\ (forall (w : World) (app : Application.t) (sent : EmailResult),
         intake js w req = Next (app, sent) ->
         List.filter is_selfie (Application.documents app)
         = match find (fun f => String.eqb "selfie" (fieldname f)) (uploaded req) with
           | Some f => [ {| Document.type := "Selfie";
                            Document.name := originalname f;
                            Document.url := "/uploads/" ++ filename f;
                            Document.status := Document.Pending |} ]
           | None => []
           end
         /\ length (List.filter is_selfie (Application.documents app)) <= 1).
Proof.
  assert (Hkey : forall batch : list File,
             List.filter is_selfie (documents_in_key_order batch)
             = match find (fun f => String.eqb "selfie" (fieldname f)) batch with
               | Some f => [ {| Document.type := "Selfie";
                                Document.name := originalname f;
                                Document.url := "/uploads/" ++ filename f;
                                Document.status := Document.Pending |} ]
               | None => []
               end
             /\ length (List.filter is_selfie (documents_in_key_order batch)) <= 1).
  { intros batch. rewrite selfie_among_documents.
    unfold selfie_document, first_selfie. split; [reflexivity|].
    destruct (find _ batch); cbn; lia. }
  split.
  - intros data files dyn docs dynf Hgroup Hdocs.
    rewrite (documents_assembled js req data files dyn docs dynf Hgroup Hdocs).
    apply Hkey.
  - intros w app sent H.
    destruct (created_documents js w req app sent H) as [-> _]. apply Hkey.
Qed.

Lemma selfie_document_single_example :
  exists (app : Application.t) (sent : EmailResult),
    intake example_host (example_world delivered)
           (example_request example_files twelve_months salaried)
    = Next (app, sent)
    /\ List.filter is_selfie (Application.documents app)
       = [ {| Document.type := "Selfie"; Document.name := "me.jpg";
              Document.url := "/uploads/1701-me.jpg";
              Document.status := Document.Pending |} ].
Proof.
  eexists. eexists. split; [vm_compute; reflexivity|].
  exact (proj1 (proj2 (selfie_document_single example_host
                         (example_request example_files twelve_months salaried))
                  (example_world delivered) _ _ ltac:(vm_compute; reflexivity))).
Qed.

(** C6, the failing input. A batch with a selfie and a file whose field
    name is [toString]: [files['toString']] is the inherited function, no
    array is made for the name, [push] is not a function, and the request
    ends with a 500: the batch has a file under [selfie] and no Selfie
    document, and no application, is made. *)
Lemma selfie_lost_with_inherited_name :
  first_selfie selfie_and_toString = Some (upload "selfie" "me.jpg" "1701-me.jpg")
  /\ submit example_host (example_world delivered)
            (example_request selfie_and_toString twelve_months salaried)
     = (failure 500 (Text "files[file.fieldname].push is not a function"), None).
Proof. split; vm_compute; reflexivity. Qed.

Lemma document_of_file (type : string) (select : File -> bool)
    (batch : list File) (d : Document.t) :
  In d (map (document type) (List.filter select batch)) ->
  exists f : File, In f batch /\ d = document type f.
Proof.
  intros Hd. apply in_map_iff in Hd as [f [<- Hf]].
  apply filter_In in Hf as [Hf _]. eauto.
Qed.

Lemma documents_from_files (batch : list File) (d : Document.t) :
  In d (documents_in_key_order batch) ->
  exists (type : string) (f : File), In f batch /\ d = document type f.
Proof.
  unfold documents_in_key_order. rewrite !in_app_iff.
  intros [Hd|[Hd|Hd]].
  - unfold fixed_documents in Hd. apply in_flat_map in Hd as [s [_ Hd]].
    apply document_of_file in Hd as [f Hf]. eauto.
  - unfold selfie_document, first_selfie in Hd.
    destruct (find _ batch) as [f|] eqn:E; [|contradiction].
    apply find_some in E as [Hf _]. destruct Hd as [<-|[]]. eauto.
  - unfold dynamic_documents in Hd. apply in_flat_map in Hd as [k [_ Hd]].
    apply document_of_file in Hd as [f Hf]. eauto.
Qed.

(** C10. Every document of a created application, whatever its slot, has
    the status Pending, the original name of an uploaded file of the batch
    and the url [/uploads/] followed by the stored name of that file. *)
Theorem documents_pending (js : Builtins) (w : World) (req : Request)
    (app : Application.t) (sent : EmailResult) (d : Document.t) :
  intake js w req = Next (app, sent) ->
  In d (Application.documents app) ->
  Document.status d = Document.Pending
  /\ exists f : File,
       In f (uploaded req)
       /\ Document.url d = ("/uploads/" ++ filename f)%string
       /\ Document.name d = originalname f.
Proof.
  intros H Hd. destruct (created_documents js w req app sent H) as [Hdocs _].
  rewrite Hdocs in Hd.
  apply documents_from_files in Hd as (type & f & Hf & ->).
  split; [reflexivity|]. exists f. repeat split; auto.
Qed.

Lemma documents_pending_witness :
  exists (app : Application.t) (sent : EmailResult),
    intake example_host (example_world delivered)
           (example_request example_files twelve_months salaried)
    = Next (app, sent)
    /\ Forall (fun d => Document.status d = Document.Pending)
              (Application.documents app)
    /\ map Document.url (Application.documents app)
       = ["/uploads/1703-passport.png"; "/uploads/1701-me.jpg";
          "/uploads/1705-bill.pdf"; "/uploads/1700-lease.pdf";
          "/uploads/1702-march.pdf"; "/uploads/1706-april.pdf"].
Proof.
  eexists. eexists. split; [vm_compute; reflexivity|].
  split; [|vm_compute; reflexivity].
  apply List.Forall_forall. intros d Hd.
  exact (proj1 (documents_pending example_host (example_world delivered)
                  (example_request example_files twelve_months salaried) _ _ d
                  ltac:(vm_compute; reflexivity) Hd)).
Defined.

(** ** The order of the checks *)

Lemma push_file_no_Reply (expr : string) (m : FileGroups) (k : string)
    (f : File) (r : Response) :
  push_file expr m k f <> Reply r.
Proof.
  unfold push_file. destruct (own_lookup k m); [discriminate|].
  destruct (inherited k); discriminate.
Qed.

Lemma group_files_no_Reply (batch : list File) :
  forall (acc : FileGroups * FileGroups) (r : Response),
    group_files batch acc <> Reply r.
Proof.
  induction batch as [|f batch IH]; intros [files dyn] r; [discriminate|].
  cbn [group_files]. unfold group_file.
  destruct (startsWith "dynamicFiles_" (fieldname f)).
  - destruct (push_file _ dyn _ f) as [dyn'| |] eqn:E; cbn;
      [apply IH | now apply push_file_no_Reply in E | discriminate].
  - destruct (push_file _ files _ f) as [files'| |] eqn:E; cbn;
      [apply IH | now apply push_file_no_Reply in E | discriminate].
Qed.

Lemma organize_no_Reply (fs : option (list File)) (r : Response) :
  organize fs <> Reply r.
Proof.
  destruct fs as [batch|]; cbn [organize]; [apply group_files_no_Reply|].
  discriminate.
Qed.

Lemma ToNumber_cases (js : Builtins) (v : value) :
  ToNumber js v = Next (number_of js v) \/ exists e, ToNumber js v = Throw e.
Proof.
  unfold number_of.
  destruct v; cbn [ToNumber]; auto;
    destruct (ObjectToNumber js _); eauto.
Qed.

Lemma assign_no_Reply (js : Builtins) (c : value) (k : string) (v : value)
    (r : Response) :
  assign js c k v <> Reply r.
Proof.
  destruct c; cbn [assign]; try discriminate.
  destruct (Array_assign js _ _ _); discriminate.
Qed.

Lemma dynamic_groups_no_Reply (js : Builtins) (dynamicFiles : FileGroups)
    (keys : list string) :
  forall (acc : list Document.t * value) (r : Response),
    dynamic_groups js dynamicFiles keys acc <> Reply r.
Proof.
  induction keys as [|k keys IH]; intros [docs c] r; [discriminate|].
  cbn [dynamic_groups]. unfold dynamic_group.
  destruct (negb (truthy (read js c k))).
  - destruct (assign js c k (Arr [])) as [c1| |] eqn:E1; cbn;
      [|now apply assign_no_Reply in E1 | discriminate].
    destruct (assign js c1 k _) as [c2| |] eqn:E2; cbn;
      [apply IH | now apply assign_no_Reply in E2 | discriminate].
  - cbn. destruct (assign js c k _) as [c2| |] eqn:E2; cbn;
      [apply IH | now apply assign_no_Reply in E2 | discriminate].
Qed.

Lemma assemble_documents_no_Reply (js : Builtins) (files dynamicFiles : FileGroups)
    (data : gmap string value) (r : Response) :
  assemble_documents js files dynamicFiles data <> Reply r.
Proof. apply dynamic_groups_no_Reply. Qed.

Lemma truthy_js_or_object (v : value) : truthy (js_or v (Obj [])) = true.
Proof. unfold js_or. now destruct (truthy v) eqn:E. Qed.

Lemma income_condition (m : number) :
  negb (truthy_number m) || isNaN m || le_zero m = negb (gt_zero m).
Proof.
  destruct m as [|[|]|q]; try reflexivity.
  cbn [truthy_number isNaN le_zero gt_zero].
  rewrite !negb_involutive, orb_false_r.
  destruct (Qeq_bool q 0) eqn:E; cbn [orb]; [|reflexivity].
  apply Qeq_bool_eq in E. symmetry. apply Qle_bool_iff. rewrite E.
  apply Qle_refl.
Qed.

Lemma find_first {A : Type} (p : A -> bool) (before after : list A) (c : A) :
  (forall x, In x before -> p x = false) -> p c = true ->
  find p (before ++ c :: after) = Some c.
Proof.
  intros Hbefore Hc. induction before as [|x before IH]; cbn [app find].
  - now rewrite Hc.
  - rewrite (Hbefore x) by now left.
    apply IH. intros y Hy. apply Hbefore. now right.
Qed.

Lemma bind_not_Throw {R A B : Type} (m : outcome R A) (k : A -> outcome R B) :
  (forall e, m ≫= k <> Throw e) ->
  (forall e, m <> Throw e) /\ (forall a, m = Next a -> forall e, k a <> Throw e).
Proof.
  intros H. split.
  - intros e ->. now apply (H e).
  - intros a -> e. apply (H e).
Qed.

(** The checks of the loan reference and the loan terms, in the order of
    the code: the first that is violated answers. *)
Lemma check_terms_outcome (js : Builtins) (w : World) (data : gmap string value) :
  (forall e, check_terms js w data <> Throw e) ->
  match find (violates js w data) (firstn 9 code_order) with
  | Some c => check_terms js w data = Reply (answer js data c)
  | None =>
      exists loan : Loan.t,
        check_terms js w data
        = Next (loan, number_of js (amount_raw data),
                number_of js (tenure_raw data))
  end.
Proof.
  intros Hnt. cbn [firstn code_order find violates].
  unfold check_terms in *.
  fold (loan_reference data) in *. fold (loan_details data) in *.
  fold (amount_raw data) in *. fold (tenure_raw data) in *.
  destruct (negb (truthy (loan_reference data))
            || negb (ObjectId_isValid w (loan_reference data)));
    cbn [reject_if mbind outcome_bind] in *; [reflexivity|].
  destruct (Loan_findById w (loan_reference data)) as [loan|];
    cbn [mbind outcome_bind] in *; [|reflexivity].
  assert (Hld : truthy (loan_details data) = true)
    by apply truthy_js_or_object.
  rewrite Hld in *. cbn [negb orb] in *.
  destruct (negb (typeof_object (loan_details data)) || no_keys (loan_details data));
    cbn [reject_if mbind outcome_bind] in *; [reflexivity|].
  destruct (not_provided (amount_raw data));
    cbn [reject_if mbind outcome_bind] in *; [reflexivity|].
  destruct (not_provided (tenure_raw data));
    cbn [reject_if mbind outcome_bind] in *; [reflexivity|].
  destruct (ToNumber_cases js (amount_raw data)) as [Ea|[e Ea]];
    rewrite Ea in *; cbn [mbind outcome_bind] in *;
    [|now destruct (Hnt e)].
  destruct (ToNumber_cases js (tenure_raw data)) as [Et|[e Et]];
    rewrite Et in *; cbn [mbind outcome_bind] in *;
    [|now destruct (Hnt e)].
  destruct (isNaN (number_of js (amount_raw data))
            || negb (Number_isFinite (number_of js (amount_raw data))));
    cbn [reject_if mbind outcome_bind] in *; [reflexivity|].
  destruct (isNaN (number_of js (tenure_raw data))
            || negb (Number_isFinite (number_of js (tenure_raw data))));
    cbn [reject_if mbind outcome_bind] in *; [reflexivity|].
  destruct (le_zero (number_of js (amount_raw data)));
    cbn [reject_if mbind outcome_bind] in *; [reflexivity|].
  destruct (le_zero (number_of js (tenure_raw data)));
    cbn [reject_if mbind outcome_bind] in *; [reflexivity|].
  now exists loan.
Qed.

Lemma trimmed_no_Reply (js : Builtins) (expr : string) (v : value) (r : Response) :
  trimmed js expr v <> Reply r.
Proof. destruct v; discriminate. Qed.

Lemma number_if_given_no_Reply (js : Builtins) (v : value) (r : Response) :
  number_if_given js v <> Reply r.
Proof.
  unfold number_if_given. destruct (truthy v); [|discriminate].
  destruct (ToNumber_cases js v) as [E|[e E]]; rewrite E; discriminate.
Qed.

(** Takes the next step [m] of a flow that replies nowhere and does not
    throw. *)
Ltac run_step Hnt lemma :=
  match goal with
  | |- context [mbind ?k ?m] =>
      let E := fresh "E" in
      destruct m eqn:E; cbn [mbind outcome_bind] in *;
      [ | now apply lemma in E | now destruct (Hnt _ eq_refl) ]
  end.

Lemma check_employment_outcome (js : Builtins) (w : World)
    (data : gmap string value) :
  (forall e, check_employment js data <> Throw e) ->
  match find (violates js w data) [EmploymentTypeGiven; IncomePositive] with
  | Some c => check_employment js data = Reply (answer js data c)
  | None => exists employmentInfo, check_employment js data = Next employmentInfo
  end.
Proof.
  intros Hnt. cbn [find violates].
  unfold check_employment in *. fold (employment data) in *.
  destruct (negb (truthy (get_prop (employment data) "employmentType")));
    cbn [orb reject_if mbind outcome_bind] in *; [reflexivity|].
  destruct (get_prop (employment data) "employmentType") as [| |b|n|s|ps|es];
    cbn [mbind outcome_bind] in *; try (now destruct (Hnt _ eq_refl)).
  destruct (String.eqb (String_trim js s) "");
    cbn [reject_if mbind outcome_bind] in *; [reflexivity|].
  destruct (ToNumber_cases js (get_prop (employment data) "monthlyIncome"))
    as [Em|[e Em]];
    rewrite Em in *; cbn [mbind outcome_bind] in *;
    [|now destruct (Hnt e)].
  rewrite income_condition in *.
  destruct (negb (gt_zero _));
    cbn [reject_if mbind outcome_bind] in *; [reflexivity|].
  run_step Hnt trimmed_no_Reply.
  run_step Hnt trimmed_no_Reply.
  run_step Hnt number_if_given_no_Reply.
  run_step Hnt trimmed_no_Reply.
  run_step Hnt number_if_given_no_Reply.
  eauto.
Qed.

Lemma find_app {A : Type} (p : A -> bool) (l1 l2 : list A) :
  find p (l1 ++ l2)
  = match find p l1 with Some x => Some x | None => find p l2 end.
Proof.
  induction l1 as [|x l1 IH]; cbn [app find]; [reflexivity|].
  now destruct (p x).
Qed.

(** A request that raises no exception is answered by the first violated
    check, and ends with a created application when no check is violated. *)
Lemma intake_outcome (js : Builtins) (w : World) (req : Request) :
  (forall e, intake js w req <> Throw e) ->
  match find (violates js w (parse_fields js (req_body req))) code_order with
  | Some c =>
      intake js w req = Reply (answer js (parse_fields js (req_body req)) c)
  | None => exists app sent, intake js w req = Next (app, sent)
  end.
Proof.
  intros Hnt. unfold intake in *.
  set (data := parse_fields js (req_body req)) in *.
  change code_order
    with (firstn 9 code_order ++ [EmploymentTypeGiven; IncomePositive]).
  rewrite find_app.
  destruct (organize (req_files req)) as [[files dyn]|r|e] eqn:Eorg;
    cbn [mbind outcome_bind] in *;
    [|now apply organize_no_Reply in Eorg | now destruct (Hnt e)].
  pose proof (check_terms_outcome js w data) as Hterms.
  destruct (check_terms js w data) as [[[loan a] tn]|r|e] eqn:Eterms;
    cbn [mbind outcome_bind] in *; [| |now destruct (Hnt e)].
  - specialize (Hterms ltac:(discriminate)).
    destruct (find (violates js w data) (firstn 9 code_order));
      [discriminate|]. clear Hterms.
    destruct (assemble_documents js files dyn data) as [[docs dynf]|r|e] eqn:Edocs;
      cbn [mbind outcome_bind] in *;
      [|now apply assemble_documents_no_Reply in Edocs | now destruct (Hnt e)].
    pose proof (check_employment_outcome js w data) as Hemp.
    destruct (check_employment js data) as [emp|r|e] eqn:Eemp;
      cbn [mbind outcome_bind] in *; [| |now destruct (Hnt e)].
    + specialize (Hemp ltac:(discriminate)).
      destruct (find (violates js w data) [EmploymentTypeGiven; IncomePositive]);
        [discriminate|].
      unfold Application_create in *.
      destruct (create_throws w _) as [e|]; cbn [mbind outcome_bind] in *;
        [now destruct (Hnt e) | eauto].
    + specialize (Hemp ltac:(discriminate)).
      destruct (find (violates js w data) [EmploymentTypeGiven; IncomePositive]);
        [now injection Hemp as -> | now destruct Hemp].
  - specialize (Hterms ltac:(discriminate)).
    destruct (find (violates js w data) (firstn 9 code_order));
      [now injection Hterms as -> | now destruct Hterms].
Qed.

(** C3 (as amended). The validator applies its checks in the order: loan
    reference given and well-formed; loan found; loan details a non-empty
    object; loan amount given; loan tenure given; loan amount a finite
    number; loan tenure a finite number; loan amount positive; loan tenure
    positive; employment type not blank after trimming; monthly income
    positive. On a request that raises no exception the first check
    violated in that order gives the response. *)
Theorem first_violated_check_answers
    (js : Builtins) (w : World) (req : Request)
    (c : check) (before after : list check) :
  code_order = before ++ c :: after ->
  (forall c', In c' before ->
              violates js w (parse_fields js (req_body req)) c' = false) ->
  violates js w (parse_fields js (req_body req)) c = true ->
  (forall e, intake js w req <> Throw e) ->
  (submit js w req).1 = answer js (parse_fields js (req_body req)) c.
Proof.
  intros Horder Hbefore Hc Hnt.
  pose proof (intake_outcome js w req Hnt) as H.
  rewrite Horder, (find_first _ before after c Hbefore Hc) in H.
  unfold submit. now rewrite H.
Qed.

Lemma first_violated_check_answers_witness :
  (submit example_host (example_world delivered)
          (example_request [] minus_five_for_abc salaried)).1
  = failure 400
      (Received "Loan tenure must be a valid number. Received: " (Str "abc")).
Proof.
  apply (first_violated_check_answers example_host (example_world delivered)
           (example_request [] minus_five_for_abc salaried) TenureNumeric
           [LoanIdValid; LoanFound; DetailsGiven; AmountGiven; TenureGiven;
            AmountNumeric]
           [AmountPositive; TenurePositive; EmploymentTypeGiven; IncomePositive]).
  - reflexivity.
  - intros c' Hc'. cbn [In] in Hc'.
    repeat (destruct Hc' as [<-|Hc']; [vm_compute; reflexivity|]).
    contradiction.
  - vm_compute. reflexivity.
  - intros e. vm_compute. discriminate.
Defined.

(** An amount of -5 with the tenure [abc]: of the six rules in the listed
    order the first one violated is the rule of the loan amount, and the
    response carries the message of the loan tenure, which is the message
    of no check of the loan amount. *)
Lemma listed_order_counterexample :
  let js := example_host in
  let w := example_world delivered in
  let req := example_request [] minus_five_for_abc salaried in
  let data := parse_fields js (req_body req) in
  first_violated js w data = Some LoanAmount
  /\ message (submit js w req).1
     = Received "Loan tenure must be a valid number. Received: " (Str "abc")
  /\ (submit js w req).1 = answer js data TenureNumeric
  /\ rule_of TenureNumeric = LoanTenure
  /\ forall c : check,
       rule_of c = LoanAmount -> (submit js w req).1 <> answer js data c.
Proof.
  cbv zeta. split; [vm_compute; reflexivity|].
  split; [vm_compute; reflexivity|].
  split; [vm_compute; reflexivity|].
  split; [reflexivity|].
  intros c Hc. destruct c; try discriminate Hc; vm_compute; discriminate.
Qed.

(** ** The confirmation mail *)

Lemma submit_sent (js : Builtins) (w : World) (req : Request) (sent : EmailResult) :
  (submit js w req).2 = Some sent ->
  exists app, intake js w req = Next (app, sent).
Proof.
  unfold submit. destruct (intake js w req) as [[app sent']|r|e];
    cbn; intros H; try discriminate.
  injection H as ->. eauto.
Qed.

(** The response is the same under any mail configuration and any answer of
    the transport. *)
Lemma response_without_mail (js : Builtins) (w : World) (req : Request)
    (env : gmap string string) (mail : Mail -> MailError + string) :
  (submit js (with_mail env mail w) req).1 = (submit js w req).1.
Proof.
  unfold submit, intake.
  destruct (organize (req_files req)) as [[files dyn]|r|e];
    cbn [mbind outcome_bind fst]; try reflexivity.
  change (check_terms js (with_mail env mail w))
    with (check_terms js w).
  destruct (check_terms js w _) as [[[loan a] tn]|r|e];
    cbn [mbind outcome_bind fst]; try reflexivity.
  destruct (assemble_documents js files dyn _) as [[docs dynf]|r|e];
    cbn [mbind outcome_bind fst]; try reflexivity.
  destruct (check_employment js _) as [emp|r|e];
    cbn [mbind outcome_bind fst]; try reflexivity.
  unfold Application_create. cbn [with_mail create_throws countDocuments].
  destruct (create_throws w _); cbn [mbind outcome_bind fst]; reflexivity.
Qed.

(** C4 (as amended). [sendEmail] reports a failure in its result and does
    not throw, and the handler does not look at the result: whenever the
    confirmation mail was attempted, delivered or not, the response is the
    201 with the created application, and it is the response the request
    gets under any other outcome of the mail. *)
Theorem submission_succeeds_whatever_the_mail
    (js : Builtins) (w : World) (req : Request) (sent : EmailResult) :
  (submit js w req).2 = Some sent ->
  (exists app : Application.t, (submit js w req).1 = created app)
  /\ (forall (env : gmap string string) (mail : Mail -> MailError + string),
         (submit js (with_mail env mail w) req).1 = (submit js w req).1).
Proof.
  intros H. split.
  - destruct (submit_sent js w req sent H) as [app Happ].
    exists app. unfold submit. now rewrite Happ.
  - intros env mail. apply response_without_mail.
Qed.

Lemma submission_succeeds_whatever_the_mail_witness :
  let run :=
    submit example_host (example_world refused)
           (example_request [] twelve_months salaried) in
  run.2 = Some (SendFailed "Invalid login" (Some "EAUTH")
                  ["Invalid EMAIL_USER or EMAIL_PASS";
                   "If Gmail: create 16-char App Password (account > Security)"]
                  (Some "AUTH PLAIN") None
                  (Some "smtp.example.org") (Some "587"))
  /\ exists app : Application.t, run.1 = created app.
Proof.
  cbv zeta. split; [vm_compute; reflexivity|].
  exact (proj1 (submission_succeeds_whatever_the_mail example_host
                  (example_world refused)
                  (example_request [] twelve_months salaried) _
                  ltac:(vm_compute; reflexivity))).
Defined.

(** The transport refuses the mail, [sendEmail] answers with
    [success: false], and the caller gets the 201 of a successful
    submission, not an error. *)
Lemma mail_failure_counterexample :
  let run :=
    submit example_host (example_world refused)
           (example_request [] twelve_months salaried) in
  (exists sent : EmailResult, run.2 = Some sent /\ email_success sent = false)
  /\ status_code run.1 = 201
  /\ success run.1 = true
  /\ message run.1 = Text "Application submitted successfully".
Proof.
  cbv zeta. split.
  - eexists. split; [vm_compute; reflexivity | reflexivity].
  - repeat split; vm_compute; reflexivity.
Qed.

(** ** The dynamic fields *)

Lemma group_files_Throw_TypeError (batch : list File) :
  forall (acc : FileGroups * FileGroups) (e : exn),
    group_files batch acc = Throw e -> exists m, e = TypeError m.
Proof.
  induction batch as [|f batch IH]; intros [files dyn] e; [discriminate|].
  cbn [group_files]. unfold group_file, push_file.
  destruct (startsWith "dynamicFiles_" (fieldname f)).
  - destruct (own_lookup _ dyn); cbn [mbind outcome_bind]; [apply IH|].
    destruct (inherited _); cbn [mbind outcome_bind]; [|apply IH].
    intros [= <-]. eauto.
  - destruct (own_lookup _ files); cbn [mbind outcome_bind]; [apply IH|].
    destruct (inherited _); cbn [mbind outcome_bind]; [|apply IH].
    intros [= <-]. eauto.
Qed.

(** A batch with a file filed under an inherited name is answered with a
    500 and creates nothing. *)
Lemma inherited_name_fails (js : Builtins) (w : World) (req : Request) :
  plain_names (uploaded req) = false ->
  exists m : string,
    submit js w req
    = (failure 500 (Text (if String.eqb m "" then "Server error" else m)), None).
Proof.
  intros Hplain. unfold submit, intake.
  destruct (organize (req_files req)) as [[files dyn]|r|e] eqn:Eorg;
    cbn [mbind outcome_bind].
  - apply organize_grouped in Eorg. apply grouped_plain in Eorg. congruence.
  - now apply organize_no_Reply in Eorg.
  - rewrite organize_uploaded in Eorg. cbn [organize] in Eorg.
    apply group_files_Throw_TypeError in Eorg as [m ->]. now exists m.
Qed.

(** C5, the failing input. One file uploaded for the dynamic field
    [constructor]: [dynamicFiles['constructor']] is the inherited member of
    the object literal, no array is made for the group, [push] is not a
    function; the request ends with a 500, without any document and without
    [dynamicFields.constructor]. *)
Lemma dynamic_field_constructor_fails :
  submit example_host (example_world delivered)
         (example_request [constructor_file] twelve_months salaried)
  = (failure 500 (Text "dynamicFiles[fieldName].push is not a function"), None).
Proof. vm_compute. reflexivity. Qed.

Lemma insert_by_index_In (e x : N * string) (l : list (N * string)) :
  In x (insert_by_index e l) <-> x = e \/ In x l.
Proof.
  induction l as [|h t IH]; cbn [insert_by_index In].
  - intuition.
  - destruct (fst e <? fst h)%N; cbn [In]; [intuition|].
    rewrite IH. intuition.
Qed.

Lemma sorted_entries_In (x : N * string) (l : list (N * string)) :
  In x (fold_right insert_by_index [] l) <-> In x l.
Proof.
  induction l as [|h t IH]; cbn [fold_right In]; [reflexivity|].
  rewrite insert_by_index_In, IH. intuition.
Qed.

Lemma index_entries_In (n : N) (k : string) (ks : list string) :
  In (n, k) (index_entries ks) <-> In k ks /\ array_index k = Some n.
Proof.
  induction ks as [|k0 ks IH]; cbn [index_entries In]; [tauto|].
  destruct (array_index k0) as [n0|] eqn:E; cbn [In]; rewrite IH.
  - split.
    + intros [[= <- <-]|[Hin Hk]]; auto.
    + intros [[<-|Hin] Hk]; [left; congruence | auto].
  - split.
    + intros [Hin Hk]; auto.
    + intros [[<-|Hin] Hk]; [congruence | auto].
Qed.

(** [Object.keys] lists the keys that were stored, each of them. *)
Lemma key_order_In (k : string) (ks : list string) :
  In k (key_order ks) <-> In k ks.
Proof.
  unfold key_order. rewrite in_app_iff, in_map_iff, filter_In. split.
  - intros [[[n k'] [<- Hin]]|[Hin _]]; [|exact Hin].
    apply sorted_entries_In, index_entries_In in Hin. apply Hin.
  - intros Hin. unfold is_array_index.
    destruct (array_index k) as [n|] eqn:E; [left | right; auto].
    exists (n, k). split; [reflexivity|].
    apply sorted_entries_In, index_entries_In. auto.
Qed.

Lemma existsb_eqb_In (k : string) (ks : list string) :
  existsb (String.eqb k) ks = true <-> In k ks.
Proof.
  rewrite existsb_exists. split.
  - intros [x [Hx E]]. apply String.eqb_eq in E. now subst.
  - intros Hk. exists k. split; [exact Hk | apply String.eqb_refl].
Qed.

Lemma dynamic_groups_fields (js : Builtins) (dynamicFiles : FileGroups)
    (keys : list string) :
  forall (documents documents' : list Document.t)
         (ps : list (string * value)) (c' : value),
    (forall k, In k keys -> String.eqb k "__proto__" = false) ->
    dynamic_groups js dynamicFiles keys (documents, Obj ps) = Next (documents', c') ->
    exists ps' : list (string * value),
      c' = Obj ps'
      /\ forall k : string,
           own_lookup k ps'
           = if existsb (String.eqb k) keys
             then Some (Arr (map file_ref (default [] (own_lookup k dynamicFiles))))
             else own_lookup k ps.
Proof.
  induction keys as [|k0 keys IH]; intros docs docs' ps c' Hkeys H.
  - cbn in H. injection H as <- <-. now exists ps.
  - cbn [dynamic_groups] in H. unfold dynamic_group in H.
    set (refs := Arr (map file_ref (default [] (own_lookup k0 dynamicFiles)))) in *.
    assert (Hstep : exists ps1,
               (forall k, own_lookup k ps1
                          = if String.eqb k k0 then Some refs else own_lookup k ps)
               /\ dynamic_groups js dynamicFiles keys
                    (docs ++ map (document ("Dynamic: " ++ k0))
                                 (default [] (own_lookup k0 dynamicFiles)),
                     Obj ps1)
                  = Next (docs', c')).
    { assert (Hk0 : String.eqb k0 "__proto__" = false) by (apply Hkeys; now left).
      destruct (negb (truthy (read js (Obj ps) k0)));
        cbn [mbind outcome_bind assign] in H; rewrite Hk0 in H;
        cbn [mbind outcome_bind assign] in H; rewrite ?Hk0 in H;
        cbn [mbind outcome_bind] in H.
      - eexists. split; [|exact H].
        intros k. rewrite !own_lookup_store. now destruct (String.eqb k k0).
      - eexists. split; [|exact H].
        intros k. now rewrite own_lookup_store. }
    destruct Hstep as [ps1 [Hps1 Hrest]].
    destruct (IH _ _ _ _ (fun k Hk => Hkeys k (or_intror Hk)) Hrest)
      as [ps' [-> Hps']].
    exists ps'. split; [reflexivity|].
    intros k. rewrite Hps', Hps1. cbn [existsb].
    destruct (existsb (String.eqb k) keys); [now rewrite orb_true_r|].
    rewrite orb_false_r.
    destruct (String.eqb_spec k k0) as [->|]; reflexivity.
Qed.

(** Away from the inherited names the claim C5 holds: when the submitted
    [dynamicFields] is an object (or absent), a created application holds,
    under the name of each dynamic group, the list of [{name, url}] of the
    files of the group, whatever was there before, and what was submitted
    under every other name. *)
Lemma dynamic_fields_of_created_application
    (js : Builtins) (w : World) (req : Request)
    (app : Application.t) (sent : EmailResult) (ps : list (string * value)) :
  intake js w req = Next (app, sent) ->
  js_or (field (parse_fields js (req_body req)) "dynamicFields") (Obj []) = Obj ps ->
  forall k : string,
    get_prop (Application.dynamicFields app) k
    = if existsb (String.eqb k) (dynamic_names (uploaded req))
      then Arr (map file_ref (dynamic_under k (uploaded req)))
      else get_prop (Obj ps) k.
Proof.
  intros H Hobj.
  destruct (intake_Next js w req app sent H)
    as (files & dyn & loan & a & tn & docs & dynf & emp
        & Hgroup & _ & Hdocs & _ & _ & _ & _ & _ & _ & Happ & _).
  apply organize_grouped in Hgroup. destruct Hgroup as [_ Hd Hn Hp].
  unfold assemble_documents in Hdocs. rewrite Hobj in Hdocs.
  apply dynamic_groups_fields in Hdocs as [ps' [-> Hps']].
  - intros k. rewrite Happ. cbn [get_prop]. rewrite Hps'.
    assert (E : existsb (String.eqb k) (Object_keys dyn)
                = existsb (String.eqb k) (dynamic_names (uploaded req))).
    { apply eq_true_iff_eq. rewrite !existsb_eqb_In. unfold Object_keys.
      now rewrite key_order_In, Hn. }
    rewrite E. destruct (existsb _ (dynamic_names (uploaded req))); [|reflexivity].
    now rewrite Hd, default_nonempty.
  - intros k Hk. unfold Object_keys in Hk.
    apply (proj1 (key_order_In _ _)) in Hk.
    apply (proj2 (existsb_eqb_In _ _)) in Hk. rewrite own_lookup_keys in Hk.
    destruct (own_lookup k dyn) as [arr|] eqn:Earr; [|discriminate].
    rewrite Hd in Earr.
    assert (Hi : inherited k = false).
    { refine (filed_not_inherited (uploaded req) _ arr _ Hp _ Earr).
      intros g Hg. apply andb_true_iff in Hg as [Hg1 Hg2].
      unfold slot. rewrite Hg1. apply String.eqb_eq in Hg2. now symmetry. }
    destruct (String.eqb_spec k "__proto__") as [->|]; [discriminate | reflexivity].
Qed.

(** ** When the classifier completes *)

Lemma group_files_completes (batch : list File) :
  forall acc : FileGroups * FileGroups,
    plain_names batch = true ->
    exists acc', group_files batch acc = Next acc'.
Proof.
  induction batch as [|f batch IH]; intros [files dyn] Hplain; [cbn; eauto|].
  unfold plain_names in Hplain. cbn [forallb] in Hplain.
  apply andb_true_iff in Hplain as [Hf Hrest]. apply negb_true_iff in Hf.
  unfold slot, is_dynamic, dynamic_name in Hf.
  cbn [group_files]. unfold group_file, push_file.
  destruct (startsWith "dynamicFiles_" (fieldname f)).
  - destruct (own_lookup _ dyn); cbn [mbind outcome_bind];
      [apply IH; exact Hrest|].
    rewrite Hf. cbn [mbind outcome_bind]. apply IH; exact Hrest.
  - destruct (own_lookup _ files); cbn [mbind outcome_bind];
      [apply IH; exact Hrest|].
    rewrite Hf. cbn [mbind outcome_bind]. apply IH; exact Hrest.
Qed.

Lemma assign_object (js : Builtins) (ps : list (string * value)) (k : string)
    (v : value) :
  exists ps', assign js (Obj ps) k v = Next (Obj ps').
Proof. cbn [assign]. destruct (String.eqb k "__proto__"); eauto. Qed.

Lemma dynamic_groups_completes (js : Builtins) (dynamicFiles : FileGroups)
    (keys : list string) :
  forall (documents : list Document.t) (ps : list (string * value)),
    exists documents' ps',
      dynamic_groups js dynamicFiles keys (documents, Obj ps)
      = Next (documents', Obj ps').
Proof.
  induction keys as [|k keys IH]; intros docs ps; [cbn; eauto|].
  cbn [dynamic_groups]. unfold dynamic_group.
  destruct (negb (truthy (read js (Obj ps) k))).
  - destruct (assign_object js ps k (Arr [])) as [ps1 E1].
    rewrite E1. cbn [mbind outcome_bind].
    destruct (assign_object js ps1 k
                (Arr (map file_ref (default [] (own_lookup k dynamicFiles)))))
      as [ps2 E2].
    rewrite E2. cbn [mbind outcome_bind]. apply IH.
  - cbn [mbind outcome_bind].
    destruct (assign_object js ps k
                (Arr (map file_ref (default [] (own_lookup k dynamicFiles)))))
      as [ps2 E2].
    rewrite E2. cbn [mbind outcome_bind]. apply IH.
Qed.

(** The classifier completes on every batch without an inherited name, the
    submitted [dynamicFields] being an object or absent. *)
Lemma classifier_completes (js : Builtins) (req : Request)
    (data : gmap string value) (ps : list (string * value)) :
  plain_names (uploaded req) = true ->
  js_or (field data "dynamicFields") (Obj []) = Obj ps ->
  exists files dynamicFiles documents dynamicFields,
    organize (req_files req) = Next (files, dynamicFiles)
    /\ assemble_documents js files dynamicFiles data
       = Next (documents, dynamicFields).
Proof.
  intros Hplain Hobj. rewrite organize_uploaded. cbn [organize].
  destruct (group_files_completes (uploaded req) ([], []) Hplain)
    as [[files dyn] Hgroup].
  unfold assemble_documents. rewrite Hobj.
  destruct (dynamic_groups_completes js dyn (Object_keys dyn)
              (static_documents files) ps) as (docs & ps' & Hdocs).
  exists files, dyn, docs, (Obj ps'). split; assumption.
Qed.

(** * Properties of the surrounding code *)

(** ** The mail configuration *)

Lemma env_empty_unset (env : gmap string string) (k : string) :
  env_empty env k = true -> env_unset env k = true.
Proof. unfold env_empty, env_unset. now destruct (env !! k). Qed.

Lemma filter_nil_iff {A : Type} (p : A -> bool) (l : list A) :
  List.filter p l = [] <-> forallb (fun x => negb (p x)) l = true.
Proof.
  induction l as [|x l IH]; cbn [List.filter forallb]; [tauto|].
  destruct (p x); cbn [negb andb]; [|exact IH].
  split; discriminate.
Qed.

Lemma filter_incl_filter {A : Type} (p q : A -> bool) (l : list A) :
  (forall x, p x = true -> q x = true) ->
  incl (List.filter p l) (List.filter q l).
Proof.
  intros Hpq x Hx. apply filter_In in Hx as [Hin Hp].
  apply filter_In. auto.
Qed.

Lemma forallb_pointwise {A : Type} (f g : A -> bool) (l : list A) :
  (forall x, f x = g x) -> forallb f l = forallb g l.
Proof.
  intros E. induction l as [|x l IH]; cbn [forallb]; [reflexivity|].
  now rewrite E, IH.
Qed.

Lemma configured_unset (env : gmap string string) :
  configured env = forallb (fun k => negb (env_unset env k)) required_vars.
Proof.
  unfold configured. apply forallb_pointwise. intros k. unfold env_unset.
  now destruct (env !! k).
Qed.

Lemma preflight_ok (env : gmap string string) :
  (preflight env).1.1.1 = configured env.
Proof.
  unfold preflight. cbn [fst].
  destruct (List.filter (env_unset env) required_vars) as [|k missing] eqn:Em.
  - assert (He : List.filter (env_empty env) required_vars = []).
    { apply incl_l_nil. rewrite <- Em.
      apply filter_incl_filter, env_empty_unset. }
    rewrite He. symmetry. rewrite configured_unset.
    now apply filter_nil_iff.
  - symmetry. rewrite configured_unset.
    destruct (forallb _ required_vars) eqn:E; [|reflexivity].
    apply filter_nil_iff in E. congruence.
Qed.

(** X1. [sendEmail] asks the transport exactly when each of EMAIL_HOST,
    EMAIL_PORT, EMAIL_USER and EMAIL_PASS is set and not empty, and then
    its result is the answer of the transport: the message id, or the
    message and the code of the error. Otherwise it answers, whatever the
    transport would do, with the incomplete configuration: the names that
    are unset or empty, at least one, among them every name it lists as
    empty. *)
Theorem sendEmail_asks_when_configured
    (env : gmap string string) (to : value) (subject : string) :
  (configured env = true ->
   forall mail : Mail -> MailError + string,
     sendEmail env mail to subject
     = match mail {| mail_from := env_or env "EMAIL_FROM" "EMAIL_USER";
                     mail_to := to; mail_subject := subject |} with
       | inr messageId => Sent messageId
       | inl err =>
           SendFailed (err_message err) (err_code err) (classifyError err)
                      (err_command err) (err_response err)
                      (env !! "EMAIL_HOST") (env !! "EMAIL_PORT")
       end)
  /\ (configured env = false ->
      exists (missing empty : list string) (hint : option string),
        missing <> []
        /\ (forall k, In k missing <->
                      In k required_vars
                      /\ (env !! k = None \/ env !! k = Some ""))
        /\ incl empty missing
        /\ forall mail : Mail -> MailError + string,
             sendEmail env mail to subject = ConfigIncomplete missing empty hint).
Proof.
  pose proof (preflight_ok env) as Hok. unfold sendEmail.
  destruct (preflight env) as [[[ok missing] empty] hint] eqn:Epre.
  cbn [fst] in Hok. subst ok. split.
  - intros Hc mail. rewrite Hc. reflexivity.
  - intros Hc. exists missing, empty, hint. rewrite Hc. cbn [negb].
    assert (Em : List.filter (env_unset env) required_vars = missing)
      by (unfold preflight in Epre; congruence).
    assert (Ee : List.filter (env_empty env) required_vars = empty)
      by (unfold preflight in Epre; congruence).
    clear Epre. split; [|split; [|split]].
    + intros Hnil. rewrite Hnil in Em.
      apply filter_nil_iff in Em. rewrite <- configured_unset in Em. congruence.
    + intros k. rewrite <- Em, filter_In. unfold env_unset. split.
      * intros [Hin Hu]. split; [exact Hin|].
        destruct (env !! k) as [v|]; [|now left].
        apply String.eqb_eq in Hu. subst v. now right.
      * intros [Hin Hu]. split; [exact Hin|].
        destruct Hu as [-> | ->]; reflexivity.
    + rewrite <- Em, <- Ee. apply filter_incl_filter, env_empty_unset.
    + reflexivity.
Qed.

Lemma sendEmail_asks_when_configured_witness :
  sendEmail example_env (fun _ => delivered) (Str "a@example.org") "Hello"
  = Sent "<1@example.org>"
  /\ exists (missing empty : list string) (hint : option string),
       missing <> []
       /\ forall mail : Mail -> MailError + string,
            sendEmail example_env_no_pass mail (Str "a@example.org") "Hello"
            = ConfigIncomplete missing empty hint.
Proof.
  split.
  - exact (proj1 (sendEmail_asks_when_configured example_env
                    (Str "a@example.org") "Hello")
             ltac:(vm_compute; reflexivity) (fun _ => delivered)).
  - destruct (proj2 (sendEmail_asks_when_configured example_env_no_pass
                       (Str "a@example.org") "Hello")
                ltac:(vm_compute; reflexivity))
      as (missing & empty & hint & Hne & _ & _ & Hall).
    exists missing, empty, hint. split; assumption.
Defined.

Lemma count_occ_filter_absent (p : string -> bool) (l : list string) (k : string) :
  ~ In k l -> count_occ string_dec (List.filter p l) k = 0.
Proof.
  intros Hk. apply count_occ_not_In. intros Hin.
  apply filter_In in Hin as [Hin _]. contradiction.
Qed.

Lemma count_occ_filter_once (p : string -> bool) (l : list string) (k : string) :
  List.NoDup l -> In k l ->
  count_occ string_dec (List.filter p l) k = if p k then 1 else 0.
Proof.
  induction 1 as [|x l Hx Hnd IH]; intros Hk; [contradiction|].
  cbn [List.filter]. destruct (string_dec x k) as [->|Hne].
  - destruct (p k); cbn [count_occ].
    + destruct (string_dec k k) as [_|Hkk]; [|contradiction].
      now rewrite count_occ_filter_absent.
    + now apply count_occ_filter_absent.
  - destruct Hk as [Hk|Hk]; [contradiction|].
    destruct (p x); cbn [count_occ]; [|now apply IH].
    destruct (string_dec x k) as [Hxk|_]; [contradiction | now apply IH].
Qed.

Lemma required_vars_NoDup : List.NoDup required_vars.
Proof.
  unfold required_vars. repeat constructor; cbn [In]; intros H;
    repeat (destruct H as [H|H]; [discriminate H|]); exact H.
Qed.

Lemma listed_names_nil (env : gmap string string) :
  listed_names env = [] <-> configured env = true.
Proof.
  unfold listed_names. rewrite configured_unset, <- filter_nil_iff. split.
  - intros H. now apply app_eq_nil in H as [H _].
  - intros H. rewrite H. cbn [app]. apply incl_l_nil.
    rewrite <- H. apply filter_incl_filter, env_empty_unset.
Qed.

(** X2. [verifySMTP] asks the transport to verify exactly when the four
    variables are set and not empty. In the names of its error
    [Missing/empty: ...] a variable that is unset comes once and a variable
    that is set to the empty string comes twice; a variable with a value
    does not come. *)
Theorem verifySMTP_names (env : gmap string string) (k : string) :
  In k required_vars ->
  count_occ string_dec (listed_names env) k
  = match env !! k with
    | None => 1
    | Some s => if String.eqb s "" then 2 else 0
    end
  /\ (forall (verify : option MailError) (verified : bool),
         verifySMTP env verify verified
         = if configured env then
             match verify with
             | None => (Verified, true)
             | Some err => (NotVerified (err_message err) (err_code err), verified)
             end
           else
             (NotVerified ("Missing/empty: " ++ join ", " (listed_names env)) None,
              verified)).
Proof.
  intros Hk. split.
  - unfold listed_names. rewrite count_occ_app.
    rewrite !count_occ_filter_once by (apply required_vars_NoDup || exact Hk).
    unfold env_unset, env_empty. destruct (env !! k) as [s|]; [|reflexivity].
    now destruct (String.eqb s "").
  - intros verify verified. unfold verifySMTP.
    destruct (listed_names env) as [|n rest] eqn:E.
    + apply listed_names_nil in E. now rewrite E.
    + destruct (configured env) eqn:Hc; [|reflexivity].
      apply listed_names_nil in Hc. congruence.
Qed.

Lemma verifySMTP_names_witness :
  listed_names example_env_no_pass = ["EMAIL_PASS"; "EMAIL_PASS"]
  /\ count_occ string_dec (listed_names example_env_no_pass) "EMAIL_PASS" = 2.
Proof.
  split; [vm_compute; reflexivity|].
  exact (proj1 (verifySMTP_names example_env_no_pass "EMAIL_PASS"
                  ltac:(cbn; tauto))).
Defined.

(** ** The instalment of a loan product *)

Lemma safeNum_safe (js : Builtins) (v x : value) :
  safeNum js v = Next x -> safe x.
Proof.
  unfold safeNum, safe.
  destruct (is_string "" v || nullish v || is_string "NaN" v).
  - intros [= <-]. now left.
  - destruct (ToNumber_cases js v) as [E|[e E]]; rewrite E;
      cbn [mbind outcome_bind]; [|discriminate].
    destruct (number_of js v) as [|neg|q]; cbn [Number_isFinite];
      intros [= <-]; eauto.
Qed.

Lemma safeNum_of_safe (js : Builtins) (v : value) :
  safe v -> safeNum js v = Next v.
Proof. intros [->|[q ->]]; reflexivity. Qed.

Lemma loan_pre_validate_Next (js : Builtins) (this ld : LoanTerms) :
  loan_pre_validate js this = Next ld ->
  exists P R n e : value,
    safeNum js (principal this) = Next P
    /\ safeNum js (annualRate this) = Next R
    /\ safeNum js (tenureMonths this) = Next n
    /\ safeNum js (terms_emi this) = Next e
    /\ principal ld = P /\ annualRate ld = R /\ tenureMonths ld = n
    /\ terms_emi ld
       = if nullish e && truthy P && truthy R && truthy n
         then product_emi js {| principal := P; annualRate := R;
                                tenureMonths := n; terms_emi := e |}
         else e.
Proof.
  intros H. unfold loan_pre_validate in H.
  apply bind_Next in H as [P [HP H]]. apply bind_Next in H as [R [HR H]].
  apply bind_Next in H as [n [Hn H]]. apply bind_Next in H as [e [He H]].
  exists P, R, n, e.
  destruct (nullish e && truthy P && truthy R && truthy n);
    injection H as <-; repeat split; assumption.
Qed.

Lemma Qmake_100 (z : Z) : ((z # 100) * 100 == inject_Z z)%Q.
Proof. unfold Qeq, Qmult, inject_Z. cbn. lia. Qed.

Lemma rounded_to_cents (m : Q) :
  (m - (1 # 200) <= Qfloor (m * 100 + (1 # 2)) # 100
   /\ Qfloor (m * 100 + (1 # 2)) # 100 <= m + (1 # 200))%Q.
Proof.
  pose proof (Qfloor_le (m * 100 + (1 # 2))) as Hlo.
  pose proof (Qlt_floor (m * 100 + (1 # 2))) as Hhi.
  rewrite inject_Z_plus in Hhi.
  pose proof (Qmake_100 (Qfloor (m * 100 + (1 # 2)))) as E.
  set (y := (Qfloor (m * 100 + (1 # 2)) # 100)) in *.
  set (z := inject_Z (Qfloor (m * 100 + (1 # 2)))) in *.
  change (inject_Z 1) with 1%Q in Hhi.
  split; lra.
Qed.

(** [toFixed(2)] moves a number by half a hundredth at most. *)
Lemma toFixed2_near (x : Q) :
  (x - (1 # 200) <= toFixed2 x /\ toFixed2 x <= x + (1 # 200))%Q.
Proof.
  unfold toFixed2.
  pose proof (rounded_to_cents (Qabs x)) as [Hlo Hhi].
  destruct (Qle_bool 0 x) eqn:Hx.
  - apply Qle_bool_iff in Hx. pose proof (Qabs_pos x Hx) as E.
    destruct (Qle_bool _ (Qabs x)).
    + set (m := Qabs x) in *. split; lra.
    + set (y := Qfloor _ # 100) in *. set (m := Qabs x) in *. split; lra.
  - assert (Hneg : (x <= 0)%Q).
    { destruct (Qlt_le_dec x 0) as [Hlt|Hge]; [now apply Qlt_le_weak|].
      apply Qle_bool_iff in Hge. congruence. }
    pose proof (Qabs_neg x Hneg) as E.
    destruct (Qle_bool _ (Qabs x)).
    + set (m := Qabs x) in *. split; lra.
    + set (y := Qfloor _ # 100) in *. set (m := Qabs x) in *. split; lra.
Qed.

(** Below [10^21] the decimal of [toFixed(2)] is a number of hundredths:
    of [n] hundredths for the integer [n] nearest to [100 x], the upper one
    at a tie when [x] is not negative. *)
Lemma toFixed2_cents (x : Q) :
  Qle_bool (inject_Z (10 ^ 21)) (Qabs x) = false ->
  exists n : Z,
    toFixed2 x = n # 100
    /\ ((0 <= x)%Q -> n = Qfloor (x * 100 + (1 # 2))).
Proof.
  intros E. unfold toFixed2. rewrite E.
  destruct (Qle_bool 0 x) eqn:Hx.
  - exists (Qfloor (Qabs x * 100 + (1 # 2))). split; [reflexivity|].
    intros H0. apply Qfloor_comp. now rewrite (Qabs_pos x H0).
  - exists (- Qfloor (Qabs x * 100 + (1 # 2)))%Z. split; [reflexivity|].
    intros H0. apply Qle_bool_iff in H0. congruence.
Qed.

Lemma below_10_21 (x : Q) :
  Qle_bool (inject_Z (10 ^ 21)) (Qabs x) = false ->
  (- inject_Z (10 ^ 21) < x /\ x < inject_Z (10 ^ 21))%Q.
Proof.
  intros E. apply Qabs_Qlt_condition. apply Qnot_le_lt. intros H.
  apply Qle_bool_iff in H. congruence.
Qed.

(** [Number(x.toFixed(2))] is a finite number. *)
Lemma Number_toFixed2_finite (x : Q) :
  exists q : Q, Number_toFixed2 x = Finite q.
Proof.
  unfold Number_toFixed2.
  destruct (Qle_bool (inject_Z (10 ^ 21)) (Qabs x)) eqn:E; [eauto|].
  apply below_10_21 in E as [Hlo Hhi].
  destruct (toFixed2_near x) as [H1 H2].
  assert (Hc : (inject_Z (10 ^ 21) + (1 # 200) <= inject_Z (2 ^ 70))%Q)
    by (vm_compute; discriminate).
  set (a := inject_Z (10 ^ 21)) in *. set (b := inject_Z (2 ^ 70)) in *.
  apply round_double_finite; fold b; lra.
Qed.

Lemma product_emi_safe (js : Builtins) (ld : LoanTerms) :
  safe (terms_emi ld) -> safe (product_emi js ld).
Proof.
  intros He. unfold product_emi.
  destruct (principal ld) as [| | |P| | |]; try exact He.
  destruct (annualRate ld) as [| | |R| | |]; try exact He.
  destruct (tenureMonths ld) as [| | |n| | |]; try exact He.
  destruct (_ && _ && _); [|exact He].
  destruct (js_div (js_mul _ _) _) as [| |emi]; try exact He.
  destruct (Number_toFixed2_finite emi) as [q ->]. right. eauto.
Qed.

Lemma loan_pre_validate_safe (js : Builtins) (this ld : LoanTerms) :
  loan_pre_validate js this = Next ld ->
  safe (principal ld) /\ safe (annualRate ld) /\ safe (tenureMonths ld)
  /\ safe (terms_emi ld).
Proof.
  intros H.
  destruct (loan_pre_validate_Next js this ld H)
    as (P & R & n & e & HP & HR & Hn & He & -> & -> & -> & ->).
  apply safeNum_safe in HP, HR, Hn, He. repeat split; try assumption.
  destruct (_ && _ && _ && _); [|exact He].
  now apply product_emi_safe.
Qed.

(** X3. After the hook each of principal, annualRate, tenureMonths and emi
    is [undefined] or a finite number: the empty string, [null], the text
    [NaN] and whatever does not convert to a finite number are dropped. *)
Theorem loan_terms_normalised (js : Builtins) (this ld : LoanTerms) :
  loan_pre_validate js this = Next ld ->
  safe (principal ld) /\ safe (annualRate ld) /\ safe (tenureMonths ld)
  /\ safe (terms_emi ld).
Proof.
  intros H.
  destruct (loan_pre_validate_Next js this ld H)
    as (P & R & n & e & HP & HR & Hn & He & -> & -> & -> & ->).
  apply safeNum_safe in HP, HR, Hn, He.
  split; [exact HP|]. split; [exact HR|]. split; [exact Hn|].
  destruct (nullish e && truthy P && truthy R && truthy n); [|exact He].
  now apply product_emi_safe.
Qed.

Lemma loan_terms_normalised_witness :
  exists ld : LoanTerms,
    loan_pre_validate example_host untidy_terms = Next ld
    /\ principal ld = Undefined /\ safe (tenureMonths ld)
    /\ terms_emi ld = Num (Finite 250).
Proof.
  eexists. split; [vm_compute; reflexivity|].
  split; [reflexivity|]. split; [|reflexivity].
  refine (proj1 (proj2 (proj2 (loan_terms_normalised example_host
                                 untidy_terms _ _)))).
  vm_compute. reflexivity.
Defined.

(** X4. The hook keeps an instalment that is given: when the emi of the
    document converts to a finite number, the emi after the hook is that
    number, whatever principal, rate and tenure are. *)
Theorem loan_emi_kept (js : Builtins) (this ld : LoanTerms) (e : number) :
  loan_pre_validate js this = Next ld ->
  safeNum js (terms_emi this) = Next (Num e) ->
  terms_emi ld = Num e.
Proof.
  intros H He.
  destruct (loan_pre_validate_Next js this ld H)
    as (P & R & n & e' & _ & _ & _ & He' & _ & _ & _ & ->).
  rewrite He in He'. injection He' as <-. reflexivity.
Qed.

Lemma loan_emi_kept_witness :
  exists ld : LoanTerms,
    loan_pre_validate example_host example_terms_with_emi = Next ld
    /\ terms_emi ld = Num (Finite 9000).
Proof.
  eexists. split; [vm_compute; reflexivity|].
  apply (loan_emi_kept example_host example_terms_with_emi);
    vm_compute; reflexivity.
Defined.

Lemma product_emi_cases (js : Builtins) (P R n : value) :
  (forall e, product_emi js {| principal := P; annualRate := R;
                               tenureMonths := n; terms_emi := e |} = e)
  \/ (exists q, forall e,
         product_emi js {| principal := P; annualRate := R;
                           tenureMonths := n; terms_emi := e |}
         = Num (Finite q)).
Proof.
  unfold product_emi. cbn [principal annualRate tenureMonths terms_emi].
  destruct P as [| | |Pn| | |]; try (left; reflexivity).
  destruct R as [| | |Rn| | |]; try (left; reflexivity).
  destruct n as [| | |nn| | |]; try (left; reflexivity).
  destruct (_ && _ && _); [|left; reflexivity].
  destruct (js_div (js_mul _ _) _) as [| |emi]; try (left; reflexivity).
  destruct (Number_toFixed2_finite emi) as [q ->]. right. eauto.
Qed.

(** X5. The hook run on its own result changes nothing. *)
Theorem loan_pre_validate_idempotent (js : Builtins) (this ld : LoanTerms) :
  loan_pre_validate js this = Next ld ->
  loan_pre_validate js ld = Next ld.
Proof.
  intros H.
  destruct (loan_pre_validate_safe js this ld H) as (HP & HR & Hn & He).
  destruct (loan_pre_validate_Next js this ld H)
    as (P & R & n & e & _ & _ & _ & He0 & EP & ER & En & Ee).
  unfold loan_pre_validate.
  rewrite !safeNum_of_safe by assumption. cbn [mbind outcome_bind].
  destruct ld as [P' R' n' e']. cbn [principal annualRate tenureMonths terms_emi] in *.
  subst P' R' n'.
  destruct (nullish e' && truthy P && truthy R && truthy n) eqn:Hc;
    [|reflexivity].
  apply andb_true_iff in Hc as [Hc Htn]. apply andb_true_iff in Hc as [Hc HtR].
  apply andb_true_iff in Hc as [Hnull HtP].
  rewrite HtP, HtR, Htn, !andb_true_r in Ee.
  do 2 f_equal.
  destruct (product_emi_cases js P R n) as [Hkeep|[q Hq]].
  - apply Hkeep.
  - destruct (nullish e) eqn:Hne.
    + rewrite Hq in Ee. subst e'. discriminate Hnull.
    + subst e'. congruence.
Qed.

Lemma loan_pre_validate_idempotent_witness :
  exists ld : LoanTerms,
    loan_pre_validate example_host example_terms = Next ld
    /\ loan_pre_validate example_host ld = Next ld.
Proof.
  eexists. split; [vm_compute; reflexivity|].
  apply (loan_pre_validate_idempotent example_host example_terms).
  vm_compute. reflexivity.
Defined.

(** A quotient by a positive number is positive only for a positive
    dividend. *)
Lemma js_div_positive (a : number) (c : Q) :
  (0 < c)%Q -> gt_zero (js_div a (Finite c)) = true -> gt_zero a = true.
Proof.
  intros Hc. assert (Ec : Qle_bool 0 c = true).
  { apply Qle_bool_iff. now apply Qlt_le_weak. }
  destruct a as [|negative|x]; cbn [js_div is_negative gt_zero].
  - discriminate.
  - rewrite Ec. now destruct negative.
  - rewrite (Qeq_bool_false_of_lt c Hc). intros H.
    apply round_double_positive in H.
    apply negb_true_iff, Qle_bool_false_iff.
    assert (E : (x == x / c * c)%Q) by (field; lra).
    rewrite E. apply Qmult_lt_0_compat; assumption.
Qed.

Lemma product_rate_positive (R : number) :
  gt_zero (js_div (js_div R (Finite 12)) (Finite 100)) = true ->
  gt_zero R = true.
Proof.
  intros H. apply js_div_positive in H; [|reflexivity].
  now apply js_div_positive in H.
Qed.

(** What the hook stores for numbers that pass its tests. *)
Lemma product_emi_double (js : Builtins) (P t : Q) (R : Q) (e : value) :
  (0 < P)%Q -> (0 < t)%Q -> gt_zero (product_rate_double R) = true ->
  product_emi js {| principal := Num (Finite P); annualRate := Num (Finite R);
                    tenureMonths := Num (Finite t); terms_emi := e |}
  = match amortized_double (Math_pow js) (Finite P) (product_rate_double R)
            (Finite t) with
    | Finite q => Num (Number_toFixed2 q)
    | _ => e
    end.
Proof.
  intros HP Ht Hr. unfold product_emi, amortized_double.
  cbn [principal annualRate tenureMonths terms_emi gt_zero].
  fold (product_rate_double R). rewrite Hr.
  rewrite (proj2 (Qle_bool_false_iff P) HP), (proj2 (Qle_bool_false_iff t) Ht).
  cbn [negb andb]. now destruct (js_div _ _).
Qed.

(** X6. For loan details with a positive principal [P], a positive tenure
    [n], an annual rate [R] whose monthly rate [r = R / 12 / 100] in double
    precision is above 0, and no instalment, the hook evaluates
    [q = P r (1+r)^n / ((1+r)^n - 1)] in double precision from left to
    right. When [q] is finite and below [10^21] it stores the double
    nearest to [k / 100], where the integer [k] is within a half of [100 q]
    (for [q >= 0] the nearest one, the upper one at a tie); from [10^21] on
    it stores [q]; when [q] is an infinity or not a number it stores no
    instalment. *)
Theorem loan_emi_computed (js : Builtins) (this ld : LoanTerms) (P R t : Q) :
  loan_pre_validate js this = Next ld ->
  principal this = Num (Finite P) -> annualRate this = Num (Finite R) ->
  tenureMonths this = Num (Finite t) ->
  safeNum js (terms_emi this) = Next Undefined ->
  (0 < P)%Q -> (0 < t)%Q -> gt_zero (product_rate_double R) = true ->
  match amortized_double (Math_pow js) (Finite P) (product_rate_double R)
          (Finite t) with
  | Finite q =>
      (Qle_bool (inject_Z (10 ^ 21)) (Qabs q) = false ->
       exists k : Z,
         terms_emi ld = Num (round_double (k # 100))
         /\ (q - (1 # 200) <= k # 100 /\ k # 100 <= q + (1 # 200))%Q
         /\ ((0 <= q)%Q -> k = Qfloor (q * 100 + (1 # 2))))
      /\ (Qle_bool (inject_Z (10 ^ 21)) (Qabs q) = true ->
          terms_emi ld = Num (Finite q))
  | _ => terms_emi ld = Undefined
  end.
Proof.
  intros H EP ER Et He HP Ht Hr.
  destruct (loan_pre_validate_Next js this ld H)
    as (P' & R' & n' & e' & HP' & HR' & Hn' & He' & _ & _ & _ & ->).
  rewrite EP in HP'. rewrite ER in HR'. rewrite Et in Hn'. rewrite He in He'.
  injection HP' as <-. injection HR' as <-. injection Hn' as <-.
  injection He' as <-.
  assert (HR : (0 < R)%Q).
  { apply product_rate_positive in Hr. cbn [gt_zero] in Hr.
    now apply negb_true_iff, Qle_bool_false_iff in Hr. }
  cbn [nullish truthy truthy_number].
  rewrite !Qeq_bool_false_of_lt by assumption. cbn [negb andb].
  rewrite (product_emi_double js P t R _ HP Ht Hr).
  destruct (amortized_double _ _ _ _) as [| |q]; try reflexivity.
  unfold Number_toFixed2. split; intros E; rewrite E; [|reflexivity].
  destruct (toFixed2_cents q E) as (k & Ek & Hk).
  exists k. rewrite Ek. split; [reflexivity|]. split; [|exact Hk].
  rewrite <- Ek. apply toFixed2_near.
Qed.

(** A product of 3 at 2 percent over one month: the quotient comes out just
    below 3.005 and the stored instalment is 3. *)
Lemma loan_emi_computed_witness :
  exists ld : LoanTerms,
    loan_pre_validate example_host one_month_terms = Next ld
    /\ terms_emi ld = Num (Finite 3).
Proof.
  eexists. split; [vm_compute; reflexivity|].
  pose proof (loan_emi_computed example_host one_month_terms _ 3 2 1
                ltac:(vm_compute; reflexivity) eq_refl eq_refl eq_refl eq_refl
                eq_refl eq_refl ltac:(vm_compute; reflexivity)) as H.
  remember (amortized_double _ _ _ _) as A eqn:Eq in H.
  vm_compute in Eq. subst A. cbv beta iota in H. destruct H as [H _].
  destruct (H ltac:(vm_compute; reflexivity)) as (k & -> & _ & Hk).
  rewrite (Hk ltac:(vm_compute; discriminate)). vm_compute. reflexivity.
Defined.

(** X7. The hook invents no instalment: when none is given and the emi
    after the hook is a number, then principal, annual rate and tenure are
    positive numbers. *)
Theorem loan_emi_needs_inputs (js : Builtins) (this ld : LoanTerms) (e : number) :
  loan_pre_validate js this = Next ld ->
  safeNum js (terms_emi this) = Next Undefined ->
  terms_emi ld = Num e ->
  positive_value (principal ld) = true
  /\ positive_value (annualRate ld) = true
  /\ positive_value (tenureMonths ld) = true.
Proof.
  intros H He Hemi.
  destruct (loan_pre_validate_Next js this ld H)
    as (P & R & n & e' & _ & _ & _ & He' & -> & -> & -> & Ee).
  rewrite He in He'. injection He' as <-. rewrite Ee in Hemi. clear Ee.
  destruct (nullish Undefined && truthy P && truthy R && truthy n);
    [|discriminate Hemi].
  unfold product_emi in Hemi. cbn [principal annualRate tenureMonths terms_emi] in Hemi.
  destruct P as [| | |Pn| | |]; try discriminate Hemi.
  destruct R as [| | |Rn| | |]; try discriminate Hemi.
  destruct n as [| | |nn| | |]; try discriminate Hemi.
  destruct (gt_zero Pn) eqn:HP; [|discriminate Hemi].
  destruct (gt_zero (js_div (js_div Rn (Finite 12)) (Finite 100))) eqn:HR;
    [|discriminate Hemi].
  destruct (gt_zero nn) eqn:Hn; [|discriminate Hemi].
  cbn [positive_value]. rewrite HP, Hn. repeat split.
  now apply product_rate_positive.
Qed.

Lemma loan_emi_needs_inputs_witness :
  exists ld : LoanTerms,
    loan_pre_validate example_host example_terms = Next ld
    /\ positive_value (principal ld) = true
    /\ positive_value (annualRate ld) = true
    /\ positive_value (tenureMonths ld) = true.
Proof.
  eexists. split; [vm_compute; reflexivity|].
  eapply (loan_emi_needs_inputs example_host example_terms);
    vm_compute; reflexivity.
Defined.

(** ** The responses of a submission *)

Lemma answer_failure (js : Builtins) (data : gmap string value) (c : check) :
  exists m : Message,
    (c <> LoanFound /\ answer js data c = failure 400 m)
    \/ (c = LoanFound /\ answer js data c = failure 404 m).
Proof.
  destruct c; cbn [answer]; unfold employment_required, income_required;
    eexists; ((left; split; [discriminate | reflexivity])
              || (right; split; reflexivity)).
Qed.

Lemma on_error_failure (e : exn) :
  exists m : Message, on_error e = failure 400 m \/ on_error e = failure 500 m.
Proof.
  destruct e as [m|m errors|m]; cbn [on_error]; eauto.
  destruct (own_lookup _ errors); eauto.
Qed.

(** The three ways a request ends. *)
Lemma submit_cases (js : Builtins) (w : World) (req : Request) :
  (exists app sent,
      intake js w req = Next (app, sent)
      /\ submit js w req = (created app, Some sent))
  \/ (exists c,
         find (violates js w (parse_fields js (req_body req))) code_order = Some c
         /\ submit js w req = (answer js (parse_fields js (req_body req)) c, None))
  \/ (exists e, intake js w req = Throw e /\ submit js w req = (on_error e, None)).
Proof.
  unfold submit.
  destruct (intake js w req) as [[app sent]|r|e] eqn:E.
  - left. eauto.
  - right. left.
    assert (Hnt : forall e, intake js w req <> Throw e) by (intros e; congruence).
    pose proof (intake_outcome js w req Hnt) as H.
    destruct (find _ code_order) as [c|].
    + exists c. split; [reflexivity|]. congruence.
    + destruct H as (app & sent & H). congruence.
  - right. right. eauto.
Qed.

(** X8. Whatever the request, the response has one of the status codes
    201, 400, 404 and 500; [success] is true exactly with the 201, which is
    exactly when the response carries an application and exactly when the
    confirmation mail was attempted; a 404 means that no loan was found
    under the reference. *)
Theorem submit_response_shape (js : Builtins) (w : World) (req : Request) :
  let r := (submit js w req).1 in
  In (status_code r) [201; 400; 404; 500]
  /\ (success r = true <-> status_code r = 201)
  /\ (status_code r = 201 <-> exists app, data r = Some app)
  /\ (status_code r = 201 <-> exists sent, (submit js w req).2 = Some sent)
  /\ (status_code r = 404 ->
      Loan_findById w (loan_reference (parse_fields js (req_body req))) = None).
Proof.
  cbv zeta.
  destruct (submit_cases js w req)
    as [(app & sent & _ & ->)|[(c & Hc & ->)|(e & _ & ->)]]; cbn [fst snd].
  - cbn. repeat split; eauto; discriminate.
  - destruct (answer_failure js (parse_fields js (req_body req)) c)
      as [m [[Hne ->]|[-> ->]]]; cbn.
    + repeat split; try discriminate; try tauto;
        try (intros [x Hx]; discriminate Hx).
    + repeat split; try discriminate; try tauto;
        try (intros [x Hx]; discriminate Hx).
      intros _. apply find_some in Hc as [_ Hc]. cbn [violates] in Hc.
      now destruct (Loan_findById w _).
  - destruct (on_error_failure e) as [m [-> | ->]]; cbn;
      repeat split; try discriminate; try tauto;
        try (intros [x Hx]; discriminate Hx).
Qed.

Lemma every_check_listed (c : check) : In c code_order.
Proof. destruct c; cbn; tauto. Qed.

(** X9. A request that raises no exception creates an application exactly
    when it violates none of the eleven checks. *)
Theorem created_iff_checks_pass (js : Builtins) (w : World) (req : Request) :
  (forall e, intake js w req <> Throw e) ->
  (exists app sent, intake js w req = Next (app, sent))
  <-> (forall c, violates js w (parse_fields js (req_body req)) c = false).
Proof.
  intros Hnt. pose proof (intake_outcome js w req Hnt) as H.
  destruct (find _ code_order) as [c|] eqn:E.
  - apply find_some in E as [_ Hc]. split.
    + intros (app & sent & Happ). congruence.
    + intros Hall. rewrite Hall in Hc. discriminate.
  - split; [|intros _; exact H].
    intros _ c.
    pose proof (find_none _ _ E c (every_check_listed c)) as Hc. exact Hc.
Qed.

Lemma created_iff_checks_pass_witness :
  exists (app : Application.t) (sent : EmailResult),
    intake example_host (example_world delivered)
           (example_request [] twelve_months salaried)
    = Next (app, sent).
Proof.
  apply (created_iff_checks_pass example_host (example_world delivered)
           (example_request [] twelve_months salaried)).
  - intros e. vm_compute. discriminate.
  - intros c. destruct c; vm_compute; reflexivity.
Defined.

(** ** The employment information of a created application *)





(** ** The decisions of an admin *)

Lemma sendEmail_of_primitive (env : gmap string string)
    (sm sm' : Envelope -> MailError + string) (message address : string) :
  sm (unaddressed env) = sm' (unaddressed env) ->
  sendEmail_of env sm message (Str address)
  = sendEmail_of env sm' message (Str address).
Proof.
  intros H. unfold sendEmail_of. cbn [nullish get_prop].
  destruct (preflight env) as [[[ok missing] empty] hint].
  destruct (negb ok); [reflexivity|].
  fold (unaddressed env). now rewrite H.
Qed.

Lemma notify_unaddressed (o : Office) (sm : Envelope -> MailError + string)
    (application : Application.t) (message : string) :
  addressed_by_strings o ->
  sm (unaddressed (office_env o)) = office_sendMail o (unaddressed (office_env o)) ->
  notify (with_transport sm o) application message = notify o application message.
Proof.
  intros Hs H. unfold notify. cbn [with_transport User_findById office_env
                                    office_sendMail nullish_message].
  destruct (User_findById o _) as [account|] eqn:E; [|reflexivity].
  destruct (Hs _ _ E) as [address ->].
  now rewrite (sendEmail_of_primitive (office_env o) sm (office_sendMail o)).
Qed.

(** X11. The mails of an approval and of a rejection have no recipient:
    [sendEmail] takes one object and is called with the address, the
    subject and the body as three arguments, so the transport is asked to
    send a mail whose [to], [subject], [html] and [text] are undefined.
    Both routes end the same with any two transports that answer alike to
    that one mail. *)
Theorem decision_mail_unaddressed (o : Office)
    (sm : Envelope -> MailError + string)
    (actor : Actor) (id : string) (rejectionReason : value) :
  addressed_by_strings o ->
  sm (unaddressed (office_env o)) = office_sendMail o (unaddressed (office_env o)) ->
  approve (with_transport sm o) actor id = approve o actor id
  /\ reject (with_transport sm o) actor id rejectionReason
     = reject o actor id rejectionReason.
Proof.
  intros Hs H. split.
  - unfold approve, save.
    cbn [with_transport Application_findById save_throws clock office_count].
    destruct (negb (is_admin actor)); [reflexivity|].
    destruct (Application_findById o id) as [e|[a|]]; try reflexivity.
    destruct (save_throws o _); [reflexivity|].
    now apply notify_unaddressed.
  - unfold reject, save, reason_text.
    cbn [with_transport Application_findById save_throws clock office_count
         cast_String].
    destruct (negb (is_admin actor)); [reflexivity|].
    destruct (Application_findById o id) as [e|[a|]]; try reflexivity.
    destruct (match js_or rejectionReason (Str default_reason) with
              | Str s => inr s
              | v => cast_String o v
              end) as [e|reason]; [reflexivity|].
    destruct (save_throws o _); [reflexivity|].
    now apply notify_unaddressed.
Qed.

Lemma example_office_addressed (mail : Envelope -> MailError + string) :
  addressed_by_strings (example_office mail).
Proof.
  intros u account. cbn [example_office User_findById].
  destruct (String.eqb u "u1"); [|discriminate].
  intros [= <-]. eauto.
Qed.

Lemma decision_mail_unaddressed_witness :
  mailed (approve (example_office addressed_only) example_admin "a1")
  = mailed (approve (example_office (fun _ => refused)) example_admin "a1")
  /\ exists error code suggestions command response host port,
       mailed (approve (example_office addressed_only) example_admin "a1")
       = Some (SendFailed error code suggestions command response host port).
Proof.
  split.
  - change (example_office addressed_only)
      with (with_transport addressed_only (example_office (fun _ => refused))).
    now rewrite (proj1 (decision_mail_unaddressed
                          (example_office (fun _ => refused)) addressed_only
                          example_admin "a1" Undefined
                          (example_office_addressed _) eq_refl)).
  - do 7 eexists. vm_compute. reflexivity.
Defined.

Lemma notify_saved (o : Office) (application : Application.t) (message : string) :
  saved (notify o application message) = Some application.
Proof.
  unfold notify. destruct (User_findById o _); [|reflexivity].
  now destruct (sendEmail_of _ _ _ _).
Qed.

Lemma notify_answer (o : Office) (application a : Application.t) (message : string) :
  answer_data (answered (notify o application message)) = Some a ->
  a = application
  /\ answer_status (answered (notify o application message)) = 200
  /\ exists result, mailed (notify o application message) = Some result.
Proof.
  unfold notify. destruct (User_findById o _); [|discriminate].
  destruct (sendEmail_of _ _ _ _); [discriminate|].
  cbn. intros [= <-]. eauto.
Qed.

Lemma pre_save_decided (count : nat) (a : Application.t) :
  is_Draft (Application.status a) = false ->
  no_number (Application.applicationNumber (pre_save count a)) = false
  /\ (no_number (Application.applicationNumber a) = false ->
      Application.applicationNumber (pre_save count a)
      = Application.applicationNumber a)
  /\ Application.status (pre_save count a) = Application.status a
  /\ Application.userId (pre_save count a) = Application.userId a
  /\ Application.loanDetails (pre_save count a) = Application.loanDetails a
  /\ Application.documents (pre_save count a) = Application.documents a
  /\ Application.approvedAt (pre_save count a) = Application.approvedAt a
  /\ Application.approvedBy (pre_save count a) = Application.approvedBy a
  /\ Application.rejectedAt (pre_save count a) = Application.rejectedAt a
  /\ Application.rejectionReason (pre_save count a)
     = Application.rejectionReason a.
Proof.
  intros Hs. unfold pre_save. rewrite Hs.
  destruct (no_number (Application.applicationNumber a)) eqn:Hn; cbn.
  - repeat split; congruence.
  - repeat split; congruence.
Qed.

(** X12. What an approval stores. A document is saved only for an admin and
    an application that exists; the saved document is Approved, stamped
    with the time and the admin, keeps the applicant, the loan details and
    the documents, has an application number (its own when it had one) and
    keeps what an earlier rejection left. The response carries a document
    only with the status 200, and then the saved one. *)
Theorem approve_saves (o : Office) (actor : Actor) (id : string)
    (a : Application.t) :
  saved (approve o actor id) = Some a ->
  is_admin actor = true
  /\ exists a0 : Application.t,
       Application_findById o id = inr (Some a0)
       /\ Application.status a = Approved
       /\ Application.approvedAt a = Some (clock o)
       /\ Application.approvedBy a = Some (actor_id actor)
       /\ no_number (Application.applicationNumber a) = false
       /\ (no_number (Application.applicationNumber a0) = false ->
           Application.applicationNumber a = Application.applicationNumber a0)
       /\ Application.userId a = Application.userId a0
       /\ Application.loanDetails a = Application.loanDetails a0
       /\ Application.documents a = Application.documents a0
       /\ Application.rejectedAt a = Application.rejectedAt a0
       /\ Application.rejectionReason a = Application.rejectionReason a0
       /\ forall a' : Application.t,
            answer_data (answered (approve o actor id)) = Some a' ->
            a' = a /\ answer_status (answered (approve o actor id)) = 200.
Proof.
  unfold approve, save.
  destruct (is_admin actor); cbn [negb]; [|discriminate].
  destruct (Application_findById o id) as [e|[a0|]]; try discriminate.
  destruct (save_throws o _); [discriminate|].
  rewrite notify_saved. intros [= <-]. split; [reflexivity|].
  exists a0. split; [reflexivity|].
  destruct (pre_save_decided (office_count o)
              (Application.approved (clock o) (actor_id actor) a0) eq_refl)
    as (H1 & H2 & H3 & H4 & H5 & H6 & H7 & H8 & H9 & H10).
  do 10 (split; [reflexivity || assumption|]).
  intros a' Ha'. apply notify_answer in Ha' as (-> & Hst & _). now split.
Qed.

Lemma approve_saves_witness :
  exists a : Application.t,
    saved (approve (example_office addressed_only) example_admin "a1") = Some a
    /\ Application.status a = Approved
    /\ Application.applicationNumber a = Some "APP000042".
Proof.
  eexists. split; [vm_compute; reflexivity|].
  destruct (approve_saves (example_office addressed_only) example_admin "a1" _
              eq_refl) as (_ & a0 & _ & Hs & _).
  split; [exact Hs | vm_compute; reflexivity].
Defined.

Lemma reason_text_given (o : Office) (rejectionReason : value) (r : string) :
  reason_text o rejectionReason = inr r ->
  (forall s, rejectionReason = Str s -> r = if String.eqb s "" then default_reason else s)
  /\ (truthy rejectionReason = false -> r = default_reason)
  /\ ((exists s, rejectionReason = Str s) \/ truthy rejectionReason = false ->
      r <> "").
Proof.
  unfold reason_text, js_or. intros H.
  assert (Hd : default_reason <> "") by discriminate.
  destruct (truthy rejectionReason) eqn:Ht.
  - destruct rejectionReason as [| |b|n|s|ps|es]; try discriminate Ht.
    + split; [discriminate|]. split; [discriminate|].
      intros [[s Hs]|Hf]; discriminate.
    + split; [discriminate|]. split; [discriminate|].
      intros [[s Hs]|Hf]; discriminate.
    + injection H as <-. cbn [truthy] in Ht.
      apply negb_true_iff in Ht. split.
      * intros s' [= <-]. now rewrite Ht.
      * split; [discriminate|]. intros _. now apply String.eqb_neq.
    + split; [discriminate|]. split; [discriminate|].
      intros [[s Hs]|Hf]; discriminate.
    + split; [discriminate|]. split; [discriminate|].
      intros [[s Hs]|Hf]; discriminate.
  - injection H as <-. split.
    + intros s ->. cbn [truthy] in Ht. apply negb_false_iff in Ht. now rewrite Ht.
    + split; [reflexivity | intros _; exact Hd].
Qed.

(** X13. What a rejection stores. A document is saved only for an admin and
    an application that exists; the saved document is Rejected, stamped
    with the time, has an application number, and keeps the time and the
    admin of an earlier approval. Its reason is the one given when that is
    a string that is not empty, and the default reason when the reason is
    the empty string, absent or otherwise falsy: in these cases the stored
    reason is never empty. *)
Theorem reject_saves (o : Office) (actor : Actor) (id : string)
    (rejectionReason : value) (a : Application.t) :
  saved (reject o actor id rejectionReason) = Some a ->
  is_admin actor = true
  /\ exists (a0 : Application.t) (r : string),
       Application_findById o id = inr (Some a0)
       /\ Application.status a = Rejected
       /\ Application.rejectedAt a = Some (clock o)
       /\ Application.rejectionReason a = Some r
       /\ (forall s, rejectionReason = Str s ->
                     r = if String.eqb s "" then default_reason else s)
       /\ (truthy rejectionReason = false -> r = default_reason)
       /\ ((exists s, rejectionReason = Str s) \/ truthy rejectionReason = false ->
           r <> "")
       /\ no_number (Application.applicationNumber a) = false
       /\ Application.approvedAt a = Application.approvedAt a0
       /\ Application.approvedBy a = Application.approvedBy a0.
Proof.
  unfold reject, save.
  destruct (is_admin actor); cbn [negb]; [|discriminate].
  destruct (Application_findById o id) as [e|[a0|]]; try discriminate.
  destruct (reason_text o rejectionReason) as [e|r] eqn:Er; [discriminate|].
  destruct (save_throws o _); [discriminate|].
  rewrite notify_saved. intros [= <-]. split; [reflexivity|].
  exists a0, r. split; [reflexivity|].
  destruct (pre_save_decided (office_count o)
              (rejected_as (clock o) r a0) eq_refl)
    as (H1 & H2 & H3 & H4 & H5 & H6 & H7 & H8 & H9 & H10).
  destruct (reason_text_given o rejectionReason r Er) as (G1 & G2 & G3).
  repeat split; assumption.
Qed.

Lemma reject_saves_witness :
  exists a : Application.t,
    saved (reject (example_office addressed_only) example_admin "a1" (Str ""))
    = Some a
    /\ Application.rejectionReason a = Some default_reason.
Proof.
  eexists. split; [vm_compute; reflexivity|].
  destruct (reject_saves (example_office addressed_only) example_admin "a1"
              (Str "") _ eq_refl)
    as (_ & a0 & r & _ & _ & _ & Hr & Hs & _).
  refine (eq_trans Hr _). f_equal. exact (Hs "" eq_refl).
Defined.

(** ** Who sees and who changes an application *)

(** X14. The routes that show and update an application hand out a
    document only to an admin or to the applicant: the one found under the
    id when it is shown; the one that the store returns for the update,
    which is asked for only when the actor is an admin or the applicant of
    a draft. *)
Theorem access_guard (o : Office) (actor : Actor) (id : string)
    (body : gmap string value) (a : Application.t) :
  (answer_data (view o actor id) = Some a ->
   Application_findById o id = inr (Some a)
   /\ (is_admin actor = true \/ Application.userId a = actor_id actor))
  /\ (answer_data (update o actor id body) = Some a ->
      Application_findByIdAndUpdate o id body = inr (Some a)
      /\ exists a0 : Application.t,
           Application_findById o id = inr (Some a0)
           /\ (is_admin actor = true
               \/ (Application.userId a0 = actor_id actor
                   /\ Application.status a0 = Draft))).
Proof.
  split.
  - unfold view. destruct (Application_findById o id) as [e|[a0|]];
      try discriminate.
    destruct (is_admin actor).
    + cbn. intros [= <-]. auto.
    + destruct (User_findById o _); [|discriminate].
      destruct (String.eqb_spec (Application.userId a0) (actor_id actor)) as [E|E];
        cbn; [|discriminate].
      intros [= <-]. auto.
  - unfold update. destruct (Application_findById o id) as [e|[a0|]];
      try discriminate.
    destruct (is_admin actor); cbn [negb andb].
    + destruct (Application_findByIdAndUpdate o id body) as [e|[u|]];
        try discriminate.
      cbn. intros [= <-]. eauto.
    + destruct (String.eqb_spec (Application.userId a0) (actor_id actor)) as [E|E];
        cbn [negb orb]; [|discriminate].
      destruct (Application.status a0) eqn:Es; cbn [is_Draft negb]; try discriminate.
      destruct (Application_findByIdAndUpdate o id body) as [e|[u|]];
        try discriminate.
      cbn. intros [= <-]. split; [reflexivity|]. exists a0. auto.
Qed.

Lemma access_guard_witness :
  Application_findById (example_office addressed_only) "a1"
  = inr (Some example_submitted)
  /\ (is_admin example_owner = true
      \/ Application.userId example_submitted = actor_id example_owner).
Proof.
  apply (proj1 (access_guard (example_office addressed_only) example_owner "a1"
                  ∅ example_submitted)).
  vm_compute. reflexivity.
Defined.




(** ** [validateObjectId] *)

Lemma append_inj_r (p a b : string) : (p ++ a = p ++ b)%string -> a = b.
Proof.
  induction p as [|c p IH]; cbn [String.append]; [auto|].
  intros [= H]. auto.
Qed.

Lemma falsy_not_string (s : string) (v : value) :
  s <> "" -> is_string s v = true -> truthy v = true.
Proof.
  intros Hs. destruct v as [| |b|n|s'|ps|es]; cbn [is_string truthy];
    try discriminate.
  intros E. apply String.eqb_eq in E. subst s'.
  apply negb_true_iff. now apply String.eqb_neq.
Qed.

(** X16. [validateObjectId] gives back the id it was given, and does so
    exactly for a truthy id that [ObjectId.isValid] accepts. Its error
    [cannot be empty string] is never raised: the empty string is falsy and
    gets the error [is required]. *)
Theorem validateObjectId_outcomes (isValid : value -> bool) (id : value)
    (field : string) :
  (forall v, validateObjectId isValid id field = inr v
             <-> v = id /\ truthy id = true /\ isValid id = true)
  /\ validateObjectId isValid id field
     <> inl (OtherError (field ++ " cannot be empty string"))
  /\ (id = Str "" ->
      validateObjectId isValid id field = inl (OtherError (field ++ " is required"))).
Proof.
  unfold validateObjectId. split; [|split].
  - intros v. destruct (truthy id) eqn:Ht; cbn [negb].
    + assert (Hs : is_string "" id = false).
      { destruct id as [| |b|n|s|ps|es]; try reflexivity.
        cbn [truthy is_string] in *. now apply negb_true_iff in Ht. }
      rewrite Hs. destruct (isValid id); cbn [negb].
      * split; [intros [= <-]; auto | intros (-> & _); reflexivity].
      * split; [discriminate | intros (_ & _ & H); discriminate H].
    + split; [discriminate | intros (_ & H & _); discriminate H].
  - destruct (truthy id) eqn:Ht; cbn [negb].
    + assert (Hs : is_string "" id = false).
      { destruct id as [| |b|n|s|ps|es]; try reflexivity.
        cbn [truthy is_string] in *. now apply negb_true_iff in Ht. }
      rewrite Hs. destruct (isValid id); cbn [negb]; [discriminate|].
      intros [= H]. apply append_inj_r in H. discriminate H.
    + intros [= H]. apply append_inj_r in H. discriminate H.
  - intros ->. reflexivity.
Qed.

Lemma validateObjectId_outcomes_witness :
  validateObjectId (fun _ => true) (Str "") "loanId"
  = inl (OtherError "loanId is required").
Proof.
  exact (proj2 (proj2 (validateObjectId_outcomes (fun _ => true) (Str "")
                         "loanId")) eq_refl).
Defined.

(** ** The spelling of the application number *)

Lemma digits_fuel_short (fuel : nat) :
  forall (n k : nat) (acc : string),
    n < fuel -> n < 10 ^ S k ->
    String.length (digits_fuel fuel n acc) <= S k + String.length acc.
Proof.
  induction fuel as [|fuel IH]; intros n k acc Hn Hk; [lia|].
  cbn [digits_fuel].
  destruct (Nat.ltb_spec n 10) as [Hlt|Hge]; [cbn [String.length]; lia|].
  destruct k as [|k]; [cbn in Hk; lia|].
  assert (Hdiv : n / 10 < fuel).
  { assert (n / 10 < n) by (apply Nat.div_lt; lia). lia. }
  assert (Hq : n / 10 < 10 ^ S k).
  { apply Nat.Div0.div_lt_upper_bound. rewrite <- Nat.pow_succ_r'. exact Hk. }
  pose proof (IH (n / 10) k (String (digit_char (n mod 10)) acc) Hdiv Hq) as H.
  cbn [String.length] in H. lia.
Qed.

Lemma digits_fuel_long (fuel : nat) :
  forall (n k : nat) (acc : string),
    n < fuel -> 10 ^ k <= n ->
    S k + String.length acc <= String.length (digits_fuel fuel n acc).
Proof.
  induction fuel as [|fuel IH]; intros n k acc Hn Hk; [lia|].
  cbn [digits_fuel].
  destruct (Nat.ltb_spec n 10) as [Hlt|Hge].
  - cbn [String.length]. destruct k as [|k]; [lia|].
    assert (H : 10 ^ 1 <= 10 ^ S k) by (apply Nat.pow_le_mono_r; lia).
    rewrite Nat.pow_1_r in H. lia.
  - assert (Hdiv : n / 10 < fuel).
    { assert (n / 10 < n) by (apply Nat.div_lt; lia). lia. }
    destruct k as [|k].
    + assert (Hq : 10 ^ 0 <= n / 10).
      { rewrite Nat.pow_0_r. apply Nat.div_le_lower_bound; lia. }
      pose proof (IH (n / 10) 0 (String (digit_char (n mod 10)) acc) Hdiv Hq) as H.
      cbn [String.length] in H. lia.
    + assert (Hq : 10 ^ k <= n / 10).
      { apply Nat.div_le_lower_bound; [lia|].
        rewrite <- Nat.pow_succ_r'. exact Hk. }
      pose proof (IH (n / 10) k (String (digit_char (n mod 10)) acc) Hdiv Hq) as H.
      cbn [String.length] in H. lia.
Qed.

Lemma format_number_length (count : nat) :
  String.length (format_number count)
  = 3 + Nat.max 6 (String.length (String_of_nat (count + 1))).
Proof.
  unfold format_number. rewrite length_append, length_padStart.
  cbn [String.length]. lia.
Qed.

(** X17. Application numbers of different counts are different, and a
    number has nine characters, [APP] and six digits, as long as the count
    is below 999999; from there on it is longer. *)
Theorem format_number_distinct (count count' : nat) :
  (format_number count = format_number count' -> count = count')
  /\ (count + 1 < 10 ^ 6 -> String.length (format_number count) = 9)
  /\ (10 ^ 6 <= count + 1 -> 9 < String.length (format_number count)).
Proof.
  split; [|split].
  - intros H.
    destruct (format_number_shape count) as (d & Ed & _ & Hd).
    destruct (format_number_shape count') as (d' & Ed' & _ & Hd').
    rewrite Ed, Ed' in H. apply append_inj_r in H. subst d'.
    rewrite Hd in Hd'. injection Hd' as Hd'. lia.
  - intros H. rewrite format_number_length.
    pose proof (digits_fuel_short (S (count + 1)) (count + 1) 5 ""
                  (Nat.lt_succ_diag_r _) H) as Hlen.
    fold (String_of_nat (count + 1)) in Hlen. cbn [String.length] in Hlen. lia.
  - intros H. rewrite format_number_length.
    pose proof (digits_fuel_long (S (count + 1)) (count + 1) 6 ""
                  (Nat.lt_succ_diag_r _) H) as Hlen.
    fold (String_of_nat (count + 1)) in Hlen. cbn [String.length] in Hlen. lia.
Qed.

Lemma format_number_distinct_witness :
  String.length (format_number 41) = 9.
Proof.
  apply (proj1 (proj2 (format_number_distinct 41 41))).
  apply Nat.lt_le_trans with (10 ^ 2); [cbn; lia|].
  apply Nat.pow_le_mono_r; lia.
Defined.

(** ** The number of documents *)

Lemma insert_by_index_Permutation (e : N * string) (l : list (N * string)) :
  Permutation (insert_by_index e l) (e :: l).
Proof.
  induction l as [|h t IH]; cbn [insert_by_index]; [reflexivity|].
  destruct (fst e <? fst h)%N; [reflexivity|].
  rewrite IH. apply perm_swap.
Qed.

Lemma sorted_entries_Permutation (l : list (N * string)) :
  Permutation (fold_right insert_by_index [] l) l.
Proof.
  induction l as [|h t IH]; cbn [fold_right]; [reflexivity|].
  rewrite insert_by_index_Permutation. now apply perm_skip.
Qed.

Lemma index_entries_keys (ks : list string) :
  map snd (index_entries ks) = List.filter is_array_index ks.
Proof.
  induction ks as [|k ks IH]; cbn [index_entries List.filter]; [reflexivity|].
  unfold is_array_index at 1.
  destruct (array_index k); cbn [map snd]; now rewrite IH.
Qed.

Lemma filter_split_Permutation {A : Type} (p : A -> bool) (l : list A) :
  Permutation (List.filter p l ++ List.filter (fun x => negb (p x)) l) l.
Proof.
  induction l as [|x l IH]; cbn [List.filter]; [reflexivity|].
  destruct (p x); cbn [negb app].
  - now apply perm_skip.
  - symmetry. apply Permutation_cons_app. now symmetry.
Qed.

(** [Object.keys] lists every key once: it reorders the keys. *)
Lemma key_order_Permutation (ks : list string) : Permutation (key_order ks) ks.
Proof.
  unfold key_order.
  rewrite (Permutation_map snd (sorted_entries_Permutation (index_entries ks))).
  rewrite index_entries_keys. apply filter_split_Permutation.
Qed.

Lemma dynamic_documents_length (names : list string) (batch : list File) :
  length (dynamic_documents names batch)
  = list_sum (map (fun k => length (dynamic_under k batch)) names).
Proof.
  unfold dynamic_documents.
  induction names as [|k names IH]; [reflexivity|]. cbn [flat_map map].
  change (list_sum (?a :: ?l)) with (a + list_sum l).
  now rewrite length_app, length_map, IH.
Qed.

Lemma first_seen_from (names : list string) :
  forall seen : list string,
    List.NoDup seen ->
    let all :=
      fold_left
        (fun seen k => if existsb (String.eqb k) seen then seen else seen ++ [k])
        names seen in
    List.NoDup all /\ forall k, In k all <-> In k seen \/ In k names.
Proof.
  induction names as [|n names IH]; intros seen Hnd; cbn [fold_left In].
  - split; [exact Hnd | tauto].
  - destruct (existsb (String.eqb n) seen) eqn:E.
    + destruct (IH seen Hnd) as [H1 H2]. split; [exact H1|].
      intros k. rewrite H2. apply (proj1 (existsb_eqb_In _ _)) in E.
      split; [tauto|]. intros [H|[<-|H]]; auto.
    + assert (Hn : ~ In n seen).
      { intros Hin. apply (proj2 (existsb_eqb_In _ _)) in Hin. congruence. }
      assert (Hnd' : List.NoDup (seen ++ [n])).
      { apply (Permutation_NoDup (Permutation_cons_append seen n)).
        now constructor. }
      destruct (IH (seen ++ [n]) Hnd') as [H1 H2]. split; [exact H1|].
      intros k. rewrite H2, in_app_iff. cbn [In]. tauto.
Qed.

Lemma dynamic_names_spec (batch : list File) :
  List.NoDup (dynamic_names batch)
  /\ forall f, In f batch -> is_dynamic f = true ->
               In (dynamic_name f) (dynamic_names batch).
Proof.
  unfold dynamic_names, first_seen.
  destruct (first_seen_from (map dynamic_name (List.filter is_dynamic batch)) []
              (List.NoDup_nil _)) as [H1 H2].
  split; [exact H1|]. intros f Hf Hd. apply H2. right.
  apply in_map, filter_In. auto.
Qed.

Lemma count_none (names : list string) (k : string) :
  ~ In k names ->
  list_sum (map (fun n => if String.eqb n k then 1 else 0) names) = 0.
Proof.
  induction names as [|m names IH]; intros Hk; [reflexivity|].
  cbn [map]. change (list_sum (?a :: ?l)) with (a + list_sum l).
  destruct (String.eqb_spec m k) as [E|_]; [destruct Hk; now left|].
  apply IH. intros H. apply Hk. now right.
Qed.

Lemma count_one (names : list string) (k : string) :
  List.NoDup names -> In k names ->
  list_sum (map (fun n => if String.eqb n k then 1 else 0) names) = 1.
Proof.
  induction names as [|n names IH]; intros Hnd Hin; [destruct Hin|].
  apply List.NoDup_cons_iff in Hnd as [Hn Hnd]. cbn [map].
  change (list_sum (?a :: ?l)) with (a + list_sum l).
  destruct (String.eqb_spec n k) as [E|Hne].
  - subst n. now rewrite count_none.
  - destruct Hin as [E|Hin]; [contradiction|]. now rewrite IH.
Qed.

Lemma list_sum_add {A : Type} (f g : A -> nat) (l : list A) :
  list_sum (map (fun x => f x + g x) l)
  = list_sum (map f l) + list_sum (map g l).
Proof.
  induction l as [|x l IH]; [reflexivity|]. cbn [map].
  change (list_sum (?a :: ?l)) with (a + list_sum l).
  rewrite IH. lia.
Qed.

Lemma list_sum_zero {A : Type} (l : list A) :
  list_sum (map (fun _ => 0) l) = 0.
Proof. induction l as [|x l IH]; [reflexivity | exact IH]. Qed.

Lemma dynamic_groups_count (names : list string) (batch : list File) :
  List.NoDup names ->
  (forall f, In f batch -> is_dynamic f = true -> In (dynamic_name f) names) ->
  list_sum (map (fun k => length (dynamic_under k batch)) names)
  = length (List.filter is_dynamic batch).
Proof.
  intros Hnd. induction batch as [|f batch IH]; intros Hall.
  - cbn [dynamic_under List.filter length]. apply list_sum_zero.
  - assert (E : forall k,
               length (dynamic_under k (f :: batch))
               = (if is_dynamic f
                  then (if String.eqb k (dynamic_name f) then 1 else 0) else 0)
                 + length (dynamic_under k batch)).
    { intros k. unfold dynamic_under. cbn [List.filter].
      destruct (is_dynamic f); cbn [andb]; [|reflexivity].
      now destruct (String.eqb k (dynamic_name f)). }
    rewrite (map_ext _ _ E), list_sum_add, IH
      by (intros g Hg; apply Hall; now right).
    cbn [List.filter]. destruct (is_dynamic f) eqn:Hd; cbn [length].
    + rewrite count_one; [reflexivity | exact Hnd |].
      apply Hall; [now left | exact Hd].
    + now rewrite list_sum_zero.
Qed.

Lemma filter_cons_length {A : Type} (p : A -> bool) (x : A) (l : list A) :
  length (List.filter p (x :: l))
  = (if p x then 1 else 0) + length (List.filter p l).
Proof. cbn [List.filter]. now destruct (p x). Qed.

Lemma fixed_slot_once (f : File) :
  (if String.eqb "idProof" (fieldname f) then 1 else 0)
  + (if String.eqb "addressProof" (fieldname f) then 1 else 0)
  + (if String.eqb "incomeProof" (fieldname f) then 1 else 0)
  + (if String.eqb "bankStatement" (fieldname f) then 1 else 0)
  + (if String.eqb "otherDocuments" (fieldname f) then 1 else 0)
  = if is_fixed f then 1 else 0.
Proof.
  unfold is_fixed, fixed_slots. cbn [existsb fst].
  destruct (String.eqb_spec "idProof" (fieldname f)) as [E|_];
    [rewrite <- E; reflexivity|].
  destruct (String.eqb_spec "addressProof" (fieldname f)) as [E|_];
    [rewrite <- E; reflexivity|].
  destruct (String.eqb_spec "incomeProof" (fieldname f)) as [E|_];
    [rewrite <- E; reflexivity|].
  destruct (String.eqb_spec "bankStatement" (fieldname f)) as [E|_];
    [rewrite <- E; reflexivity|].
  destruct (String.eqb_spec "otherDocuments" (fieldname f)) as [E|_];
    reflexivity.
Qed.

Lemma fixed_documents_length (batch : list File) :
  length (fixed_documents batch) = length (List.filter is_fixed batch).
Proof.
  unfold fixed_documents, fixed_slots. cbn [flat_map fst snd].
  rewrite !length_app, !length_map. cbn [length]. unfold under.
  induction batch as [|f batch IH]; [reflexivity|].
  rewrite !filter_cons_length. pose proof (fixed_slot_once f) as H. lia.
Qed.

Lemma selfie_document_length (batch : list File) :
  length (selfie_document batch)
  = if existsb is_selfie_file batch then 1 else 0.
Proof.
  unfold selfie_document, first_selfie.
  induction batch as [|f batch IH]; [reflexivity|].
  cbn [find existsb]. fold (is_selfie_file f).
  destruct (is_selfie_file f); [reflexivity | exact IH].
Qed.

Lemma slots_exclusive (f : File) :
  (if is_fixed f then 1 else 0) + (if is_dynamic f then 1 else 0)
  + (if is_selfie_file f then 1 else 0) <= 1.
Proof.
  unfold is_fixed, is_dynamic, is_selfie_file, fixed_slots. cbn [existsb fst].
  destruct (String.eqb_spec "idProof" (fieldname f)) as [E|_];
    [rewrite <- E; cbn; lia|].
  destruct (String.eqb_spec "addressProof" (fieldname f)) as [E|_];
    [rewrite <- E; cbn; lia|].
  destruct (String.eqb_spec "incomeProof" (fieldname f)) as [E|_];
    [rewrite <- E; cbn; lia|].
  destruct (String.eqb_spec "bankStatement" (fieldname f)) as [E|_];
    [rewrite <- E; cbn; lia|].
  destruct (String.eqb_spec "otherDocuments" (fieldname f)) as [E|_];
    [rewrite <- E; cbn; lia|].
  destruct (String.eqb_spec "selfie" (fieldname f)) as [E|_];
    [rewrite <- E; cbn; lia|].
  cbn [orb]. destruct (startsWith _ _); lia.
Qed.

Lemma slots_count (batch : list File) :
  length (List.filter is_fixed batch) + length (List.filter is_dynamic batch)
  + (if existsb is_selfie_file batch then 1 else 0)
  <= length batch.
Proof.
  induction batch as [|f batch IH]; [cbn; lia|].
  rewrite !filter_cons_length. cbn [existsb length].
  pose proof (slots_exclusive f) as H.
  destruct (is_selfie_file f); cbn [orb];
    destruct (existsb is_selfie_file batch); lia.
Qed.

(** X18. The number of documents of a created application: one for each
    file under idProof, addressProof, incomeProof, bankStatement or
    otherDocuments, one for each file under a name [dynamicFiles_...], and
    one for all the files under selfie together. Files under any other
    name, and the selfies after the first, leave no document, so there are
    never more documents than files. *)
Theorem documents_count (js : Builtins) (w : World) (req : Request)
    (app : Application.t) (sent : EmailResult) :
  intake js w req = Next (app, sent) ->
  length (Application.documents app)
  = length (List.filter is_fixed (uploaded req))
    + length (List.filter is_dynamic (uploaded req))
    + (if existsb is_selfie_file (uploaded req) then 1 else 0)
  /\ length (Application.documents app) <= length (uploaded req).
Proof.
  intros H. destruct (created_documents js w req app sent H) as [-> _].
  assert (E : length (documents_in_key_order (uploaded req))
              = length (List.filter is_fixed (uploaded req))
                + length (List.filter is_dynamic (uploaded req))
                + (if existsb is_selfie_file (uploaded req) then 1 else 0)).
  { unfold documents_in_key_order.
    rewrite !length_app, fixed_documents_length, selfie_document_length.
    assert (Ed : length (dynamic_documents
                           (key_order (dynamic_names (uploaded req)))
                           (uploaded req))
                 = length (dynamic_documents (dynamic_names (uploaded req))
                                             (uploaded req))).
    { apply Permutation_length. unfold dynamic_documents.
      apply Permutation_flat_map, key_order_Permutation. }
    rewrite Ed, dynamic_documents_length.
    destruct (dynamic_names_spec (uploaded req)) as [Hnd Hall].
    rewrite (dynamic_groups_count _ _ Hnd Hall). lia. }
  split; [exact E|]. rewrite E. apply slots_count.
Qed.

Lemma documents_count_witness :
  exists (app : Application.t) (sent : EmailResult),
    intake example_host (example_world delivered)
           (example_request example_files twelve_months salaried)
    = Next (app, sent)
    /\ length (Application.documents app) = 6
    /\ length example_files = 7.
Proof.
  eexists. eexists. split; [vm_compute; reflexivity|].
  split; [|reflexivity].
  exact (proj1 (documents_count example_host (example_world delivered)
                  (example_request example_files twelve_months salaried)
                  _ _ eq_refl)).
Defined.

(** ** The two instalments *)

(** X19. The submission route and the Loan model evaluate the same
    quotient [q = P r (1+r)^n / ((1+r)^n - 1)] in double precision whenever
    their monthly rates, [R / 100 / 12] and [R / 12 / 100], are the same
    double [r > 0]. For a finite [q] the route's instalment is the integer
    nearest to [q] and, below [10^21], the model's is the double nearest to
    a number of hundredths that is within 1/2 + 1/200 of that integer. For
    a [q] that is an infinity or not a number the route's instalment is
    [q] itself and the model stores none. *)
Theorem instalments_agree (js : Builtins) (P R t : Q) (e : value) :
  (0 < P)%Q -> (0 < t)%Q ->
  monthly_rate_double R = product_rate_double R ->
  gt_zero (monthly_rate_double R) = true ->
  match amortized_double (Math_pow js) (Finite P) (monthly_rate_double R)
          (Finite t) with
  | Finite q =>
      compute_emi js (Finite P) (Finite t) R
      = Finite (inject_Z (round_nearest q))
      /\ (Qle_bool (inject_Z (10 ^ 21)) (Qabs q) = false ->
          exists k : Z,
            product_emi js {| principal := Num (Finite P);
                              annualRate := Num (Finite R);
                              tenureMonths := Num (Finite t); terms_emi := e |}
            = Num (round_double (k # 100))
            /\ ((k # 100) - (101 # 200) <= inject_Z (round_nearest q)
                /\ inject_Z (round_nearest q) <= (k # 100) + (101 # 200))%Q)
  | other =>
      compute_emi js (Finite P) (Finite t) R = other
      /\ product_emi js {| principal := Num (Finite P);
                           annualRate := Num (Finite R);
                           tenureMonths := Num (Finite t); terms_emi := e |}
         = e
  end.
Proof.
  intros HP Ht Hsame Hr.
  rewrite compute_emi_double, Hr.
  assert (Hr' : gt_zero (product_rate_double R) = true) by now rewrite <- Hsame.
  rewrite (product_emi_double js P t R e HP Ht Hr'), <- Hsame.
  destruct (amortized_double _ _ _ _) as [|negative|q]; try (split; reflexivity).
  split; [reflexivity|]. intros E.
  destruct (toFixed2_cents q E) as (k & Ek & _).
  exists k. unfold Number_toFixed2. rewrite E, Ek. split; [reflexivity|].
  pose proof (round_nearest_spec q) as [H1 H2].
  pose proof (toFixed2_near q) as [H3 H4]. rewrite Ek in H3, H4.
  set (c := (k # 100)%Q) in *. set (z := inject_Z (round_nearest q)) in *.
  split; lra.
Qed.

Lemma instalments_agree_witness :
  compute_emi example_host (Finite 100000) (Finite 12) 12 = Finite 8885
  /\ exists k : Z,
       product_emi example_host example_terms = Num (round_double (k # 100))
       /\ ((k # 100) - (101 # 200) <= 8885
           /\ 8885 <= (k # 100) + (101 # 200))%Q.
Proof.
  pose proof (instalments_agree example_host 100000 12 12 (Str "")
                eq_refl eq_refl ltac:(vm_compute; reflexivity)
                ltac:(vm_compute; reflexivity)) as H.
  remember (amortized_double _ _ _ _) as A eqn:Eq in H.
  vm_compute in Eq. subst A. cbv beta iota in H. destruct H as [H1 H2].
  split; [etransitivity; [exact H1 | vm_compute; reflexivity]|].
  destruct (H2 ltac:(vm_compute; reflexivity)) as (k & Hk & Hb).
  exists k. split; [exact Hk|].
  vm_compute (round_nearest _) in Hb. exact Hb.
Defined.

(** ** Dynamic fields that are not an object *)

Lemma dynamic_names_nonempty (batch : list File) :
  existsb is_dynamic batch = true -> dynamic_names batch <> [].
Proof.
  intros H. apply existsb_exists in H as (f & Hf & Hd).
  destruct (dynamic_names_spec batch) as [_ Hall].
  specialize (Hall f Hf Hd). intros E. now rewrite E in Hall.
Qed.

Lemma key_order_first (ks : list string) :
  ks <> [] -> exists k rest, key_order ks = k :: rest /\ In k ks.
Proof.
  intros Hne. destruct (key_order ks) as [|k rest] eqn:E.
  - pose proof (key_order_Permutation ks) as Hp. rewrite E in Hp.
    apply Permutation_nil in Hp. contradiction.
  - exists k, rest. split; [reflexivity|].
    apply (proj1 (key_order_In k ks)). rewrite E. now left.
Qed.

(** X20. When [dynamicFields] arrives as a string (a text that is not
    JSON stays a string), a number or [true], and the batch has a file for
    a dynamic field, the request fails once the loan checks have passed:
    the assignment [dynamicFields[fieldName] = []] throws in strict mode,
    the response is the 500 of the [catch] block with the message of that
    [TypeError], nothing is created and no mail is sent, whatever the
    employment information is. *)
Theorem primitive_dynamic_fields_fail (js : Builtins) (w : World) (req : Request)
    (loan : Loan.t) (loanAmount loanTenure : number) (v : value) :
  plain_names (uploaded req) = true ->
  existsb is_dynamic (uploaded req) = true ->
  check_terms js w (parse_fields js (req_body req))
  = Next (loan, loanAmount, loanTenure) ->
  js_or (field (parse_fields js (req_body req)) "dynamicFields") (Obj []) = v ->
  is_primitive v = true ->
  exists k : string,
    In k (dynamic_names (uploaded req))
    /\ submit js w req
       = (failure 500
            (Text (if String.eqb (primitive_assign_message js v k) ""
                   then "Server error" else primitive_assign_message js v k)),
          None).
Proof.
  intros Hplain Hdyn Hterms Hv Hprim.
  destruct (group_files_completes (uploaded req) ([], []) Hplain)
    as [[files dyn] Hgroup].
  assert (Horg : organize (req_files req) = Next (files, dyn)).
  { rewrite organize_uploaded. exact Hgroup. }
  pose proof (grouped_names _ _ _ (organize_grouped _ _ _ Horg)) as Hnames.
  destruct (key_order_first _ (dynamic_names_nonempty _ Hdyn))
    as (k & rest & Hkeys & Hk).
  exists k. split; [exact Hk|].
  unfold submit, intake. rewrite Horg. cbn [mbind outcome_bind].
  rewrite Hterms. cbn [mbind outcome_bind].
  unfold assemble_documents, Object_keys. rewrite Hv, Hnames, Hkeys.
  cbn [dynamic_groups]. unfold dynamic_group.
  destruct v as [| |b|n|s|ps|es]; try discriminate Hprim;
    cbn [read truthy negb assign mbind outcome_bind on_error]; reflexivity.
Qed.

Lemma primitive_dynamic_fields_fail_witness :
  exists k : string,
    submit example_host (example_world delivered) example_request_with_notes
    = (failure 500
         (Text (if String.eqb
                     (primitive_assign_message example_host
                        (Str "see attachment") k) ""
                then "Server error"
                else primitive_assign_message example_host
                       (Str "see attachment") k)),
       None).
Proof.
  destruct (primitive_dynamic_fields_fail example_host (example_world delivered)
              example_request_with_notes example_loan (Finite 100000) (Finite 12)
              (Str "see attachment")
              eq_refl eq_refl ltac:(vm_compute; reflexivity)
              ltac:(vm_compute; reflexivity) eq_refl)
    as (k & _ & H).
  exists k. exact H.
Defined.
